(** * Effect derivation from ledger changes and contract events

    A shallow embedding of the effects analyzer (class [EffectsAnalyzer]),
    of the events analyzer (class [EventsAnalyzer]) and of the analyzer
    primitives ([normalizeAddress], [encodeSponsorshipEffectName]), followed
    by the properties of the specification that were checked against them.

    JavaScript objects are finite maps from property names to values, the
    analyzers are state records, and a method is a function from the state
    to a completion (normal or abrupt) and the state it leaves behind. *)

From Stdlib Require Import ZArith Lia Ascii String.
From stdpp Require Import base strings gmap list pretty.

Local Open Scope Z_scope.

(* ================================================================== *)
(** ** JavaScript values *)
(* ================================================================== *)

(** The values that reach the analyzers: primitives, arrays and nested
    object literals.  Numbers stored in effects are integers (lengths,
    counters, flags). *)
#[local] Set Warnings "-register-all".
Inductive val : Type :=
  | VUndef
  | VNull
  | VBool (b : bool)
  | VNum (n : Z)
  | VStr (s : string)
  | VArr (items : list val)
  | VObj (props : list (string * val)).

(** An effect, like every top-level object literal of the analyzers. *)
Abbreviation Obj := (gmap string val).

(** [o.k]: a missing property reads as [undefined]. *)
Definition prop (o : Obj) (k : string) : val := default VUndef (o !! k).

(** [v.k] on a nested value; [None] is the TypeError of a property read on
    [undefined] or [null]. *)
Fixpoint assoc (k : string) (ps : list (string * val)) : val :=
  match ps with
  | [] => VUndef
  | (k', v) :: ps' => if String.eqb k' k then v else assoc k ps'
  end.

Definition member (v : val) (k : string) : option val :=
  match v with
  | VUndef | VNull => None
  | VObj ps => Some (assoc k ps)
  | _ => Some VUndef
  end.

(** ToBoolean. *)
Definition truthy (v : val) : bool :=
  match v with
  | VUndef | VNull => false
  | VBool b => b
  | VNum n => negb (Z.eqb n 0)
  | VStr s => negb (String.eqb s "")
  | VArr _ | VObj _ => true
  end.

(** [v === s] for a string [s]. *)
Definition strictEqStr (v : val) (s : string) : bool :=
  match v with
  | VStr t => String.eqb t s
  | _ => false
  end.

(** [v === w] when one side is known to be a string or [undefined]; arrays
    and objects are compared by reference and never equal a primitive. *)
Definition strictEq (v w : val) : bool :=
  match v, w with
  | VUndef, VUndef | VNull, VNull => true
  | VBool a, VBool b => Bool.eqb a b
  | VNum a, VNum b => Z.eqb a b
  | VStr a, VStr b => String.eqb a b
  | _, _ => false
  end.

(* ================================================================== *)
(** ** Completions *)
(* ================================================================== *)

Inductive Error : Type :=
  | TypeError (message : string)
  | GenericError (message : string)
  | UnexpectedTxMetaChangeError (type action : val)
  | TxMetaEffectParserError (message : string).

(** The completion of a function that touches no analyzer state. *)
Inductive Completion (A : Type) : Type :=
  | Return (a : A)
  | Throw (e : Error).
Arguments Return {A} a.
Arguments Throw {A} e.

Definition cbind {A B} (c : Completion A) (k : A → Completion B) : Completion B :=
  match c with
  | Return a => k a
  | Throw e => Throw e
  end.

(** A method over a state [S]: the completion and the state at that point.
    A throw keeps the mutations made before it, as in JavaScript. *)
Definition Js (S A : Type) : Type := S → Completion A * S.

Definition ret {S A} (a : A) : Js S A := λ s, (Return a, s).
Definition throw {S A} (e : Error) : Js S A := λ s, (Throw e, s).
Definition bind {S A B} (m : Js S A) (k : A → Js S B) : Js S B :=
  λ s, match m s with
       | (Return a, s') => k a s'
       | (Throw e, s') => (Throw e, s')
       end.
Definition gets {S A} (f : S → A) : Js S A := λ s, (Return (f s), s).
Definition modify {S} (f : S → S) : Js S unit := λ s, (Return tt, f s).
Definition lift {S A} (c : Completion A) : Js S A := λ s, (c, s).

Declare Scope js_scope.
Delimit Scope js_scope with js.
Notation "'let*' x ':=' m 'in' k" := (bind m (λ x, k))
  (at level 10, x binder, m at level 100, k at level 200) : js_scope.
Notation "m '>>' k" := (bind m (λ _, k))
  (at level 100, k at level 200, right associativity) : js_scope.
Notation "'let?' x ':=' c 'in' k" := (cbind c (λ x, k))
  (at level 10, x binder, c at level 100, k at level 200).

(** [for (const x of xs) body(x)] *)
Fixpoint forOf {S A} (xs : list A) (body : A → Js S unit) : Js S unit :=
  match xs with
  | [] => ret tt
  | x :: xs' => bind (body x) (λ _, forOf xs' body)
  end.

(* ================================================================== *)
(** ** Amounts and numbers *)
(* ================================================================== *)

(** A stroop amount.  The ledger parser hands amounts over as the decimal
    string of a 64-bit integer; an amount is represented by the integer its
    string denotes, and [decimal] gives the string back. *)
Abbreviation Amount := Z.

(** [BigInt.prototype.toString], and the decimal string of an amount. *)
Definition decimal (n : Z) : string := pretty n.

(** A Number whose value is an integer, an infinity or NaN: the Numbers
    that subtraction of decimal integer strings can produce. *)
Inductive Number : Type :=
  | Finite (n : Z)
  | Infinite (negative : bool)
  | NaN.

(** IEEE 754 binary64 rounding (round to nearest, ties to even) of an
    integer: [Number(s)] for a decimal string [s], and the rounding of an
    exact sum or difference. *)
Definition roundTiesToEven (n : Z) : Number :=
  let a := Z.abs n in
  if a <? 2 ^ 53 then Finite n
  else
    let e := Z.log2 a - 52 in
    let q := a / 2 ^ e in
    let r := a mod 2 ^ e in
    let half := 2 ^ (e - 1) in
    let q' := if (half <? r) || ((r =? half) && Z.odd q) then q + 1 else q in
    let m := q' * 2 ^ e in
    if 2 ^ 1024 <=? m then Infinite (n <? 0) else Finite (Z.sgn n * m).

(** [Number(v)] for an amount string, [undefined] giving NaN. *)
Definition toNumber (a : option Amount) : Number :=
  match a with
  | Some n => roundTiesToEven n
  | None => NaN
  end.

(** [x - y] on Numbers. *)
Definition numberSub (x y : Number) : Number :=
  match x, y with
  | NaN, _ | _, NaN => NaN
  | Finite a, Finite b => roundTiesToEven (a - b)
  | Finite _, Infinite s => Infinite (negb s)
  | Infinite s, Finite _ => Infinite s
  | Infinite s, Infinite t => if Bool.eqb s t then NaN else Infinite s
  end.

(** [x > n] for an integer literal [n]. *)
Definition numberGt (x : Number) (n : Z) : bool :=
  match x with
  | Finite a => n <? a
  | Infinite s => negb s
  | NaN => false
  end.

Definition numberEqb (x y : Number) : bool :=
  match x, y with
  | Finite a, Finite b => (a =? b)
  | Infinite s, Infinite t => Bool.eqb s t
  | _, _ => false
  end.

(** The largest power of ten not above [v], searched upwards from [p]. *)
Fixpoint scaleOf (fuel : nat) (p v : Z) : Z :=
  match fuel with
  | O => p
  | S fuel' => if 10 * p <=? v then scaleOf fuel' (10 * p) v else p
  end.

(** Number::toString, step 5: the integer [s * 10^(n-k)] with the fewest
    significant digits [k] whose Number value is [v]; among two of them the
    closest to [v], and the even [s] on a tie.  [p] is [10^(n-k)]. *)
Fixpoint shortest (fuel : nat) (p v : Z) : Z :=
  let lo := v / p * p in
  let hi := lo + p in
  let ok x := numberEqb (roundTiesToEven x) (Finite v) in
  let pick :=
    match ok lo, ok hi with
    | true, true =>
        if v - lo <? hi - v then Some lo
        else if hi - v <? v - lo then Some hi
        else if Z.even (v / p) then Some lo else Some hi
    | true, false => Some lo
    | false, true => Some hi
    | false, false => None
    end in
  match pick, fuel with
  | Some x, _ => x
  | None, S fuel' => shortest fuel' (p / 10) v
  | None, O => v
  end.

Fixpoint dropWhileEnd0 (digits : list ascii) : list ascii :=
  match digits with
  | [] => []
  | d :: ds =>
      match dropWhileEnd0 ds with
      | [] => if Ascii.eqb d "0" then [] else [d]
      | ds' => d :: ds'
      end
  end.

(** Number::toString of a positive integer Number. *)
Definition positiveToString (v : Z) : string :=
  let fuel := S (Z.to_nat (Z.log2 v)) in
  let x := shortest fuel (scaleOf fuel 1 v) v in
  if x <? 10 ^ 21 then decimal x
  else
    let all := list_ascii_of_string (decimal x) in
    let exponent := decimal (Z.of_nat (length all) - 1) in
    match dropWhileEnd0 all with
    | [] => decimal x
    | [d] => String d ("e+" +:+ exponent)
    | d :: ds => String d ("." +:+ string_of_list_ascii ds +:+ "e+" +:+ exponent)
    end.

(** [Number.prototype.toString]. *)
Definition numberToString (x : Number) : string :=
  match x with
  | NaN => "NaN"
  | Infinite s => if s then "-Infinity" else "Infinity"
  | Finite 0 => "0"
  | Finite (Z.pos _ as v) => positiveToString v
  | Finite (Z.neg p) => "-" +:+ positiveToString (Z.pos p)
  end.

(* ================================================================== *)
(** ** Ledger entry changes and the operation descriptor *)
(* ================================================================== *)

(** Modelled from the spec: the ledger-entry changes parser
    (./parser/ledger-entry-changes-parser) is not under src/.  Snapshots
    carry the fields the spec lists for their kind; identifiers are strings,
    balances and reserves are amounts, and the fields the analyzer only
    copies into effects are values. *)
Module Trustline.
Record t : Type := {
  account : string;
  asset : string;
  balance : Amount;
  limit : val;
  flags : val;
  sponsor : val
}.
End Trustline.

Module LiquidityPool.
Record t : Type := {
  pool : string;
  asset : list string;
  amount : list Amount;
  shares : Amount;
  accounts : val;
  sponsor : val
}.
End LiquidityPool.

Module Contract.
Record t : Type := {
  contract : string;
  kind : val;
  hash : val;
  storage : option (list (string * string))
}.
End Contract.

(** [{action, before, after}]; an absent snapshot is [undefined]. *)
Record Change (E : Type) : Type := {
  action : string;
  before : option E;
  after : option E
}.
Arguments action {E} _.
Arguments before {E} _.
Arguments after {E} _.

(** The kinds whose snapshots this development keeps as plain objects. *)
Inductive PlainKind : Type :=
  | account | offer | data | claimableBalance | contractData.

(** A change record; its [type] tag is the constructor. *)
Inductive LedgerChange : Type :=
  | TrustlineChange (ch : Change Trustline.t)
  | LiquidityPoolChange (ch : Change LiquidityPool.t)
  | ContractChange (ch : Change Contract.t)
  | PlainChange (kind : PlainKind) (ch : Change Obj).

Definition plainKindName (k : PlainKind) : string :=
  match k with
  | account => "account"
  | offer => "offer"
  | data => "data"
  | claimableBalance => "claimableBalance"
  | contractData => "contractData"
  end.

(** [ch.type] *)
Definition changeType (ch : LedgerChange) : string :=
  match ch with
  | TrustlineChange _ => "trustline"
  | LiquidityPoolChange _ => "liquidityPool"
  | ContractChange _ => "contract"
  | PlainChange k _ => plainKindName k
  end.

Module Operation.
Record t : Type := {
  type : string;
  source : string;
  liquidityPoolId : val
}.
End Operation.

(* ================================================================== *)
(** ** Contract events *)
(* ================================================================== *)

(** Modelled from the spec: the binary-value decoder
    (./parser/tx-xdr-parser-utils, [xdrParseScVal]) and the XDR classes are
    not under src/.  An ScVal is represented by what the analyzers read from
    it: its arm, the name of its switch, its inner value, its decoded native
    value (with and without bytes read as a contract id) and its base64
    XDR. *)
Record ScVal : Type := {
  _arm : val;
  switchName : string;
  innerValue : val;
  native : val;
  nativeContractId : val;
  toXDR : string
}.

(** [xdr.ContractEventV0] *)
Record ContractEventV0 : Type := {
  topics : list ScVal;
  eventData : ScVal
}.

(** A contract event: the StrKey encoding of its contract id when it has
    one, the value of its type and its body. *)
Record ContractEvent : Type := {
  contractId : option string;
  eventType : Z;
  body : ContractEventV0
}.

Record DiagnosticEvent : Type := {
  inSuccessfulContractCall : bool;
  event : ContractEvent
}.

(* ================================================================== *)
(** ** Analyzer state *)
(* ================================================================== *)

(** Object identity.  The effect list holds objects, not copies: an entry
    is the identity of an object together with its current properties, so
    that a holder of the identity (the call stack) can patch the entry. *)
Abbreviation ObjId := nat.

Record EffectsAnalyzer : Type := {
  operation : Operation.t;
  changes : list LedgerChange;
  source : string;
  diagnosticEvents : option (list DiagnosticEvent);
  effects : list (ObjId * Obj);
  allocated : nat
}.

Definition setEffects (f : list (ObjId * Obj) → list (ObjId * Obj)) (s : EffectsAnalyzer) : EffectsAnalyzer :=
  {| operation := operation s; changes := changes s; source := source s;
     diagnosticEvents := diagnosticEvents s;
     effects := f (effects s); allocated := allocated s |}.

(** A new object: a fresh identity for an object literal. *)
Definition new (o : Obj) : Js EffectsAnalyzer (ObjId * Obj) :=
  λ s, (Return (allocated s, o),
        {| operation := operation s; changes := changes s; source := source s;
           diagnosticEvents := diagnosticEvents s;
           effects := effects s; allocated := S (allocated s) |}).

(** [o.k = v] on an object not yet shared. *)
Definition setProp (k : string) (v : val) (o : ObjId * Obj) : ObjId * Obj :=
  (o.1, <[k := v]> o.2).

(** The effects as a reader of the list sees them. *)
Definition effectList (s : EffectsAnalyzer) : list Obj := (effects s).*2.

(** [list.splice(start, 0, x)] for [start >= 0]. *)
Definition spliceIn {A} (start : Z) (x : A) (l : list A) : list A :=
  take (Z.to_nat start) l ++ x :: drop (Z.to_nat start) l.

(** [list.findIndex(p)], with a callback that may throw. *)
Fixpoint findIndexFrom {A} (p : A → Completion bool) (i : Z) (l : list A) : Completion Z :=
  match l with
  | [] => Return (-1)
  | x :: l' =>
      let? hit := p x in
      if hit then Return i else findIndexFrom p (i + 1) l'
  end.
Definition findIndex {A} (p : A → Completion bool) (l : list A) : Completion Z :=
  findIndexFrom p 0 l.

(** [list.find(p)] and [list.some(p)] *)
Fixpoint find {A} (p : A → Completion bool) (l : list A) : Completion (option A) :=
  match l with
  | [] => Return None
  | x :: l' =>
      let? hit := p x in
      if hit then Return (Some x) else find p l'
  end.

Definition some {A} (p : A → bool) (l : list A) : bool := existsb p l.

(** [s.includes(t)] *)
Fixpoint prefixb (t s : string) : bool :=
  match t, s with
  | EmptyString, _ => true
  | String a t', String b s' => Ascii.eqb a b && prefixb t' s'
  | String _ _, EmptyString => false
  end.

Fixpoint includes (s t : string) : bool :=
  prefixb t s ||
  match s with
  | EmptyString => false
  | String _ s' => includes s' t
  end.

(* ================================================================== *)
(** ** The effects analyzer *)
(* ================================================================== *)

Section Analyzers.

(** The table of effect kinds (./effect-types) is not under src/; the
    analyzers are parameterised by it. *)
Variable effectTypes : gmap string string.

(** [effectTypes.k] and [effectTypes[k]]: a missing key reads as
    [undefined]. *)
Definition effectType (k : string) : val :=
  match effectTypes !! k with
  | Some name => VStr name
  | None => VUndef
  end.

Local Open Scope js_scope.

Definition isUndefined (v : val) : bool :=
  match v with
  | VUndef => true
  | _ => false
  end.

(** [if (!effect.source) effect.source = this.source] *)
Definition defaultSource (this_source : string) (effect : Obj) : Obj :=
  if negb (truthy (prop effect "source"))
  then <["source" := VStr this_source]> effect
  else effect.

Definition addEffect (effect : ObjId * Obj) (atPosition : option Z) : Js EffectsAnalyzer unit :=
  let* this_source := gets source in
  let effect := (effect.1, defaultSource this_source effect.2) in
  match atPosition with
  | Some atPosition =>
      modify (setEffects (spliceIn (if atPosition <? 0 then 0 else atPosition) effect))
  | None =>
      modify (setEffects (λ l, l ++ [effect]))
  end.

Definition debit (amount asset source balance : val) : Js EffectsAnalyzer unit :=
  if strictEqStr amount "0" then ret tt
  else
    let* effect := new {[ "type" := effectType "accountDebited";
                          "source" := source;
                          "asset" := asset;
                          "amount" := amount ]} in
    let effect :=
      if negb (isUndefined balance) then setProp "balance" balance effect else effect in
    addEffect effect None.

Definition credit (amount asset source balance : val) : Js EffectsAnalyzer unit :=
  if strictEqStr amount "0" then ret tt
  else
    let* effect := new {[ "type" := effectType "accountCredited";
                          "source" := source;
                          "asset" := asset;
                          "amount" := amount ]} in
    let effect :=
      if negb (isUndefined balance) then setProp "balance" balance effect else effect in
    addEffect effect None.

(** [e.assets?.find(a => a.asset === asset)], as a condition. *)
Definition assetsFind (e : Obj) (asset : string) : Completion bool :=
  match prop e "assets" with
  | VUndef | VNull => Return false
  | VArr items =>
      let? found := find (λ a, match member a "asset" with
                               | Some v => Return (strictEqStr v asset)
                               | None => Throw (TypeError "Cannot read properties of undefined")
                               end) items in
      Return (match found with Some a => truthy a | None => false end)
  | _ => Throw (TypeError "e.assets.find is not a function")
  end.

Definition mint (asset : string) (amount : val) (autoLookupPosition : bool) : Js EffectsAnalyzer unit :=
  let* position :=
    if autoLookupPosition then
      let* effects := gets effectList in
      let* i := lift (findIndex (λ e, if strictEqStr (prop e "asset") asset then Return true
                                      else assetsFind e asset) effects) in
      ret (Some i)
    else ret None in
  let* effect := new {[ "type" := effectType "assetMinted";
                        "asset" := VStr asset;
                        "amount" := amount ]} in
  addEffect effect position.

Definition burn (asset : string) (amount : val) (position : option Z) : Js EffectsAnalyzer unit :=
  let* effect := new {[ "type" := effectType "assetBurned";
                        "asset" := VStr asset;
                        "amount" := amount ]} in
  addEffect effect position.

(** [changes.find(ch => ch.type === 'liquidityPool' && sel(ch))] *)
Fixpoint findLiquidityPoolChange (sel : Change LiquidityPool.t → Completion bool)
    (l : list LedgerChange) : Completion (option (Change LiquidityPool.t)) :=
  match l with
  | [] => Return None
  | LiquidityPoolChange ch :: l' =>
      let? hit := sel ch in
      if hit then Return (Some ch) else findLiquidityPoolChange sel l'
  | _ :: l' => findLiquidityPoolChange sel l'
  end.

(** [{asset, amount}] *)
Definition assetAmount (asset : string) (amount : val) : val :=
  VObj [("asset", VStr asset); ("amount", amount)].

(** [xs.map((x, i) => f(x, i))] *)
Fixpoint mapi {A B} (f : A → nat → B) (i : nat) (xs : list A) : list B :=
  match xs with
  | [] => []
  | x :: xs' => f x i :: mapi f (S i) xs'
  end.

Definition liquidityPoolDeposit : Js EffectsAnalyzer unit :=
  let* liquidityPoolId := gets (λ s, Operation.liquidityPoolId (operation s)) in
  let* changes := gets changes in
  let* found := lift (findLiquidityPoolChange (λ ch,
      if String.eqb (action ch) "updated" then
        match after ch with
        | Some a => Return (strictEqStr liquidityPoolId (LiquidityPool.pool a))
        | None => Throw (TypeError "Cannot read properties of undefined (reading 'pool')")
        end
      else Return false) changes) in
  match found with
  | Some {| before := Some before; after := Some after |} =>
      let* effect := new {[
        "type" := effectType "liquidityPoolDeposited";
        "pool" := liquidityPoolId;
        "assets" := VArr (mapi (λ asset i, assetAmount asset (VStr (numberToString
            (numberSub (toNumber (LiquidityPool.amount after !! i))
                       (toNumber (LiquidityPool.amount before !! i)))))) 0%nat
            (LiquidityPool.asset after));
        "shares" := VStr (numberToString
            (numberSub (roundTiesToEven (LiquidityPool.shares after))
                       (roundTiesToEven (LiquidityPool.shares before)))) ]} in
      addEffect effect None
  | _ => throw (TypeError "Cannot destructure or read properties of undefined")
  end.

Definition liquidityPoolWithdraw : Js EffectsAnalyzer unit :=
  let* pool := gets (λ s, Operation.liquidityPoolId (operation s)) in
  let* changes := gets changes in
  let* found := lift (findLiquidityPoolChange (λ ch,
      if String.eqb (action ch) "updated" then
        match before ch with
        | Some b => Return (strictEqStr pool (LiquidityPool.pool b))
        | None => Throw (TypeError "Cannot read properties of undefined (reading 'pool')")
        end
      else Return false) changes) in
  match found with
  | Some {| before := Some before; after := Some after |} =>
      let* effect := new {[
        "type" := effectType "liquidityPoolWithdrew";
        "pool" := pool;
        "assets" := VArr (mapi (λ asset i, assetAmount asset (VStr (numberToString
            (numberSub (toNumber (LiquidityPool.amount before !! i))
                       (toNumber (LiquidityPool.amount after !! i)))))) 0%nat
            (LiquidityPool.asset before));
        "shares" := VStr (numberToString
            (numberSub (roundTiesToEven (LiquidityPool.shares before))
                       (roundTiesToEven (LiquidityPool.shares after)))) ]} in
      addEffect effect None
  | _ => throw (TypeError "Cannot destructure or read properties of undefined")
  end.

(** [bumpSequence]; the snapshots of account changes are plain objects. *)
Fixpoint findAccountChange (l : list LedgerChange) : option (Change Obj) :=
  match l with
  | [] => None
  | PlainChange account ch :: _ => Some ch
  | _ :: l' => findAccountChange l'
  end.

Definition bumpSequence : Js EffectsAnalyzer unit :=
  let* changes := gets changes in
  if (length changes =? 0)%nat then ret tt
  else
    match findAccountChange changes with
    | Some {| before := Some before; after := Some after |} =>
        if negb (strictEq (prop before "sequence") (prop after "sequence")) then
          let* effect := new {[ "type" := effectType "sequenceBumped";
                                "sequence" := prop after "sequence" ]} in
          addEffect effect None
        else ret tt
    | _ => throw (TypeError "Cannot destructure or read properties of undefined")
    end.

(** *** Entity change classifiers *)

Definition processBalanceChange (account asset : string) (beforeBalance afterBalance : Amount)
    : Js EffectsAnalyzer unit :=
  let balanceChange := afterBalance - beforeBalance in
  if balanceChange <? 0 then
    debit (VStr (decimal (- balanceChange))) (VStr asset) (VStr account) (VStr (decimal afterBalance))
  else
    credit (VStr (decimal balanceChange)) (VStr asset) (VStr account) (VStr (decimal afterBalance)).

(** [after || before] on snapshots *)
Definition snapshotOf {E} (ch : Change E) : option E :=
  match after ch with
  | Some a => Some a
  | None => before ch
  end.

Definition undefinedRead {S A} (property : string) : Js S A :=
  throw (TypeError ("Cannot read properties of undefined (reading '" +:+ property +:+ "')")).

Definition processTrustlineEffectsChanges (ch : Change Trustline.t) : Js EffectsAnalyzer unit :=
  match snapshotOf ch with
  | None => undefinedRead "account"
  | Some snapshot =>
      let* trustEffect := new {[
        "type" := VStr "";
        "source" := VStr (Trustline.account snapshot);
        "asset" := VStr (Trustline.asset snapshot);
        "kind" := VStr (if includes (Trustline.asset snapshot) "-" then "asset" else "poolShares");
        "flags" := Trustline.flags snapshot ]} in
      let trustEffect :=
        if truthy (Trustline.sponsor snapshot)
        then setProp "sponsor" (Trustline.sponsor snapshot) trustEffect
        else trustEffect in
      if String.eqb (action ch) "created" then
        addEffect (setProp "limit" (Trustline.limit snapshot)
                    (setProp "type" (effectType "trustlineCreated") trustEffect)) None
      else if String.eqb (action ch) "updated" then
        match before ch, after ch with
        | Some before, Some after =>
            (if negb (Trustline.balance before =? Trustline.balance after) then
               processBalanceChange (Trustline.account after) (Trustline.asset after)
                 (Trustline.balance before) (Trustline.balance after)
             else ret tt) >>
            if strictEq (Trustline.limit before) (Trustline.limit after)
               && strictEq (Trustline.flags before) (Trustline.flags after)
            then ret tt
            else
              addEffect (setProp "limit" (Trustline.limit snapshot)
                          (setProp "type" (effectType "trustlineUpdated") trustEffect)) None
        | _, _ => undefinedRead "balance"
        end
      else if String.eqb (action ch) "removed" then
        let trustEffect := setProp "type" (effectType "trustlineRemoved") trustEffect in
        match before ch with
        | Some before =>
            (if numberGt (roundTiesToEven (Trustline.balance before)) 0 then
               processBalanceChange (Trustline.account before) (Trustline.asset before)
                 (Trustline.balance before) 0
             else ret tt) >>
            addEffect trustEffect None
        | None => undefinedRead "balance"
        end
      else
        addEffect trustEffect None
  end.

Definition processLiquidityPoolChanges (ch : Change LiquidityPool.t) : Js EffectsAnalyzer unit :=
  match snapshotOf ch with
  | None => undefinedRead "pool"
  | Some snapshot =>
      let* effect := new {[
        "type" := effectType "liquidityPoolRemoved";
        "pool" := VStr (LiquidityPool.pool snapshot) ]} in
      let effect :=
        if truthy (LiquidityPool.sponsor snapshot)
        then setProp "sponsor" (LiquidityPool.sponsor snapshot) effect
        else effect in
      if String.eqb (action ch) "created" then
        match after ch with
        | Some after =>
            let effect :=
              setProp "accounts" (VNum 1)
                (setProp "shares" (VStr "0")
                  (setProp "reserves"
                     (VArr (map (λ asset, assetAmount asset (VStr "0")) (LiquidityPool.asset after)))
                     (setProp "type" (effectType "liquidityPoolCreated") effect))) in
            let* effects := gets effectList in
            let* position := lift (findIndex (λ e, Return
                (strictEq (prop e "pool") (prop effect.2 "pool")
                 || strictEq (prop e "asset") (prop effect.2 "pool"))) effects) in
            addEffect effect (Some position)
        | None => undefinedRead "asset"
        end
      else if String.eqb (action ch) "updated" then
        match after ch with
        | Some after =>
            let effect :=
              setProp "accounts" (LiquidityPool.accounts after)
                (setProp "shares" (VStr (decimal (LiquidityPool.shares after)))
                  (setProp "reserves"
                     (VArr (mapi (λ asset i, assetAmount asset
                              (match LiquidityPool.amount after !! i with
                               | Some a => VStr (decimal a)
                               | None => VUndef
                               end)) 0%nat (LiquidityPool.asset after)))
                     (setProp "type" (effectType "liquidityPoolUpdated") effect))) in
            addEffect effect None
        | None => undefinedRead "asset"
        end
      else
        addEffect effect None
  end.

(** The first entry of [storageAfter] with the given key, and the list
    without it ([splice(i, 1)]). *)
Fixpoint takeByKey (key : string) (storageAfter : list (string * string))
    : option string * list (string * string) :=
  match storageAfter with
  | [] => (None, [])
  | (k, v) :: rest =>
      if String.eqb k key then (Some v, rest)
      else let '(found, rest') := takeByKey key rest in (found, (k, v) :: rest')
  end.

(** [after.contract || before.contract] *)
Definition ownerOf (before after : Contract.t) : string :=
  if negb (String.eqb (Contract.contract after) "") then Contract.contract after
  else Contract.contract before.

Fixpoint instanceDataLoop (owner : string) (storageBefore storageAfter : list (string * string))
    : Js EffectsAnalyzer (list (string * string)) :=
  match storageBefore with
  | [] => ret storageAfter
  | (key, val) :: storageBefore' =>
      let '(newVal, storageAfter') := takeByKey key storageAfter in
      match newVal with
      | None =>
          let* effect := new {[
            "type" := effectType "contractDataRemoved";
            "owner" := VStr owner;
            "key" := VStr key;
            "prevValue" := VStr val;
            "durability" := VStr "instance" ]} in
          addEffect effect None >>
          instanceDataLoop owner storageBefore' storageAfter'
      | Some newVal =>
          if String.eqb val newVal then instanceDataLoop owner storageBefore' storageAfter'
          else
            let* effect := new {[
              "type" := effectType "contractDataUpdated";
              "owner" := VStr owner;
              "key" := VStr key;
              "value" := VStr newVal;
              "prevValue" := VStr val;
              "durability" := VStr "instance" ]} in
            addEffect effect None >>
            instanceDataLoop owner storageBefore' storageAfter'
      end
  end.

Definition processInstanceDataChanges (before after : Contract.t) : Js EffectsAnalyzer unit :=
  let storageBefore := default [] (Contract.storage before) in
  let storageAfter := default [] (Contract.storage after) in
  let owner := ownerOf before after in
  let* storageAfter := instanceDataLoop owner storageBefore storageAfter in
  forOf storageAfter (λ '(key, val),
    let* effect := new {[
      "type" := effectType "contractDataCreated";
      "owner" := VStr owner;
      "key" := VStr key;
      "value" := VStr val;
      "durability" := VStr "instance" ]} in
    addEffect effect None).

(** [storage?.length], as a condition *)
Definition hasEntries (storage : option (list (string * string))) : bool :=
  match storage with
  | Some (_ :: _) => true
  | _ => false
  end.

Definition processContractChanges (ch : Change Contract.t) : Js EffectsAnalyzer unit :=
  if negb (String.eqb (action ch) "created") && negb (String.eqb (action ch) "updated") then
    throw (UnexpectedTxMetaChangeError (VStr "contract") (VStr (action ch)))
  else
    match after ch with
    | None => undefinedRead "kind"
    | Some after =>
        let contract := Contract.contract after in
        let hash := Contract.hash after in
        let* effect := new {[
          "type" := effectType "contractCreated";
          "contract" := VStr contract;
          "kind" := Contract.kind after;
          "wasmHash" := hash ]} in
        if String.eqb (action ch) "created" then
          let* effects := gets effectList in
          if some (λ e, strictEqStr (prop e "contract") contract) effects then ret tt
          else addEffect effect None
        else
          match before ch with
          | None => undefinedRead "hash"
          | Some before =>
              let effect :=
                setProp "prevWasmHash" (Contract.hash before)
                  (setProp "type" (effectType "contractUpdated") effect) in
              (if hasEntries (Contract.storage before) || hasEntries (Contract.storage after)
               then processInstanceDataChanges before after
               else ret tt) >>
              if strictEq (Contract.hash before) hash then ret tt
              else addEffect effect None
          end
    end.

(** *** Sponsorship effects *)

Definition encodeSponsorshipEffectName (action type : string) : Completion val :=
  let? actionKey :=
    if String.eqb action "created" then Return "Created"
    else if String.eqb action "updated" then Return "Updated"
    else if String.eqb action "removed" then Return "Removed"
    else Throw (UnexpectedTxMetaChangeError (VStr type) (VStr action)) in
  Return (effectType (type +:+ "Sponsorship" +:+ actionKey)).

(** A snapshot as the sponsorship pass reads it: by property name. *)
Definition trustlineProp (t : Trustline.t) (k : string) : val :=
  if String.eqb k "account" then VStr (Trustline.account t)
  else if String.eqb k "asset" then VStr (Trustline.asset t)
  else if String.eqb k "sponsor" then Trustline.sponsor t
  else VUndef.

Definition liquidityPoolProp (p : LiquidityPool.t) (k : string) : val :=
  if String.eqb k "sponsor" then LiquidityPool.sponsor p else VUndef.

Definition readers (ch : LedgerChange) : Change (string → val) :=
  match ch with
  | TrustlineChange c =>
      {| action := action c; before := trustlineProp <$> before c; after := trustlineProp <$> after c |}
  | LiquidityPoolChange c =>
      {| action := action c; before := liquidityPoolProp <$> before c;
         after := liquidityPoolProp <$> after c |}
  | ContractChange c =>
      {| action := action c; before := (λ _ _, VUndef) <$> before c;
         after := (λ _ _, VUndef) <$> after c |}
  | PlainChange _ c =>
      {| action := action c; before := prop <$> before c; after := prop <$> after c |}
  end.

(** [snapshot?.k] *)
Definition optionalProp (snapshot : option (string → val)) (k : string) : val :=
  match snapshot with
  | Some read => read k
  | None => VUndef
  end.

(** [a || b] *)
Definition orElse (a b : val) : val := if truthy a then a else b.

(** One iteration of the loop of [processSponsorshipEffects]; [continue] is
    a normal completion. *)
Definition sponsorshipEffectOf (change : LedgerChange) : Js EffectsAnalyzer unit :=
  let type := changeType change in
  let '{| action := action; before := before; after := after |} := readers change in
  let* effect := new ∅ in
  (* the switch on the action: None stands for continue *)
  let* sponsored :=
    if String.eqb action "created" then
      match after with
      | None => undefinedRead "sponsor"
      | Some after =>
          if negb (truthy (after "sponsor")) then ret None
          else ret (Some (setProp "sponsor" (after "sponsor") effect))
      end
    else if String.eqb action "updated" then
      match before, after with
      | Some before, Some after =>
          if strictEq (before "sponsor") (after "sponsor") then ret None
          else ret (Some (setProp "prevSponsor" (before "sponsor")
                           (setProp "sponsor" (after "sponsor") effect)))
      | _, _ => undefinedRead "sponsor"
      end
    else if String.eqb action "removed" then
      match before with
      | None => undefinedRead "sponsor"
      | Some before =>
          if negb (truthy (before "sponsor")) then ret None
          else ret (Some (setProp "prevSponsor" (before "sponsor") effect))
      end
    else ret (Some effect) in
  match sponsored with
  | None => ret tt
  | Some effect =>
      let either k := orElse (optionalProp before k) (optionalProp after k) in
      (* the switch on the type *)
      let described :=
        if String.eqb type "account" then
          Some (setProp "account" (either "address") effect)
        else if String.eqb type "trustline" then
          Some (setProp "asset" (either "asset") (setProp "account" (either "account") effect))
        else if String.eqb type "offer" then
          Some (setProp "offer" (either "id") (setProp "account" (either "account") effect))
        else if String.eqb type "data" then
          Some (setProp "name" (either "name") (setProp "account" (either "account") effect))
        else if String.eqb type "claimableBalance" then
          Some (setProp "balance" (either "balanceId") effect)
        else if String.eqb type "liquidityPool" then None
        else Some effect in
      match described with
      | None => ret tt
      | Some effect =>
          let* name := lift (encodeSponsorshipEffectName action type) in
          addEffect (setProp "type" name effect) None
      end
  end.

Definition processSponsorshipEffects : Js EffectsAnalyzer unit :=
  let* changes := gets changes in
  forOf changes sponsorshipEffectOf.

End Analyzers.

(* ================================================================== *)
(** ** The events analyzer *)
(* ================================================================== *)

Definition EVENT_TYPES_SYSTEM : Z := 0.
Definition EVENT_TYPES_CONTRACT : Z := 1.
Definition EVENT_TYPES_DIAGNOSTIC : Z := 2.

(** The call stack holds the invocation effects themselves; here, their
    identities, the top of the stack first. *)
Record EventsAnalyzer : Type := {
  effectAnalyzer : EffectsAnalyzer;
  callStack : list ObjId
}.

(** A method of the effects analyzer called through [this.effectAnalyzer]. *)
Definition onEffectAnalyzer {A} (m : Js EffectsAnalyzer A) : Js EventsAnalyzer A :=
  λ s, let '(c, ea) := m (effectAnalyzer s) in
       (c, {| effectAnalyzer := ea; callStack := callStack s |}).

Definition setCallStack (stack : list ObjId) : Js EventsAnalyzer unit :=
  λ s, (Return tt, {| effectAnalyzer := effectAnalyzer s; callStack := stack |}).

(** [xdrParseScVal(value, treatBytesAsContractId)]; an absent topic is
    [undefined], whose arm cannot be read. *)
Definition xdrParseScVal (value : option ScVal) (treatBytesAsContractId : bool) : Completion val :=
  match value with
  | Some v => Return (if treatBytesAsContractId then nativeContractId v else native v)
  | None => Throw (TypeError "Cannot read properties of undefined (reading '_arm')")
  end.

Definition processEventBodyValue (value : ScVal) : Completion val :=
  if negb (truthy (innerValue value)) then Return VUndef
  else xdrParseScVal (Some value) false.

(** [address.length === 56 && address[0] === 'C'] *)
Definition isContractAddress (address : val) : Completion bool :=
  match address with
  | VUndef | VNull => Throw (TypeError "Cannot read properties of undefined (reading 'length')")
  | VStr s =>
      Return ((Z.of_nat (String.length s) =? 56)
              && match s with
                 | String c _ => Ascii.eqb c "C"
                 | EmptyString => false
                 end)
  | VArr items =>
      Return ((Z.of_nat (length items) =? 56)
              && match items with
                 | v :: _ => strictEqStr v "C"
                 | [] => false
                 end)
  | VObj ps => Return (strictEq (assoc "length" ps) (VNum 56) && strictEqStr (assoc "0" ps) "C")
  | VBool _ | VNum _ => Return false
  end.

(** [s.endsWith('?')] and [s.substring(0, s.length - 1)] *)
Fixpoint endsWithQuestionMark (s : string) : bool :=
  match s with
  | EmptyString => false
  | String c EmptyString => Ascii.eqb c "?"
  | String _ s' => endsWithQuestionMark s'
  end.

Fixpoint dropLast (s : string) : string :=
  match s with
  | EmptyString => EmptyString
  | String _ EmptyString => EmptyString
  | String c s' => String c (dropLast s')
  end.

(** The loop of [matchEventTopicsShape], from index [i]. *)
Fixpoint matchShapeFrom (topics : list ScVal) (i : nat) (shape : list string) : bool :=
  match shape with
  | [] => true
  | entry :: shape' =>
      let optional := endsWithQuestionMark entry in
      let match_ := if optional then dropLast entry else entry in
      match topics !! S i with
      | Some topic =>
          if negb (strictEqStr (_arm topic) match_) then false
          else matchShapeFrom topics (S i) shape'
      | None =>
          if negb optional then false
          else matchShapeFrom topics (S i) shape'
      end
  end.

Definition matchEventTopicsShape (topics : list ScVal) (shape : list string) : bool :=
  if (length shape + 1 <? length topics)%nat then false
  else matchShapeFrom topics 0 shape.

(** The methods of class [EventsAnalyzer]; its [debit] and [credit] are not
    those of the effects analyzer. *)
Module Events.
Section Analyzer.

Variable effectTypes : gmap string string.

Local Open Scope js_scope.

(** [EventsAnalyzer.debit(from, asset, amount)] *)
Definition debit (from asset amount : val) : Js EventsAnalyzer unit :=
  onEffectAnalyzer (
    let* effect := new {[ "type" := effectType effectTypes "accountDebited";
                          "source" := from;
                          "asset" := asset;
                          "amount" := amount ]} in
    addEffect effect None).

(** [EventsAnalyzer.credit(to, asset, amount)] *)
Definition credit (to asset amount : val) : Js EventsAnalyzer unit :=
  onEffectAnalyzer (
    let* effect := new {[ "type" := effectType effectTypes "accountCredited";
                          "source" := to;
                          "asset" := asset;
                          "amount" := amount ]} in
    addEffect effect None).

(** [funcCall.result = v] on the object with identity [funcCall], wherever
    the effect list holds it. *)
Definition patch (funcCall : ObjId) (k : string) (v : val) : Js EffectsAnalyzer unit :=
  modify (setEffects (map (λ e : ObjId * Obj,
    if Nat.eqb e.1 funcCall then setProp k v e else e))).

Definition nonStandardEvent {A} : Js EventsAnalyzer A :=
  throw (GenericError "Non-standard event").

Definition processDiagnosticEvent (body : ContractEventV0) (type : Z) (contractId : val)
    : Js EventsAnalyzer unit :=
  let topics := topics body in
  let* name := lift (xdrParseScVal (topics !! 0%nat) false) in
  if strictEqStr name "fn_call" then
    let* contract := lift (xdrParseScVal (topics !! 1%nat) true) in
    let* function := lift (xdrParseScVal (topics !! 2%nat) false) in
    let* args := lift (processEventBodyValue (eventData body)) in
    let* parsedEvent := onEffectAnalyzer (new {[
      "type" := effectType effectTypes "contractInvoked";
      "contract" := contract;
      "function" := function;
      "args" := args ]}) in
    let* stack := gets callStack in
    let parsedEvent :=
      if negb (length stack =? 0)%nat
      then setProp "depth" (VNum (Z.of_nat (length stack))) parsedEvent
      else parsedEvent in
    setCallStack (parsedEvent.1 :: stack) >>
    onEffectAnalyzer (addEffect parsedEvent None)
  else if strictEqStr name "fn_return" then
    if negb (type =? EVENT_TYPES_DIAGNOSTIC) then ret tt
    else
      let* stack := gets callStack in
      let funcCall := head stack in
      setCallStack (tail stack) >>
      let result := eventData body in
      if negb (String.eqb (switchName result) "scvVoid") then
        match funcCall with
        | Some funcCall => onEffectAnalyzer (patch funcCall "result" (VStr (toXDR result)))
        | None => throw (TypeError "Cannot set properties of undefined (setting 'result')")
        end
      else ret tt
  else if strictEqStr name "transfer" then
    let* from := lift (xdrParseScVal (topics !! 1%nat) false) in
    let* to := lift (xdrParseScVal (topics !! 2%nat) false) in
    let asset := contractId in
    let* amount := lift (processEventBodyValue (eventData body)) in
    let* isClassicAsset := lift (isContractAddress asset) in
    let* debited :=
      if negb isClassicAsset then ret true else lift (isContractAddress from) in
    (if debited then debit from asset amount else ret tt) >>
    let* credited :=
      if negb isClassicAsset then ret true else lift (isContractAddress to) in
    (if credited then credit to asset amount else ret tt)
  else if strictEqStr name "mint" then
    if negb (matchEventTopicsShape topics ["address"; "address"; "str?"]) then nonStandardEvent
    else
      let* to := lift (xdrParseScVal (topics !! 1%nat) false) in
      let* amount := lift (processEventBodyValue (eventData body)) in
      onEffectAnalyzer (
        let* effect := new {[ "type" := effectType effectTypes "assetMinted";
                              "asset" := contractId;
                              "amount" := amount ]} in
        addEffect effect None) >>
      credit to contractId amount
  else if strictEqStr name "burn" then
    if negb (matchEventTopicsShape topics ["address"; "str?"]) then nonStandardEvent
    else
      let* from := lift (xdrParseScVal (topics !! 1%nat) false) in
      let* amount := lift (processEventBodyValue (eventData body)) in
      debit from contractId amount >>
      onEffectAnalyzer (
        let* effect := new {[ "type" := effectType effectTypes "assetBurned";
                              "asset" := contractId;
                              "amount" := amount ]} in
        addEffect effect None)
  else if strictEqStr name "clawback" then
    if negb (matchEventTopicsShape topics ["address"; "address"; "str?"]) then nonStandardEvent
    else throw (GenericError "Check state modifications to confirm the clawback destination")
  else
    (* console.log of the event name *)
    ret tt.

(** The body of the loop of [analyzeDiagnosticEvents]. *)
Definition analyzeDiagnosticEvent (evt : DiagnosticEvent) : Js EventsAnalyzer unit :=
  if negb (inSuccessfulContractCall evt) then
    throw (UnexpectedTxMetaChangeError (VStr "diagnostic_event") (VStr "failed"))
  else
    let event := event evt in
    processDiagnosticEvent (body event) (eventType event)
      (match contractId event with
       | Some encoded => VStr encoded
       | None => VNull
       end).

Definition analyzeDiagnosticEvents : Js EventsAnalyzer unit :=
  let* diagnosticEvents := gets (λ s, diagnosticEvents (effectAnalyzer s)) in
  match diagnosticEvents with
  | None => ret tt
  | Some diagnosticEvents => forOf diagnosticEvents analyzeDiagnosticEvent
  end.

End Analyzer.
End Events.



Section ContractEvents.

Variable effectTypes : gmap string string.

Local Open Scope js_scope.



End ContractEvents.

(* ================================================================== *)
(** ** Address normalization *)
(* ================================================================== *)

(** StrKey belongs to the Stellar SDK, an external library.  The encoder is
    written out after the StrKey format: base32 (RFC 4648 alphabet, no
    padding) of the version byte, the payload and the CRC16-XModem checksum
    of both, low byte first.  Bytes are integers, read modulo 256. *)
Module StrKey.

Definition alphabet : string := "ABCDEFGHIJKLMNOPQRSTUVWXYZ234567".

Definition base32Char (i : Z) : ascii :=
  default "="%char (String.get (Z.to_nat i) alphabet).

(** [count] bits of [buffer] are waiting to be written, [count < 5]. *)
Fixpoint base32From (buffer count : Z) (bytes : list Z) : string :=
  match bytes with
  | [] =>
      if 0 <? count
      then String (base32Char (Z.land (Z.shiftl buffer (5 - count)) 31)) EmptyString
      else EmptyString
  | b :: bytes' =>
      let buffer := Z.lor (Z.shiftl buffer 8) (Z.land b 255) in
      let count := count + 8 in
      if 10 <=? count then
        String (base32Char (Z.land (Z.shiftr buffer (count - 5)) 31))
          (String (base32Char (Z.land (Z.shiftr buffer (count - 10)) 31))
             (base32From (Z.land buffer (Z.ones (count - 10))) (count - 10) bytes'))
      else
        String (base32Char (Z.land (Z.shiftr buffer (count - 5)) 31))
          (base32From (Z.land buffer (Z.ones (count - 5))) (count - 5) bytes')
  end.

Definition base32Encode (bytes : list Z) : string := base32From 0 0 bytes.

Fixpoint crcShift (n : nat) (crc : Z) : Z :=
  match n with
  | O => crc
  | S n' =>
      crcShift n' (Z.land (if Z.testbit crc 15
                           then Z.lxor (Z.shiftl crc 1) 0x1021
                           else Z.shiftl crc 1) 0xffff)
  end.

Definition crc16xmodem (bytes : list Z) : Z :=
  fold_left (λ crc b, crcShift 8 (Z.lxor crc (Z.shiftl (Z.land b 255) 8))) bytes 0.

Definition encodeCheck (versionByte : Z) (data : list Z) : string :=
  let payload := versionByte :: data in
  let checksum := crc16xmodem payload in
  base32Encode (payload ++ [Z.land checksum 255; Z.shiftr checksum 8]).

Definition encodeEd25519PublicKey (data : list Z) : string :=
  encodeCheck (Z.shiftl 6 3) data.

End StrKey.

Section NormalizeAddress.

(** [StrKey.decodeMed25519PublicKey]: the raw bytes of a multiplexed
    address, or the error the library throws.  The decoder is a parameter:
    nothing below depends on what it accepts. *)
Variable decodeMed25519PublicKey : string → Completion (list Z).

(** [address[0]] *)
Definition firstChar (address : string) : option ascii :=
  match address with
  | String c _ => Some c
  | EmptyString => None
  end.

Definition normalizeAddress (address : string) : Completion string :=
  let prefix := firstChar address in
  if bool_decide (prefix = Some "G"%char) then Return address
  else if negb (bool_decide (prefix = Some "M"%char)) then
    Throw (TypeError "Expected ED25519 or Muxed address")
  else
    let? rawBytes := decodeMed25519PublicKey address in
    Return (StrKey.encodeEd25519PublicKey (take 32 rawBytes)).

End NormalizeAddress.

(* ================================================================== *)
(** ** Amount and asset primitives *)
(* ================================================================== *)

(** [s.substring(0, n)] and [s.substring(n)] for [0 <= n]; a start that the
    caller computes below zero is clamped to 0, as truncated subtraction
    does. *)
Fixpoint stringTake (n : nat) (s : string) : string :=
  match n, s with
  | S n', String c s' => String c (stringTake n' s')
  | _, _ => EmptyString
  end.

Fixpoint stringDrop (n : nat) (s : string) : string :=
  match n, s with
  | S n', String _ s' => stringDrop n' s'
  | _, _ => s
  end.

(** [c.repeat(n)] *)
Fixpoint repeatChar (n : nat) (c : ascii) : string :=
  match n with
  | O => EmptyString
  | S n' => String c (repeatChar n' c)
  end.

(** [s.padStart(n, c)] *)
Definition padStart (n : nat) (c : ascii) (s : string) : string :=
  repeatChar (n - String.length s) c +:+ s.

(** [s.replace(/0+$/, '')] *)
Fixpoint stripZeros (s : string) : string :=
  match s with
  | EmptyString => EmptyString
  | String c s' =>
      match stripZeros s' with
      | EmptyString => if Ascii.eqb c "0" then EmptyString else String c EmptyString
      | t => String c t
      end
  end.

(** The first element of [s.split('.')], and what follows the first dot
    when there is one. *)
Fixpoint splitDot (s : string) : string * option string :=
  match s with
  | EmptyString => (EmptyString, None)
  | String c s' =>
      if Ascii.eqb c "." then (EmptyString, Some s')
      else let '(first, rest) := splitDot s' in (String c first, rest)
  end.

Definition isAsset (asset : string) : bool := includes asset "-".

Definition isIssuer (account asset : string) : bool := includes asset account.

Definition adjustPrecision (value : string) : string :=
  if String.eqb value "0" then value
  else
    let negative :=
      match value with
      | String c _ => Ascii.eqb c "-"
      | EmptyString => false
      end in
    let value := if negative then stringDrop 1 value else value in
    let integer :=
      if (String.length value <=? 7)%nat then "0"
      else stringTake (String.length value - 7) value in
    let fractional :=
      stripZeros (padStart 7 "0" (stringDrop (String.length value - 7) value)) in
    if (String.length fractional =? 0)%nat then
      if negative then "-" +:+ integer else integer
    else
      (if negative then "-" +:+ integer else integer) +:+ "." +:+ fractional.

Definition trimZeros (value : string) : string :=
  let '(integer, rest) := splitDot value in
  match rest with
  | None => integer
  | Some rest =>
      let fractional := (splitDot rest).1 in
      if String.eqb fractional "" then integer
      else
        let trimmed := stripZeros fractional in
        if (String.length trimmed =? 0)%nat then integer
        else integer +:+ "." +:+ trimmed
  end.

(* ================================================================== *)
(** ** Sample data *)
(* ================================================================== *)

(** Modelled from the spec: the table of effect kinds (./effect-types is
    not under src/).  Every kind the analyzers name is keyed by its own
    name; the sponsorship kinds are those of the five entity kinds the
    spec lists for the sponsorship namer, and of signers. *)
Definition effectKinds : list string := [
  "accountCreated"; "accountRemoved"; "accountDebited"; "accountCredited";
  "accountHomeDomainUpdated"; "accountThresholdsUpdated"; "accountFlagsUpdated";
  "accountInflationDestinationUpdated"; "sequenceBumped"; "inflation"; "feeCharged";
  "trustlineCreated"; "trustlineUpdated"; "trustlineRemoved"; "trustlineAuthorizationUpdated";
  "assetMinted"; "assetBurned"; "trade";
  "offerCreated"; "offerUpdated"; "offerRemoved";
  "liquidityPoolCreated"; "liquidityPoolUpdated"; "liquidityPoolRemoved";
  "liquidityPoolDeposited"; "liquidityPoolWithdrew";
  "claimableBalanceCreated"; "claimableBalanceRemoved";
  "dataEntryCreated"; "dataEntryUpdated"; "dataEntryRemoved";
  "contractCodeUploaded"; "contractCreated"; "contractUpdated"; "contractInvoked";
  "contractMetrics"; "contractEvent";
  "contractDataCreated"; "contractDataUpdated"; "contractDataRemoved";
  "accountSponsorshipCreated"; "accountSponsorshipUpdated"; "accountSponsorshipRemoved";
  "trustlineSponsorshipCreated"; "trustlineSponsorshipUpdated"; "trustlineSponsorshipRemoved";
  "offerSponsorshipCreated"; "offerSponsorshipUpdated"; "offerSponsorshipRemoved";
  "dataSponsorshipCreated"; "dataSponsorshipUpdated"; "dataSponsorshipRemoved";
  "claimableBalanceSponsorshipCreated"; "claimableBalanceSponsorshipUpdated";
  "claimableBalanceSponsorshipRemoved";
  "signerSponsorshipCreated"; "signerSponsorshipUpdated"; "signerSponsorshipRemoved"
].

Definition effectKindsTable : gmap string string :=
  list_to_map ((λ kind, (kind, kind)) <$> effectKinds).

Definition sampleAccount : string :=
  "GAAAAAAAAAAAAAAAAAAAAAAAAAAAAAAAAAAAAAAAAAAAAAAAAAAAAWHF".

Definition sampleOperation : Operation.t :=
  {| Operation.type := "payment";
     Operation.source := sampleAccount;
     Operation.liquidityPoolId := VUndef |}.

(** An analyzer right after construction. *)
Definition freshAnalyzer (operation : Operation.t) (changes : list LedgerChange)
    (diagnosticEvents : option (list DiagnosticEvent)) : EffectsAnalyzer :=
  {| operation := operation;
     changes := changes;
     source := Operation.source operation;
     diagnosticEvents := diagnosticEvents;
     effects := [];
     allocated := 0 |}.

Definition otherAccount : string :=
  "GAAQCAIBAEAQCAIBAEAQCAIBAEAQCAIBAEAQCAIBAEAQCAIBAEAQDZ7H".
Definition sampleContract : string :=
  "CAAAAAAAAAAAAAAAAAAAAAAAAAAAAAAAAAAAAAAAAAAAAAAAAAAABSC4".
Definition otherContract : string :=
  "CAAQCAIBAEAQCAIBAEAQCAIBAEAQCAIBAEAQCAIBAEAQCAIBAEAQC526".

(** Decoded views of a few ScVals, with their XDR. *)
Definition scvSymbol (name xdr : string) : ScVal :=
  {| _arm := VStr "sym"; switchName := "scvSymbol"; innerValue := VStr name;
     native := VStr name; nativeContractId := VStr name; toXDR := xdr |}.

Definition scvAddress (address xdr : string) : ScVal :=
  {| _arm := VStr "address"; switchName := "scvAddress"; innerValue := VObj [];
     native := VStr address; nativeContractId := VStr address; toXDR := xdr |}.

Definition scvI128 (n : Z) (xdr : string) : ScVal :=
  {| _arm := VStr "i128"; switchName := "scvI128"; innerValue := VObj [];
     native := VStr (decimal n); nativeContractId := VStr (decimal n); toXDR := xdr |}.

Definition scvVoid : ScVal :=
  {| _arm := VUndef; switchName := "scvVoid"; innerValue := VUndef;
     native := VUndef; nativeContractId := VUndef; toXDR := "AAAAAQ==" |}.

Definition topicTransfer : ScVal := scvSymbol "transfer" "AAAADwAAAAh0cmFuc2Zlcg==".
Definition topicFnCall : ScVal := scvSymbol "fn_call" "AAAADwAAAAdmbl9jYWxsAA==".
Definition topicFnReturn : ScVal := scvSymbol "fn_return" "AAAADwAAAAlmbl9yZXR1cm4AAAA=".
Definition topicClawback : ScVal := scvSymbol "clawback" "AAAADwAAAAhjbGF3YmFjaw==".
Definition topicSwap : ScVal := scvSymbol "swap" "AAAADwAAAARzd2Fw".

Definition addressSampleAccount : ScVal :=
  scvAddress sampleAccount "AAAAEgAAAAAAAAAAAAAAAAAAAAAAAAAAAAAAAAAAAAAAAAAAAAAAAAAAAAA=".
Definition addressOtherAccount : ScVal :=
  scvAddress otherAccount "AAAAEgAAAAAAAAAAAQEBAQEBAQEBAQEBAQEBAQEBAQEBAQEBAQEBAQEBAQE=".
Definition addressSampleContract : ScVal :=
  scvAddress sampleContract "AAAAEgAAAAEAAAAAAAAAAAAAAAAAAAAAAAAAAAAAAAAAAAAAAAAAAA==".
Definition addressOtherContract : ScVal :=
  scvAddress otherContract "AAAAEgAAAAEBAQEBAQEBAQEBAQEBAQEBAQEBAQEBAQEBAQEBAQEBAQ==".

Definition freshEvents (diagnosticEvents : option (list DiagnosticEvent)) : EventsAnalyzer :=
  {| effectAnalyzer := freshAnalyzer sampleOperation [] diagnosticEvents; callStack := [] |}.

(** A transfer of amount 0 between two contracts. *)
Definition zeroTransfer : ContractEventV0 :=
  {| topics := [topicTransfer; addressSampleContract; addressOtherContract];
     eventData := scvI128 0 "AAAACgAAAAAAAAAAAAAAAAAAAAA=" |}.

(** *** Effects named in the properties *)

(** The effect object built by the engine's [debit] and [credit]. *)
Definition balanceEffect (effectTypes : gmap string string) (kind : string) (amount asset source balance : val) : Obj :=
  let effect : Obj := {[ "type" := effectType effectTypes kind;
                         "source" := source;
                         "asset" := asset;
                         "amount" := amount ]} in
  if isUndefined balance then effect else <["balance" := balance]> effect.

(** The effect of a liquidity pool 'created' change. *)
Definition liquidityPoolCreatedEffect (effectTypes : gmap string string)
    (snapshot : LiquidityPool.t) : Obj :=
  let effect : Obj := {[ "type" := effectType effectTypes "liquidityPoolRemoved";
                         "pool" := VStr (LiquidityPool.pool snapshot) ]} in
  let effect :=
    if truthy (LiquidityPool.sponsor snapshot)
    then <["sponsor" := LiquidityPool.sponsor snapshot]> effect
    else effect in
  <["accounts" := VNum 1]>
    (<["shares" := VStr "0"]>
      (<["reserves" := VArr (map (λ asset, assetAmount asset (VStr "0"))
                               (LiquidityPool.asset snapshot))]>
        (<["type" := effectType effectTypes "liquidityPoolCreated"]> effect))).

(** The effect of [mint]. *)
Definition assetMintedEffect (effectTypes : gmap string string) (asset : string) (amount : val) : Obj :=
  {[ "type" := effectType effectTypes "assetMinted";
     "asset" := VStr asset;
     "amount" := amount ]}.

(** No effect of the list refers to the pool: neither its [pool] nor its
    [asset] property is the pool id. *)
Definition refersToPool (pool : string) (e : Obj) : bool :=
  strictEq (prop e "pool") (VStr pool) || strictEq (prop e "asset") (VStr pool).

(** The callback of the position lookup of [mint]. *)
Definition matchesAsset (asset : string) (e : Obj) : Completion bool :=
  if strictEqStr (prop e "asset") asset then Return true else assetsFind e asset.

(** Sample inputs: a pool created after an effect that does not mention it,
    and a mint of an asset no effect mentions. *)
Definition samplePool : string :=
  "0000000000000000000000000000000000000000000000000000000000000001".

Definition samplePoolSnapshot : LiquidityPool.t :=
  {| LiquidityPool.pool := samplePool;
     LiquidityPool.asset := ["XLM"; "USD-" +:+ otherAccount +:+ "-1"];
     LiquidityPool.amount := [0; 0];
     LiquidityPool.shares := 0;
     LiquidityPool.accounts := VNum 1;
     LiquidityPool.sponsor := VUndef |}.

Definition analyzerWithOneEffect : EffectsAnalyzer :=
  {| operation := sampleOperation;
     changes := [];
     source := sampleAccount;
     diagnosticEvents := None;
     effects := [(0%nat, {[ "type" := VStr "accountCredited"; "source" := VStr otherAccount;
                            "asset" := VStr "XLM"; "amount" := VStr "50" ]})];
     allocated := 1 |}.

Definition samplePoolCreated : Change LiquidityPool.t :=
  {| action := "created"; before := None; after := Some samplePoolSnapshot |}.

(** The effect of a trustline change, before its [type] and [limit] are
    filled in, and the effect of a 'removed' change. *)
Definition trustlineEffect (snapshot : Trustline.t) : Obj :=
  let trustEffect : Obj := {[
    "type" := VStr "";
    "source" := VStr (Trustline.account snapshot);
    "asset" := VStr (Trustline.asset snapshot);
    "kind" := VStr (if includes (Trustline.asset snapshot) "-" then "asset" else "poolShares");
    "flags" := Trustline.flags snapshot ]} in
  if truthy (Trustline.sponsor snapshot)
  then <["sponsor" := Trustline.sponsor snapshot]> trustEffect
  else trustEffect.

Definition trustlineRemovedEffect (effectTypes : gmap string string)
    (snapshot : Trustline.t) : Obj :=
  <["type" := effectType effectTypes "trustlineRemoved"]> (trustlineEffect snapshot).

(** Sample trustlines: one removed with a balance of 40, one with none. *)
Definition sampleAsset : string := "USD-" +:+ otherAccount +:+ "-1".

Definition sampleTrustline (balance : Amount) : Trustline.t :=
  {| Trustline.account := otherAccount;
     Trustline.asset := sampleAsset;
     Trustline.balance := balance;
     Trustline.limit := VStr "1000";
     Trustline.flags := VNum 1;
     Trustline.sponsor := VUndef |}.

Definition trustlineRemoved (balance : Amount) : Change Trustline.t :=
  {| action := "removed"; before := Some (sampleTrustline balance); after := None |}.


(** Sample input: the invocation effect [invokeHostFunction] pushes for a
    call of [sampleContract] when no diagnostic events are available, then a
    'created' change for the same contract id. *)
Definition analyzerAfterInvocation : EffectsAnalyzer :=
  {| operation := {| Operation.type := "invokeHostFunction";
                     Operation.source := sampleAccount;
                     Operation.liquidityPoolId := VUndef |};
     changes := [];
     source := sampleAccount;
     diagnosticEvents := None;
     effects := [(0%nat, {[ "type" := VStr "contractInvoked";
                            "source" := VStr sampleAccount;
                            "contract" := VStr sampleContract;
                            "function" := VStr "swap";
                            "args" := VArr [];
                            "rawArgs" := VStr "AAAAEAAAAAEAAAAA" ]})];
     allocated := 1 |}.

Definition sampleContractSnapshot (contract : string) : Contract.t :=
  {| Contract.contract := contract;
     Contract.kind := VStr "wasm";
     Contract.hash := VStr "a1b2c3d4e5f60718293a4b5c6d7e8f90a1b2c3d4e5f60718293a4b5c6d7e8f90";
     Contract.storage := None |}.


(** Sample deposits into [samplePool].  The first is the scenario of the
    spec; the second has a first reserve just above 2^53 stroops. *)
Definition depositOperation : Operation.t :=
  {| Operation.type := "liquidityPoolDeposit";
     Operation.source := sampleAccount;
     Operation.liquidityPoolId := VStr samplePool |}.

Definition poolSnapshot (amountA amountB shares : Amount) : LiquidityPool.t :=
  {| LiquidityPool.pool := samplePool;
     LiquidityPool.asset := ["A"; "B"];
     LiquidityPool.amount := [amountA; amountB];
     LiquidityPool.shares := shares;
     LiquidityPool.accounts := VNum 2;
     LiquidityPool.sponsor := VUndef |}.

Definition poolUpdated (before after : LiquidityPool.t) : LedgerChange :=
  LiquidityPoolChange {| action := "updated"; before := Some before; after := Some after |}.

Definition scenarioDeposit : EffectsAnalyzer :=
  freshAnalyzer depositOperation
    [poolUpdated (poolSnapshot 100 200 1000) (poolSnapshot 150 260 1100)] None.

Definition largeDeposit : EffectsAnalyzer :=
  freshAnalyzer depositOperation
    [poolUpdated (poolSnapshot 9007199254740992 200 1000)
                 (poolSnapshot 9007199254740993 260 1100)] None.

Definition largeWithdraw : EffectsAnalyzer :=
  freshAnalyzer depositOperation
    [poolUpdated (poolSnapshot 9007199254740993 260 1100)
                 (poolSnapshot 9007199254740992 200 1000)] None.

(** An amount every Number represents exactly. *)
Definition safeAmount (n : Amount) : Prop := 0 <= n < 2 ^ 53.

(** The selectors of [liquidityPoolDeposit] and [liquidityPoolWithdraw]:
    an 'updated' change whose snapshot after (resp. before) is the pool. *)
Definition updatedPoolAfter (liquidityPoolId : val) (ch : Change LiquidityPool.t)
    : Completion bool :=
  if String.eqb (action ch) "updated" then
    match after ch with
    | Some a => Return (strictEqStr liquidityPoolId (LiquidityPool.pool a))
    | None => Throw (TypeError "Cannot read properties of undefined (reading 'pool')")
    end
  else Return false.

(** The reserve deltas of the spec, in exact integer arithmetic: [from] is
    subtracted from [to], per asset index and for the shares. *)
Definition exactDeltas (assets : list string) (from to : LiquidityPool.t) : val :=
  VArr (mapi (λ asset i,
          assetAmount asset (VStr (decimal (default 0 (LiquidityPool.amount to !! i)
                                            - default 0 (LiquidityPool.amount from !! i)))))
        0%nat assets).

Definition exactDepositEffect (effectTypes : gmap string string) (liquidityPoolId : val)
    (before after : LiquidityPool.t) : Obj :=
  {[ "type" := effectType effectTypes "liquidityPoolDeposited";
     "pool" := liquidityPoolId;
     "assets" := exactDeltas (LiquidityPool.asset after) before after;
     "shares" := VStr (decimal (LiquidityPool.shares after - LiquidityPool.shares before)) ]}.

(** A pool snapshot with one amount per asset, every amount safe. *)
Definition safePool (p : LiquidityPool.t) : Prop :=
  length (LiquidityPool.amount p) = length (LiquidityPool.asset p)
  ∧ Forall safeAmount (LiquidityPool.amount p)
  ∧ safeAmount (LiquidityPool.shares p).

(** A multiplexed address of the all-zero key (sub-identifier 1), and a
    decoder that knows it: its raw bytes are the key followed by the
    eight bytes of the sub-identifier. *)
Definition sampleMuxedAccount : string :=
  "MAAAAAAAAAAAAAAAAAAAAAAAAAAAAAAAAAAAAAAAAAAAAAAAAAAAAAAAAAAAAAAAAFNZG".

Definition sampleDecoder (address : string) : Completion (list Z) :=
  if String.eqb address sampleMuxedAccount
  then Return (replicate 32 0 ++ [0; 0; 0; 0; 0; 0; 0; 1])
  else Throw (GenericError "invalid encoded string").

(** *** Events named in the properties *)

(** [isContractAddress] on a string. *)
Definition contractAddressed (address : string) : bool :=
  (Z.of_nat (String.length address) =? 56)
  && match address with
     | String c _ => Ascii.eqb c "C"
     | EmptyString => false
     end.

(** The effect built by the events analyzer's [debit] and [credit]. *)
Definition transferEffect (effectTypes : gmap string string) (kind : string)
    (party asset amount : val) : Obj :=
  {[ "type" := effectType effectTypes kind;
     "source" := party;
     "asset" := asset;
     "amount" := amount ]}.

(** The decoded payload of an event. *)
Definition payloadOf (body : ContractEventV0) : val :=
  if negb (truthy (innerValue (eventData body))) then VUndef else native (eventData body).

(** A clawback event with the standard topics. *)
Definition sampleClawback : ContractEventV0 :=
  {| topics := [topicClawback; addressSampleAccount; addressOtherAccount];
     eventData := scvI128 5 "AAAACgAAAAAAAAAAAAAAAAAAAAU=" |}.

(** A clawback event without topics after its name. *)
Definition bareClawback : ContractEventV0 :=
  {| topics := [topicClawback];
     eventData := scvI128 5 "AAAACgAAAAAAAAAAAAAAAAAAAAU=" |}.

(** A transfer of 5 between two accounts, and one from an account to a
    contract. *)
Definition accountTransfer : ContractEventV0 :=
  {| topics := [topicTransfer; addressSampleAccount; addressOtherAccount];
     eventData := scvI128 5 "AAAACgAAAAAAAAAAAAAAAAAAAAU=" |}.

Definition transferToContract : ContractEventV0 :=
  {| topics := [topicTransfer; addressSampleAccount; addressOtherContract];
     eventData := scvI128 5 "AAAACgAAAAAAAAAAAAAAAAAAAAU=" |}.

(** The invocation effect of a 'fn_call' event met at call depth [depth]. *)
Definition invocationEffect (effectTypes : gmap string string)
    (contractTopic functionTopic : ScVal) (body : ContractEventV0) (depth : nat) : Obj :=
  let parsedEvent : Obj := {[
    "type" := effectType effectTypes "contractInvoked";
    "contract" := nativeContractId contractTopic;
    "function" := native functionTopic;
    "args" := payloadOf body ]} in
  if negb (depth =? 0)%nat
  then <["depth" := VNum (Z.of_nat depth)]> parsedEvent
  else parsedEvent.

(** What a diagnostic event does to the call stack, for the events this
    development follows through the loop: calls with their contract and
    function topics, returns, transfers between addresses that decode to
    strings, mints and burns of the standard shape, and events the
    interpreter only logs.  [None]: the event is not one of these. *)
Inductive StackAction : Type := Push | Pop | Keep.

Definition decodesToString (topic : option ScVal) : bool :=
  match topic with
  | Some t => match native t with VStr _ => true | _ => false end
  | None => false
  end.

Definition stackAction (evt : DiagnosticEvent) : option StackAction :=
  let topics := topics (body (event evt)) in
  if negb (inSuccessfulContractCall evt) then None
  else
    match topics !! 0%nat with
    | None => None
    | Some name =>
        if strictEqStr (native name) "fn_call" then
          match topics !! 1%nat, topics !! 2%nat with
          | Some _, Some _ => Some Push
          | _, _ => None
          end
        else if strictEqStr (native name) "fn_return" then
          if eventType (event evt) =? EVENT_TYPES_DIAGNOSTIC then Some Pop else Some Keep
        else if strictEqStr (native name) "transfer" then
          match contractId (event evt) with
          | Some _ =>
              if decodesToString (topics !! 1%nat) && decodesToString (topics !! 2%nat)
              then Some Keep else None
          | None => None
          end
        else if strictEqStr (native name) "mint" then
          if matchEventTopicsShape topics ["address"; "address"; "str?"]
          then Some Keep else None
        else if strictEqStr (native name) "burn" then
          if matchEventTopicsShape topics ["address"; "str?"]
          then Some Keep else None
        else if strictEqStr (native name) "clawback" then None
        else Some Keep
    end.

(** The call depth after a list of events met at depth [depth]; [None] when
    a return has no call to match or an event is not followed. *)
Fixpoint nesting (evs : list DiagnosticEvent) (depth : nat) : option nat :=
  match evs with
  | [] => Some depth
  | evt :: evs' =>
      match stackAction evt, depth with
      | Some Push, _ => nesting evs' (S depth)
      | Some Pop, S depth' => nesting evs' depth'
      | Some Pop, O => None
      | Some Keep, _ => nesting evs' depth
      | None, _ => None
      end
  end.

(** A well-formed diagnostic event list: every call is matched by a later
    return, and every return by an earlier call. *)
Definition wellFormed (evs : list DiagnosticEvent) : Prop := nesting evs 0 = Some 0%nat.

(** A sample list: a call of [swap] on [sampleContract], inside it a call of
    [transfer] on [otherContract] that emits a transfer event and returns
    nothing, then the return of the outer call with the value 7. *)
Definition diagnostic (contract : option string) (type : Z) (body : ContractEventV0)
    : DiagnosticEvent :=
  {| inSuccessfulContractCall := true;
     event := {| contractId := contract; eventType := type; body := body |} |}.

Definition callOf (contract : ScVal) (function : ScVal) : ContractEventV0 :=
  {| topics := [topicFnCall; contract; function]; eventData := scvVoid |}.

Definition returnOf (function : ScVal) (result : ScVal) : ContractEventV0 :=
  {| topics := [topicFnReturn; function]; eventData := result |}.

Definition scvU32 (n : Z) (xdr : string) : ScVal :=
  {| _arm := VStr "u32"; switchName := "scvU32"; innerValue := VNum n;
     native := VNum n; nativeContractId := VNum n; toXDR := xdr |}.

Definition nestedCalls : list DiagnosticEvent := [
  diagnostic None EVENT_TYPES_DIAGNOSTIC (callOf addressSampleContract topicSwap);
  diagnostic (Some sampleContract) EVENT_TYPES_DIAGNOSTIC
    (callOf addressOtherContract topicTransfer);
  diagnostic (Some otherContract) EVENT_TYPES_CONTRACT transferToContract;
  diagnostic (Some otherContract) EVENT_TYPES_DIAGNOSTIC (returnOf topicTransfer scvVoid);
  diagnostic (Some sampleContract) EVENT_TYPES_DIAGNOSTIC
    (returnOf topicSwap (scvU32 7 "AAAAAwAAAAc="))
].

(** *** Reading amounts back *)

(** The number a string of decimal digits denotes. *)
Definition digitOf (c : ascii) : Z := Z.of_nat (nat_of_ascii c) - 48.

Fixpoint digitsValueFrom (acc : Z) (s : string) : Z :=
  match s with
  | EmptyString => acc
  | String c s' => digitsValueFrom (10 * acc + digitOf c) s'
  end.

Definition digitsValue (s : string) : Z := digitsValueFrom 0 s.

Definition isDigit (c : ascii) : bool :=
  (48 <=? nat_of_ascii c)%nat && (nat_of_ascii c <=? 57)%nat.

Fixpoint allDigits (s : string) : bool :=
  match s with
  | EmptyString => true
  | String c s' => isDigit c && allDigits s'
  end.

(** The stroops a human-decimal amount stands for: its integer part times
    10^7 plus its fraction read on seven digits, with its sign. *)
Definition stroopsOf (units : string) : Z :=
  let negative :=
    match units with
    | String c _ => Ascii.eqb c "-"
    | EmptyString => false
    end in
  let magnitude := if negative then stringDrop 1 units else units in
  let '(integer, rest) := splitDot magnitude in
  let fraction := default "" rest in
  let n := digitsValue integer * 10 ^ 7
           + digitsValue (fraction +:+ repeatChar (7 - String.length fraction) "0") in
  if negative then - n else n.

(** [s'] holds every effect of [s], in the same order, and the same
    execution context. *)
Definition extends (s s' : EffectsAnalyzer) : Prop :=
  sublist (effectList s) (effectList s')
  ∧ source s' = source s
  ∧ operation s' = operation s
  ∧ changes s' = changes s
  ∧ diagnosticEvents s' = diagnosticEvents s.

(** A method that keeps the relation [R] between the analyzer before it and
    the analyzer after it, whether it returns or throws. *)
Definition stepwise (R : EffectsAnalyzer → EffectsAnalyzer → Prop) {A}
    (m : Js EffectsAnalyzer A) : Prop :=
  ∀ s, R s (m s).2.

(** An effect that says whose it is. *)
Definition hasSource (e : Obj) : Prop := truthy (prop e "source") = true.

(** Once the analyzer has a source, attributed effects stay attributed. *)
Definition keepsSources (s s' : EffectsAnalyzer) : Prop :=
  source s' = source s
  ∧ (source s ≠ "" → Forall hasSource (effectList s) → Forall hasSource (effectList s')).

(** The effects of trustline and liquidity pool changes, by kind. *)
Definition trustlineChangedEffect (effectTypes : gmap string string) (kind : string)
    (snapshot : Trustline.t) : Obj :=
  <["limit" := Trustline.limit snapshot]>
    (<["type" := effectType effectTypes kind]> (trustlineEffect snapshot)).

Definition liquidityPoolRemovedEffect (effectTypes : gmap string string)
    (snapshot : LiquidityPool.t) : Obj :=
  let effect : Obj := {[ "type" := effectType effectTypes "liquidityPoolRemoved";
                         "pool" := VStr (LiquidityPool.pool snapshot) ]} in
  if truthy (LiquidityPool.sponsor snapshot)
  then <["sponsor" := LiquidityPool.sponsor snapshot]> effect
  else effect.

(** The one effect of a balance that moved from [beforeBalance] to
    [afterBalance]. *)
Definition balanceMoved (effectTypes : gmap string string) (account asset : string)
    (beforeBalance afterBalance : Amount) : list Obj :=
  if beforeBalance =? afterBalance then []
  else [balanceEffect effectTypes
          (if afterBalance <? beforeBalance then "accountDebited" else "accountCredited")
          (VStr (decimal (Z.abs (afterBalance - beforeBalance))))
          (VStr asset) (VStr account) (VStr (decimal afterBalance))].

Definition sampleTrustlineUpdated (beforeBalance afterBalance : Amount) (limit : string)
    : Change Trustline.t :=
  {| action := "updated";
     before := Some (sampleTrustline beforeBalance);
     after := Some {| Trustline.account := otherAccount;
                      Trustline.asset := sampleAsset;
                      Trustline.balance := afterBalance;
                      Trustline.limit := VStr limit;
                      Trustline.flags := VNum 1;
                      Trustline.sponsor := VUndef |} |}.

(** The effects of instance storage entries that appeared and disappeared. *)
Definition instanceCreatedEffect (effectTypes : gmap string string) (owner : string)
    (entry : string * string) : Obj :=
  {[ "type" := effectType effectTypes "contractDataCreated";
     "owner" := VStr owner;
     "key" := VStr entry.1;
     "value" := VStr entry.2;
     "durability" := VStr "instance" ]}.

Definition instanceRemovedEffect (effectTypes : gmap string string) (owner : string)
    (entry : string * string) : Obj :=
  {[ "type" := effectType effectTypes "contractDataRemoved";
     "owner" := VStr owner;
     "key" := VStr entry.1;
     "prevValue" := VStr entry.2;
     "durability" := VStr "instance" ]}.

Definition contractWithStorage (storage : list (string * string)) : Contract.t :=
  {| Contract.contract := sampleContract;
     Contract.kind := VStr "wasm";
     Contract.hash := VStr "a1b2c3d4e5f60718293a4b5c6d7e8f90a1b2c3d4e5f60718293a4b5c6d7e8f90";
     Contract.storage := Some storage |}.

(** An analyzer holding a credit of XLM, then a deposit into [samplePool],
    then a credit of the pool's shares. *)
Definition analyzerWithPoolEffects : EffectsAnalyzer :=
  {| operation := depositOperation;
     changes := [];
     source := sampleAccount;
     diagnosticEvents := None;
     effects := [(0%nat, {[ "type" := VStr "accountCredited"; "source" := VStr otherAccount;
                            "asset" := VStr "XLM"; "amount" := VStr "50" ]});
                 (1%nat, {[ "type" := VStr "liquidityPoolDeposited";
                            "source" := VStr sampleAccount;
                            "pool" := VStr samplePool;
                            "assets" := VArr [assetAmount "XLM" (VStr "10");
                                              assetAmount "USD" (VStr "20")];
                            "shares" := VStr "14" ]});
                 (2%nat, {[ "type" := VStr "accountCredited"; "source" := VStr sampleAccount;
                            "asset" := VStr samplePool; "amount" := VStr "14" ]})];
     allocated := 3 |}.

(** [StrKey.encodeContract]: the version byte of contract ids is 2 << 3. *)
Definition encodeContract (data : list Z) : string :=
  StrKey.encodeCheck (Z.shiftl 2 3) data.

(** The shape of the topics of a standard 'mint' or 'clawback' event, read
    off the topic list: the event name, two addresses and at most one
    string after them. *)
Definition armIs (topic : ScVal) (arm : string) : Prop := _arm topic = VStr arm.

Definition standardTopics (topics : list ScVal) : Prop :=
  ∃ name first second rest,
    topics = name :: first :: second :: rest
    ∧ armIs first "address" ∧ armIs second "address"
    ∧ (rest = [] ∨ ∃ memo, rest = [memo] ∧ armIs memo "str").


(** Every object of the effect list was allocated by the analyzer. *)
Definition freshIdentities (s : EffectsAnalyzer) : Prop :=
  Forall (λ e : ObjId * Obj, (e.1 < allocated s)%nat) (effects s).

(** A mint of 5 with the standard topics, a burn of 5, and a mint without
    the second address. *)
Definition topicMint : ScVal := scvSymbol "mint" "AAAADwAAAARtaW50".

Definition sampleMint : ContractEventV0 :=
  {| topics := [topicMint; addressSampleAccount; addressOtherAccount];
     eventData := scvI128 5 "AAAACgAAAAAAAAAAAAAAAAAAAAU=" |}.



(** A diagnostic event outside a successful contract call. *)
Definition failedEvent (body : ContractEventV0) : DiagnosticEvent :=
  {| inSuccessfulContractCall := false;
     event := {| contractId := Some sampleContract; eventType := EVENT_TYPES_DIAGNOSTIC;
                 body := body |} |}.








(* ================================================================== *)
(** * Properties *)
(* ================================================================== *)

(** ** The effect list under [addEffect] *)

(** Runs the monadic plumbing of a method, leaving values untouched. *)
Ltac js_run :=
  cbv beta iota zeta delta
    [bind ret throw gets modify lift cbind new addEffect setProp fst snd
     onEffectAnalyzer undefinedRead].

(** Settles a closed equation by evaluating both sides. *)
Ltac by_evaluation :=
  intros;
  lazymatch goal with
  | |- ?a = ?b => exact (@eq_refl _ b <: a = b)
  end.

(** Reads the effect list off the state a method leaves. *)
Ltac effects_run :=
  unfold effectList, setEffects;
  cbn [effects source allocated changes operation diagnosticEvents effectAnalyzer callStack];
  rewrite ?fmap_app, ?app_nil_r, <- ?app_assoc.

Section EffectList.

Lemma effectList_setEffects f s :
  effectList (setEffects f s) = (f (effects s)).*2.
Proof. reflexivity. Qed.

(** [addEffect] without a position pushes the effect, with its source
    defaulted, at the end of the list. *)
Lemma addEffect_push (effect : ObjId * Obj) s :
  ∃ s', addEffect effect None s = (Return tt, s')
        ∧ effectList s' = effectList s ++ [defaultSource (source s) effect.2]
        ∧ source s' = source s.
Proof.
  js_run. eexists; split; [reflexivity|]. split; [|reflexivity].
  rewrite effectList_setEffects. unfold effectList. by rewrite fmap_app.
Qed.

Lemma defaultSource_lookup_ne this_source (effect : Obj) k :
  k ≠ "source" → defaultSource this_source effect !! k = effect !! k.
Proof.
  intros Hk. unfold defaultSource.
  destruct (negb _); [|reflexivity]. by rewrite lookup_insert_ne.
Qed.

End EffectList.

(** ** Checks of the number and address models *)

(** 2^53 + 1 is halfway between two Numbers and rounds to the even one. *)
Example round_half_to_even :
  roundTiesToEven (2 ^ 53 + 1) = Finite (2 ^ 53)
  ∧ roundTiesToEven (2 ^ 53 + 3) = Finite (2 ^ 53 + 4).
Proof. repeat apply conj; by_evaluation. Qed.

(** [toString] prints the shortest digits that read back as the Number. *)
Example number_toString_samples :
  numberToString (Finite (-50)) = "-50"
  ∧ numberToString (roundTiesToEven 9007199254740993) = "9007199254740992"
  ∧ numberToString (Finite (2 ^ 63)) = "9223372036854776000"
  ∧ numberToString (Finite (2 ^ 64)) = "18446744073709552000"
  ∧ numberToString (Finite (10 ^ 21)) = "1e+21"
  ∧ numberToString (roundTiesToEven (123456 * 10 ^ 30)) = "1.23456e+35"
  ∧ numberToString (roundTiesToEven (2 ^ 1024 - 2 ^ 970 - 1)) = "1.7976931348623157e+308"
  ∧ numberToString (roundTiesToEven (2 ^ 1024)) = "Infinity".
Proof. repeat apply conj; by_evaluation. Qed.

(** The account of the all-zero key, and the contract of the all-zero id. *)
Example strkey_samples :
  StrKey.encodeEd25519PublicKey (replicate 32 0) = sampleAccount
  ∧ StrKey.encodeCheck (Z.shiftl 2 3) (replicate 32 0) = sampleContract
  ∧ StrKey.encodeCheck (Z.shiftl 2 3) (replicate 32 1) = otherContract
  ∧ StrKey.encodeCheck (Z.shiftl 12 3) (replicate 32 0 ++ [0; 0; 0; 0; 0; 0; 0; 1])
    = sampleMuxedAccount.
Proof. repeat apply conj; by_evaluation. Qed.

(** ** Zero-amount suppression (C3) *)

Section ZeroAmount.

Variable effectTypes : gmap string string.

Lemma debit_zero asset src balance s :
  debit effectTypes (VStr "0") asset src balance s = (Return tt, s).
Proof. reflexivity. Qed.

Lemma credit_zero asset src balance s :
  credit effectTypes (VStr "0") asset src balance s = (Return tt, s).
Proof. reflexivity. Qed.

Lemma strictEqStr_false v t : v ≠ VStr t → strictEqStr v t = false.
Proof.
  destruct v; simpl; try done. intros Hne.
  destruct (String.eqb_spec s t); [congruence | done].
Qed.

Lemma debit_nonzero amount asset src balance s :
  amount ≠ VStr "0" →
  (debit effectTypes amount asset src balance s).1 = Return tt
  ∧ effectList (debit effectTypes amount asset src balance s).2
    = effectList s ++ [defaultSource (source s)
                         (balanceEffect effectTypes "accountDebited" amount asset src balance)]
  ∧ source (debit effectTypes amount asset src balance s).2 = source s.
Proof.
  intros Hne. unfold debit. rewrite (strictEqStr_false _ _ Hne).
  js_run. split; [reflexivity|]. split; [|reflexivity].
  rewrite effectList_setEffects. cbn [effects source]. rewrite fmap_app.
  unfold effectList, balanceEffect. by destruct balance.
Qed.

Lemma credit_nonzero amount asset src balance s :
  amount ≠ VStr "0" →
  (credit effectTypes amount asset src balance s).1 = Return tt
  ∧ effectList (credit effectTypes amount asset src balance s).2
    = effectList s ++ [defaultSource (source s)
                         (balanceEffect effectTypes "accountCredited" amount asset src balance)]
  ∧ source (credit effectTypes amount asset src balance s).2 = source s.
Proof.
  intros Hne. unfold credit. rewrite (strictEqStr_false _ _ Hne).
  js_run. split; [reflexivity|]. split; [|reflexivity].
  rewrite effectList_setEffects. cbn [effects source]. rewrite fmap_app.
  unfold effectList, balanceEffect. by destruct balance.
Qed.

(** C3, amended.  The engine's own primitives [EffectsAnalyzer.debit] and
    [EffectsAnalyzer.credit] leave the analyzer untouched when the amount is
    the string "0"; for any other amount they complete normally and push
    exactly one accountDebited (resp. accountCredited) effect, with the given
    source, asset, amount and optional balance, at the end of the effect
    list.  The events analyzer's private [debit] and [credit] are not these
    primitives and are not covered. *)
Theorem engine_debit_credit_zero_suppression amount asset src balance s :
  (amount = VStr "0" →
     debit effectTypes amount asset src balance s = (Return tt, s)
     ∧ credit effectTypes amount asset src balance s = (Return tt, s))
  ∧ (amount ≠ VStr "0" →
     ((debit effectTypes amount asset src balance s).1 = Return tt
      ∧ effectList (debit effectTypes amount asset src balance s).2
        = effectList s ++ [defaultSource (source s)
                             (balanceEffect effectTypes "accountDebited" amount asset src balance)])
     ∧ ((credit effectTypes amount asset src balance s).1 = Return tt
        ∧ effectList (credit effectTypes amount asset src balance s).2
          = effectList s ++ [defaultSource (source s)
                               (balanceEffect effectTypes "accountCredited" amount asset src balance)])).
Proof.
  split.
  - intros ->. split; [apply debit_zero | apply credit_zero].
  - intros Hne.
    destruct (debit_nonzero amount asset src balance s Hne) as (? & ? & _).
    destruct (credit_nonzero amount asset src balance s Hne) as (? & ? & _).
    done.
Qed.

End ZeroAmount.

(** On a fresh analyzer: a debit of "0" changes nothing, a credit of "50"
    with balance "150" pushes one effect. *)
Lemma engine_debit_credit_zero_suppression_witness :
  debit effectKindsTable (VStr "0") (VStr "XLM") (VStr otherAccount) VUndef
        (freshAnalyzer sampleOperation [] None)
  = (Return tt, freshAnalyzer sampleOperation [] None)
  ∧ effectList (credit effectKindsTable (VStr "50") (VStr "XLM") (VStr otherAccount)
                  (VStr "150") (freshAnalyzer sampleOperation [] None)).2
    = [ {[ "type" := VStr "accountCredited"; "source" := VStr otherAccount;
           "asset" := VStr "XLM"; "amount" := VStr "50"; "balance" := VStr "150" ]} ].
Proof.
  split.
  - apply (engine_debit_credit_zero_suppression effectKindsTable (VStr "0")).
    reflexivity.
  - destruct (engine_debit_credit_zero_suppression effectKindsTable (VStr "50") (VStr "XLM")
                (VStr otherAccount) (VStr "150") (freshAnalyzer sampleOperation [] None))
      as [_ Hpush].
    destruct Hpush as [_ [_ ->]]; [discriminate|].
    by_evaluation.
Defined.

(** C3 as stated fails on the events analyzer's own [debit]/[credit]: a
    transfer event of amount "0" between two contracts pushes a debit and a
    credit of amount "0". *)
Lemma event_transfer_of_zero_is_emitted :
  let s' := (Events.processDiagnosticEvent effectKindsTable zeroTransfer
               EVENT_TYPES_CONTRACT (VStr sampleContract) (freshEvents None)).2 in
  effectList (effectAnalyzer s')
  = [ {[ "type" := VStr "accountDebited"; "source" := VStr sampleContract;
         "asset" := VStr sampleContract; "amount" := VStr "0" ]};
      {[ "type" := VStr "accountCredited"; "source" := VStr otherContract;
         "asset" := VStr sampleContract; "amount" := VStr "0" ]} ]
  ∧ effectList (effectAnalyzer (freshEvents None)) = [].
Proof. split; by_evaluation. Qed.

(** ** Position-searched insertion (C10) *)

Section FrontInsertion.

Variable effectTypes : gmap string string.

Lemma findIndexFrom_no_match {A} (p : A → Completion bool) (l : list A) i :
  Forall (λ x, p x = Return false) l → findIndexFrom p i l = Return (-1).
Proof.
  intros Hall. revert i. induction Hall as [|x l Hx _ IH]; intros i; simpl.
  - reflexivity.
  - rewrite Hx. simpl. apply IH.
Qed.

(** A negative position inserts at the front. *)
Lemma addEffect_negative_position (effect : ObjId * Obj) (position : Z) s :
  position < 0 →
  (addEffect effect (Some position) s).1 = Return tt
  ∧ effectList (addEffect effect (Some position) s).2
    = defaultSource (source s) effect.2 :: effectList s.
Proof.
  intros Hneg. js_run. split; [reflexivity|].
  rewrite effectList_setEffects.
  destruct (Z.ltb_spec position 0) as [_|]; [|lia].
  reflexivity.
Qed.

Lemma liquidityPool_created_front ch snapshot s :
  action ch = "created" →
  after ch = Some snapshot →
  Forall (λ e, refersToPool (LiquidityPool.pool snapshot) e = false) (effectList s) →
  (processLiquidityPoolChanges effectTypes ch s).1 = Return tt
  ∧ effectList (processLiquidityPoolChanges effectTypes ch s).2
    = defaultSource (source s) (liquidityPoolCreatedEffect effectTypes snapshot)
      :: effectList s.
Proof.
  intros Hact Hafter Hnone.
  assert (Hidx : ∀ effect : Obj,
             prop effect "pool" = VStr (LiquidityPool.pool snapshot) →
             findIndex (λ e, Return (strictEq (prop e "pool") (prop effect "pool")
                                     || strictEq (prop e "asset") (prop effect "pool")))
                       (effectList s) = Return (-1)).
  { intros effect ->. apply findIndexFrom_no_match.
    eapply Forall_impl; [exact Hnone|]. intros e He. simpl in He.
    unfold refersToPool in He. simpl. by rewrite He. }
  unfold processLiquidityPoolChanges, snapshotOf. rewrite Hact, Hafter.
  change (String.eqb "created" "created") with true. cbv iota.
  unfold liquidityPoolCreatedEffect.
  destruct (truthy (LiquidityPool.sponsor snapshot)); js_run;
    (rewrite Hidx by reflexivity); split; reflexivity.
Qed.

Lemma mint_front asset amount s :
  Forall (λ e, matchesAsset asset e = Return false) (effectList s) →
  (mint effectTypes asset amount true s).1 = Return tt
  ∧ effectList (mint effectTypes asset amount true s).2
    = defaultSource (source s) (assetMintedEffect effectTypes asset amount) :: effectList s.
Proof.
  intros Hnone. unfold mint. js_run.
  change (findIndex _ (effectList s)) with (findIndex (matchesAsset asset) (effectList s)).
  unfold findIndex. rewrite (findIndexFrom_no_match _ _ _ Hnone).
  split; reflexivity.
Qed.

(** C10.  When the position search finds no match, the new effect goes to
    the front of the list: a liquidity pool 'created' change whose pool id
    no existing effect carries in its [pool] or [asset] property, and a
    [mint] with position lookup whose asset no existing effect matches, both
    complete normally with the new effect inserted at position 0, before all
    the effects already in the list; more generally [addEffect] with any
    negative position inserts at position 0. *)
Theorem unmatched_position_inserts_at_front s :
  (∀ ch snapshot,
     action ch = "created" →
     after ch = Some snapshot →
     Forall (λ e, refersToPool (LiquidityPool.pool snapshot) e = false) (effectList s) →
     (processLiquidityPoolChanges effectTypes ch s).1 = Return tt
     ∧ effectList (processLiquidityPoolChanges effectTypes ch s).2
       = defaultSource (source s) (liquidityPoolCreatedEffect effectTypes snapshot)
         :: effectList s)
  ∧ (∀ asset amount,
       Forall (λ e, matchesAsset asset e = Return false) (effectList s) →
       (mint effectTypes asset amount true s).1 = Return tt
       ∧ effectList (mint effectTypes asset amount true s).2
         = defaultSource (source s) (assetMintedEffect effectTypes asset amount)
           :: effectList s)
  ∧ (∀ effect position,
       position < 0 →
       effectList (addEffect effect (Some position) s).2
       = defaultSource (source s) effect.2 :: effectList s).
Proof.
  split; [|split].
  - intros. by apply liquidityPool_created_front.
  - intros. by apply mint_front.
  - intros effect position Hneg. by apply addEffect_negative_position.
Qed.

End FrontInsertion.
(** On an analyzer holding one credit of XLM: the created pool and the
    minted USD both land before it. *)
Lemma unmatched_position_inserts_at_front_witness :
  effectList (processLiquidityPoolChanges effectKindsTable samplePoolCreated
                analyzerWithOneEffect).2
  = [ {[ "type" := VStr "liquidityPoolCreated"; "source" := VStr sampleAccount;
         "pool" := VStr samplePool;
         "reserves" := VArr [assetAmount "XLM" (VStr "0");
                             assetAmount ("USD-" +:+ otherAccount +:+ "-1") (VStr "0")];
         "shares" := VStr "0"; "accounts" := VNum 1 ]};
      {[ "type" := VStr "accountCredited"; "source" := VStr otherAccount;
         "asset" := VStr "XLM"; "amount" := VStr "50" ]} ]
  ∧ effectList (mint effectKindsTable "USD" (VStr "7") true analyzerWithOneEffect).2
    = [ {[ "type" := VStr "assetMinted"; "source" := VStr sampleAccount;
           "asset" := VStr "USD"; "amount" := VStr "7" ]};
        {[ "type" := VStr "accountCredited"; "source" := VStr otherAccount;
           "asset" := VStr "XLM"; "amount" := VStr "50" ]} ].
Proof.
  destruct (unmatched_position_inserts_at_front effectKindsTable analyzerWithOneEffect)
    as (Hpool & Hmint & _).
  split.
  - destruct (Hpool samplePoolCreated samplePoolSnapshot) as [_ ->];
      [reflexivity | reflexivity | | by_evaluation].
    repeat (constructor; [by_evaluation|]). constructor.
  - destruct (Hmint "USD" (VStr "7")) as [_ ->]; [|by_evaluation].
    repeat (constructor; [by_evaluation|]). constructor.
Defined.

(** ** Removed trustlines (C8) *)

Section TrustlineRemoval.

Variable effectTypes : gmap string string.

(** Rounding to a Number never changes the sign. *)
Lemma numberGt_roundTiesToEven n :
  numberGt (roundTiesToEven n) 0 = (0 <? n).
Proof.
  unfold roundTiesToEven.
  destruct (Z.ltb_spec (Z.abs n) (2 ^ 53)) as [|Hbig]; [reflexivity|].
  set (e := Z.log2 (Z.abs n) - 52).
  assert (Hpos : 0 < Z.abs n) by lia.
  assert (He : 0 < e).
  { assert (53 <= Z.log2 (Z.abs n)); [|unfold e; lia].
    apply Z.log2_le_pow2; lia. }
  assert (Hq : 1 <= Z.abs n / 2 ^ e).
  { apply Z.div_le_lower_bound; [apply Z.pow_pos_nonneg; lia|].
    rewrite Z.mul_1_r.
    transitivity (2 ^ Z.log2 (Z.abs n)).
    - apply Z.pow_le_mono_r; unfold e; lia.
    - apply Z.log2_spec; lia. }
  set (q := Z.abs n / 2 ^ e) in *.
  match goal with
  | |- context [if ?c then q + 1 else q] => set (q' := if c then q + 1 else q)
  end.
  assert (Hq' : 1 <= q').
  { unfold q'. match goal with |- context [if ?c then _ else _] => destruct c end; lia. }
  assert (Hm : 0 < q' * 2 ^ e).
  { apply Z.mul_pos_pos; [lia | apply Z.pow_pos_nonneg; lia]. }
  destruct (2 ^ 1024 <=? q' * 2 ^ e); simpl.
  - destruct (Z.ltb_spec n 0), (Z.ltb_spec 0 n); simpl; try reflexivity; lia.
  - destruct (Z.ltb_spec 0 n), (Z.ltb_spec 0 (Z.sgn n * (q' * 2 ^ e))); try reflexivity; nia.
Qed.

Lemma decimal_zero n : decimal n = "0" → n = 0.
Proof. intros H. by apply (inj (pretty : Z → string)). Qed.

Lemma processBalanceChange_to_zero account asset balance s :
  0 < balance →
  (processBalanceChange effectTypes account asset balance 0 s).1 = Return tt
  ∧ effectList (processBalanceChange effectTypes account asset balance 0 s).2
    = effectList s ++ [defaultSource (source s)
                         (balanceEffect effectTypes "accountDebited" (VStr (decimal balance))
                            (VStr asset) (VStr account) (VStr "0"))]
  ∧ source (processBalanceChange effectTypes account asset balance 0 s).2 = source s.
Proof.
  intros Hpos. unfold processBalanceChange.
  destruct (Z.ltb_spec (0 - balance) 0); [|lia].
  replace (- (0 - balance)) with balance by lia.
  apply debit_nonzero. intros [= Hz]. apply decimal_zero in Hz. lia.
Qed.

Lemma trustline_removed ch b s :
  action ch = "removed" →
  before ch = Some b →
  let removed := defaultSource (source s)
                   (trustlineRemovedEffect effectTypes (default b (after ch))) in
  (processTrustlineEffectsChanges effectTypes ch s).1 = Return tt
  ∧ effectList (processTrustlineEffectsChanges effectTypes ch s).2
    = effectList s
      ++ (if 0 <? Trustline.balance b
          then [defaultSource (source s)
                  (balanceEffect effectTypes "accountDebited"
                     (VStr (decimal (Trustline.balance b)))
                     (VStr (Trustline.asset b)) (VStr (Trustline.account b)) (VStr "0"))]
          else [])
      ++ [removed].
Proof.
  intros Hact Hbefore removed. subst removed.
  unfold processTrustlineEffectsChanges, snapshotOf. rewrite Hact, Hbefore.
  change (String.eqb "removed" "created") with false.
  change (String.eqb "removed" "updated") with false.
  change (String.eqb "removed" "removed") with true. cbv iota.
  rewrite numberGt_roundTiesToEven.
  assert (Hsnap : match after ch with Some a => Some a | None => Some b end
                  = Some (default b (after ch))) by (by destruct (after ch)).
  rewrite Hsnap. generalize (default b (after ch)) as snapshot. intros snapshot.
  unfold trustlineRemovedEffect, trustlineEffect.
  destruct (Z.ltb_spec 0 (Trustline.balance b)) as [Hpos|Hnonpos]; js_run.
  - match goal with
    | |- context [processBalanceChange _ _ _ _ _ ?s1] =>
        destruct (processBalanceChange_to_zero (Trustline.account b) (Trustline.asset b)
                    (Trustline.balance b) s1 Hpos) as (Hc & Hl & Hs);
        destruct (processBalanceChange effectTypes (Trustline.account b) (Trustline.asset b)
                    (Trustline.balance b) 0 s1) as [c s2]
    end.
    simpl in Hc, Hl, Hs. subst c. split; [reflexivity|].
    rewrite effectList_setEffects, fmap_app. fold (effectList s2).
    rewrite Hl, Hs. change (effectList _) with (effectList s) at 1.
    rewrite <- app_assoc. simpl. by destruct (truthy (Trustline.sponsor snapshot)).
  - split; [reflexivity|].
    rewrite effectList_setEffects, fmap_app. simpl.
    by destruct (truthy (Trustline.sponsor snapshot)).
Qed.

(** C8.  A 'removed' trustline change whose previous balance is positive
    completes normally and pushes an accountDebited effect for the trustline's
    account and asset, with amount equal to the previous balance and balance
    "0", immediately followed by the trustlineRemoved effect; with a previous
    balance of zero it pushes the trustlineRemoved effect alone. *)
Theorem removed_trustline_debit_then_removal ch b s :
  action ch = "removed" →
  before ch = Some b →
  let removed := defaultSource (source s)
                   (trustlineRemovedEffect effectTypes (default b (after ch))) in
  let debited := defaultSource (source s)
                   (balanceEffect effectTypes "accountDebited"
                      (VStr (decimal (Trustline.balance b)))
                      (VStr (Trustline.asset b)) (VStr (Trustline.account b)) (VStr "0")) in
  (processTrustlineEffectsChanges effectTypes ch s).1 = Return tt
  ∧ (0 < Trustline.balance b →
       effectList (processTrustlineEffectsChanges effectTypes ch s).2
       = effectList s ++ [debited; removed])
  ∧ (Trustline.balance b = 0 →
       effectList (processTrustlineEffectsChanges effectTypes ch s).2
       = effectList s ++ [removed]).
Proof.
  intros Hact Hbefore removed debited.
  destruct (trustline_removed ch b s Hact Hbefore) as [Hc Hl].
  split; [exact Hc|]. split; intros Hbal; rewrite Hl.
  - destruct (Z.ltb_spec 0 (Trustline.balance b)); [reflexivity | lia].
  - rewrite Hbal. reflexivity.
Qed.

End TrustlineRemoval.

(** The scenario of the spec, a trustline removed with balance "40", and
    the same trustline removed with balance "0". *)
Lemma removed_trustline_debit_then_removal_witness :
  effectList (processTrustlineEffectsChanges effectKindsTable (trustlineRemoved 40)
                (freshAnalyzer sampleOperation [] None)).2
  = [ {[ "type" := VStr "accountDebited"; "source" := VStr otherAccount;
         "asset" := VStr sampleAsset; "amount" := VStr "40"; "balance" := VStr "0" ]};
      {[ "type" := VStr "trustlineRemoved"; "source" := VStr otherAccount;
         "asset" := VStr sampleAsset; "kind" := VStr "asset"; "flags" := VNum 1 ]} ]
  ∧ effectList (processTrustlineEffectsChanges effectKindsTable (trustlineRemoved 0)
                  (freshAnalyzer sampleOperation [] None)).2
    = [ {[ "type" := VStr "trustlineRemoved"; "source" := VStr otherAccount;
           "asset" := VStr sampleAsset; "kind" := VStr "asset"; "flags" := VNum 1 ]} ].
Proof.
  split.
  - destruct (removed_trustline_debit_then_removal effectKindsTable (trustlineRemoved 40)
                (sampleTrustline 40) (freshAnalyzer sampleOperation [] None)
                eq_refl eq_refl) as (_ & Hpositive & _).
    etransitivity; [apply Hpositive; reflexivity | by_evaluation].
  - destruct (removed_trustline_debit_then_removal effectKindsTable (trustlineRemoved 0)
                (sampleTrustline 0) (freshAnalyzer sampleOperation [] None)
                eq_refl eq_refl) as (_ & _ & Hzero).
    etransitivity; [apply Hzero; reflexivity | by_evaluation].
Defined.

(** ** Created contracts (C5) *)

Section ContractCreation.

Variable effectTypes : gmap string string.

Lemma strictEqStr_true v t : strictEqStr v t = true ↔ v = VStr t.
Proof.
  destruct v; simpl; try (split; [discriminate | intros; discriminate]).
  destruct (String.eqb_spec s t); split; congruence.
Qed.



End ContractCreation.



(** ** Liquidity pool deposits and withdrawals (C4) *)

Section NumberArithmetic.

Lemma roundTiesToEven_small n : Z.abs n < 2 ^ 53 → roundTiesToEven n = Finite n.
Proof.
  intros Hn. unfold roundTiesToEven.
  destruct (Z.ltb_spec (Z.abs n) (2 ^ 53)); [reflexivity | lia].
Qed.

(** An integer at or above 2^53 in magnitude never rounds below 2^53. *)
Lemma roundTiesToEven_large n v :
  2 ^ 53 <= Z.abs n → roundTiesToEven n = Finite v → 2 ^ 53 <= Z.abs v.
Proof.
  intros Hbig. unfold roundTiesToEven.
  destruct (Z.ltb_spec (Z.abs n) (2 ^ 53)) as [|_]; [lia|].
  set (e := Z.log2 (Z.abs n) - 52).
  assert (He : 0 < e).
  { assert (53 <= Z.log2 (Z.abs n)); [|unfold e; lia].
    apply Z.log2_le_pow2; lia. }
  assert (Hq : 2 ^ 52 <= Z.abs n / 2 ^ e).
  { apply Z.div_le_lower_bound; [apply Z.pow_pos_nonneg; lia|].
    rewrite Z.mul_comm, <- Z.pow_add_r by lia.
    replace (52 + e) with (Z.log2 (Z.abs n)) by (unfold e; lia).
    apply Z.log2_spec; lia. }
  set (q := Z.abs n / 2 ^ e) in *.
  match goal with
  | |- context [if ?c then q + 1 else q] => set (q' := if c then q + 1 else q)
  end.
  assert (Hq' : 2 ^ 52 <= q').
  { unfold q'. match goal with |- context [if ?c then _ else _] => destruct c end; lia. }
  assert (Hm : 2 ^ 53 <= q' * 2 ^ e).
  { change (2 ^ 53) with (2 ^ 52 * 2 ^ 1).
    apply Z.mul_le_mono_nonneg; try lia.
    apply Z.pow_le_mono_r; lia. }
  destruct (2 ^ 1024 <=? q' * 2 ^ e); [discriminate|].
  intros [= <-]. destruct n; simpl Z.sgn; lia.
Qed.

Lemma roundTiesToEven_safe_inv x v :
  Z.abs v < 2 ^ 53 → roundTiesToEven x = Finite v → x = v.
Proof.
  intros Hv Hx.
  destruct (Z.lt_ge_cases (Z.abs x) (2 ^ 53)) as [Hsmall|Hbig].
  - rewrite roundTiesToEven_small in Hx by done. congruence.
  - apply roundTiesToEven_large in Hx; [lia | done].
Qed.

Lemma numberEqb_eq x y : numberEqb x y = true → x = y.
Proof.
  destruct x, y; simpl; try discriminate.
  - intros H. apply Z.eqb_eq in H. congruence.
  - intros H. apply Bool.eqb_prop in H. congruence.
Qed.

Lemma shortest_safe fuel p v :
  Z.abs v < 2 ^ 53 → shortest fuel p v = v.
Proof.
  intros Hv. revert p.
  induction fuel as [|fuel IH]; intros p; simpl;
    destruct (numberEqb (roundTiesToEven (v / p * p)) (Finite v)) eqn:Hlo,
             (numberEqb (roundTiesToEven (v / p * p + p)) (Finite v)) eqn:Hhi;
    try apply numberEqb_eq, roundTiesToEven_safe_inv in Hlo;
    try apply numberEqb_eq, roundTiesToEven_safe_inv in Hhi;
    first [ done
          | apply IH
          | repeat match goal with |- context [if ?c then _ else _] => destruct c end; done ].
Qed.

(** Below 2^53 in magnitude, [toString] prints the integer itself. *)
Lemma numberToString_safe v :
  Z.abs v < 2 ^ 53 → numberToString (Finite v) = decimal v.
Proof.
  intros Hv.
  assert (Hpos : ∀ p, Z.pos p < 2 ^ 53 → positiveToString (Z.pos p) = decimal (Z.pos p)).
  { intros p Hp. unfold positiveToString. rewrite shortest_safe by lia.
    destruct (Z.ltb_spec (Z.pos p) (10 ^ 21)) as [|Hge]; [reflexivity|].
    assert (2 ^ 53 < 10 ^ 21) by reflexivity. lia. }
  destruct v as [|p|p]; simpl.
  - reflexivity.
  - apply Hpos. lia.
  - rewrite Hpos by lia. reflexivity.
Qed.

(** The subtraction of the analyzer is exact on safe amounts. *)
Lemma subtraction_exact_on_safe_amounts a b :
  safeAmount a → safeAmount b →
  numberToString (numberSub (roundTiesToEven a) (roundTiesToEven b)) = decimal (a - b).
Proof.
  unfold safeAmount. intros Ha Hb.
  rewrite !roundTiesToEven_small by lia. simpl.
  rewrite roundTiesToEven_small by lia.
  apply numberToString_safe. lia.
Qed.

End NumberArithmetic.

Section PoolDeltas.

Variable effectTypes : gmap string string.

Lemma mapi_ext {A B} (f g : A → nat → B) (xs : list A) start :
  (∀ i x, xs !! i = Some x → f x (start + i)%nat = g x (start + i)%nat) →
  mapi f start xs = mapi g start xs.
Proof.
  revert start. induction xs as [|x xs IH]; intros start Hfg; simpl; [reflexivity|].
  f_equal.
  - specialize (Hfg 0%nat x eq_refl). by rewrite Nat.add_0_r in Hfg.
  - apply IH. intros i y Hy. specialize (Hfg (S i) y Hy).
    by rewrite Nat.add_succ_r in Hfg.
Qed.

Lemma safe_lookup (amounts : list Amount) (assets : list string) i asset :
  length amounts = length assets → Forall safeAmount amounts →
  assets !! i = Some asset →
  ∃ n, amounts !! i = Some n ∧ safeAmount n.
Proof.
  intros Hlen Hsafe Hi.
  apply lookup_lt_Some in Hi. rewrite <- Hlen in Hi.
  destruct (lookup_lt_is_Some_2 amounts i Hi) as [n Hn].
  exists n. split; [done|]. eapply Forall_lookup_1; eauto.
Qed.

(** On safe amounts the deposit handler pushes the exact reserve deltas. *)
Lemma liquidityPoolDeposit_exact_on_safe_amounts s ch poolBefore poolAfter :
  findLiquidityPoolChange (updatedPoolAfter (Operation.liquidityPoolId (operation s)))
    (changes s) = Return (Some ch) →
  before ch = Some poolBefore →
  after ch = Some poolAfter →
  length (LiquidityPool.asset poolBefore) = length (LiquidityPool.asset poolAfter) →
  safePool poolBefore → safePool poolAfter →
  (liquidityPoolDeposit effectTypes s).1 = Return tt
  ∧ effectList (liquidityPoolDeposit effectTypes s).2
    = effectList s
      ++ [defaultSource (source s)
            (exactDepositEffect effectTypes (Operation.liquidityPoolId (operation s))
               poolBefore poolAfter)].
Proof.
  intros Hfound Hbefore Hafter Hlen (Hlb & Hsb & Hshb) (Hla & Hsa & Hsha).
  unfold liquidityPoolDeposit. js_run.
  change (findLiquidityPoolChange _ (changes s))
    with (findLiquidityPoolChange (updatedPoolAfter (Operation.liquidityPoolId (operation s)))
            (changes s)).
  rewrite Hfound. destruct ch as [act b a]. simpl in Hbefore, Hafter. subst b a.
  js_run. split; [reflexivity|].
  rewrite effectList_setEffects, fmap_app. cbn [effects source fmap list_fmap].
  fold (effectList s).
  unfold exactDepositEffect, exactDeltas.
  rewrite (subtraction_exact_on_safe_amounts _ _ Hsha Hshb).
  erewrite mapi_ext; [reflexivity|].
  intros i asset Hi. simpl.
  destruct (safe_lookup _ _ i asset Hla Hsa Hi) as (x & Ex & Hx).
  assert (Hi' : is_Some (LiquidityPool.asset poolBefore !! i)).
  { apply lookup_lt_is_Some. rewrite Hlen. by eapply lookup_lt_Some. }
  destruct Hi' as [asset' Hi'].
  destruct (safe_lookup _ _ i asset' Hlb Hsb Hi') as (y & Ey & Hy).
  rewrite !Ex, !Ey. simpl.
  change (numberSub _ _) with (numberSub (roundTiesToEven x) (roundTiesToEven y)).
  rewrite (subtraction_exact_on_safe_amounts x y Hx Hy).
  reflexivity.
Qed.

End PoolDeltas.

(** The scenario of the spec: reserves [100, 200] and 1000 shares before,
    [150, 260] and 1100 shares after. *)
Example liquidityPoolDeposit_scenario :
  liquidityPoolDeposit effectKindsTable scenarioDeposit
  = (Return tt,
     {| operation := depositOperation;
        changes := changes scenarioDeposit;
        source := sampleAccount;
        diagnosticEvents := None;
        effects := [(0%nat, {[ "type" := VStr "liquidityPoolDeposited";
                               "source" := VStr sampleAccount;
                               "pool" := VStr samplePool;
                               "assets" := VArr [assetAmount "A" (VStr "50");
                                                 assetAmount "B" (VStr "60")];
                               "shares" := VStr "100" ]})];
        allocated := 1 |}).
Proof. by_evaluation. Qed.

(** C4 fails on the code above 2^53 stroops.  With a first reserve of
    9007199254740992 before and 9007199254740993 after (and the second
    reserve and the shares as in the scenario of the spec), the deposit
    handler pushes one liquidityPoolDeposited effect whose first amount is
    "0", where the exact difference after.amount[0] - before.amount[0] is
    "1"; the withdraw handler does the same on the mirrored change. *)
Theorem liquidityPoolDeposit_inexact_above_2_53 :
  effectList (liquidityPoolDeposit effectKindsTable largeDeposit).2
  = [ {[ "type" := VStr "liquidityPoolDeposited";
         "source" := VStr sampleAccount;
         "pool" := VStr samplePool;
         "assets" := VArr [assetAmount "A" (VStr "0"); assetAmount "B" (VStr "60")];
         "shares" := VStr "100" ]} ]
  ∧ exactDeltas ["A"; "B"] (poolSnapshot 9007199254740992 200 1000)
                            (poolSnapshot 9007199254740993 260 1100)
    = VArr [assetAmount "A" (VStr "1"); assetAmount "B" (VStr "60")]
  ∧ effectList (liquidityPoolWithdraw effectKindsTable largeWithdraw).2
    = [ {[ "type" := VStr "liquidityPoolWithdrew";
           "source" := VStr sampleAccount;
           "pool" := VStr samplePool;
           "assets" := VArr [assetAmount "A" (VStr "0"); assetAmount "B" (VStr "60")];
           "shares" := VStr "100" ]} ].
Proof. repeat split; by_evaluation. Qed.

(** ** The sponsorship effect namer (C2) *)

Section SponsorshipNamer.

Variable effectTypes : gmap string string.

(** C2, amended.  The sponsorship effect namer is a function of the action
    and the entity kind alone.  It raises UnexpectedTxMetaChangeError exactly
    when the action is none of 'created', 'updated', 'removed'; for these
    three actions it returns whatever the table of effect kinds holds under
    the key kind + "Sponsorship" + Created/Updated/Removed, which is
    [undefined], not an error, when the table has no such key. *)
Theorem sponsorship_name_by_action action type :
  (action = "created" →
     encodeSponsorshipEffectName effectTypes action type
     = Return (effectType effectTypes (type +:+ "Sponsorship" +:+ "Created")))
  ∧ (action = "updated" →
       encodeSponsorshipEffectName effectTypes action type
       = Return (effectType effectTypes (type +:+ "Sponsorship" +:+ "Updated")))
  ∧ (action = "removed" →
       encodeSponsorshipEffectName effectTypes action type
       = Return (effectType effectTypes (type +:+ "Sponsorship" +:+ "Removed")))
  ∧ (action ≠ "created" → action ≠ "updated" → action ≠ "removed" →
       encodeSponsorshipEffectName effectTypes action type
       = Throw (UnexpectedTxMetaChangeError (VStr type) (VStr action)))
  ∧ (∀ actionKey,
       (action, actionKey) ∈ [("created", "Created"); ("updated", "Updated");
                              ("removed", "Removed")] →
       effectTypes !! (type +:+ "Sponsorship" +:+ actionKey) = None →
       encodeSponsorshipEffectName effectTypes action type = Return VUndef).
Proof.
  repeat split.
  - by intros ->.
  - by intros ->.
  - by intros ->.
  - intros Hc Hu Hr. unfold encodeSponsorshipEffectName.
    destruct (String.eqb_spec action "created"); [done|].
    destruct (String.eqb_spec action "updated"); [done|].
    destruct (String.eqb_spec action "removed"); [done|].
    reflexivity.
  - intros actionKey Hin Hmissing.
    assert (Hname : encodeSponsorshipEffectName effectTypes action type
                    = Return (effectType effectTypes (type +:+ "Sponsorship" +:+ actionKey))).
    { repeat (apply elem_of_cons in Hin as [[= -> ->]|Hin]; [reflexivity|]).
      by apply elem_of_nil in Hin. }
    rewrite Hname. unfold effectType. by rewrite Hmissing.
Qed.

(** Every effect the sponsorship pass pushes for a change carries the kind
    the namer returns for the action and the type of that change. *)
Lemma sponsorship_effect_kind change s :
  let outcome := sponsorshipEffectOf effectTypes change s in
  effectList outcome.2 = effectList s
  ∨ ∃ effect name,
      encodeSponsorshipEffectName effectTypes (action (readers change)) (changeType change)
      = Return name
      ∧ outcome.1 = Return tt
      ∧ effectList outcome.2 = effectList s ++ [effect]
      ∧ effect !! "type" = Some name.
Proof.
  unfold sponsorshipEffectOf.
  destruct (readers change) as [act b a]. cbn [action].
  generalize (changeType change) as type. intros type.
  destruct (encodeSponsorshipEffectName effectTypes act type) as [name|e] eqn:Hname.
  - repeat match goal with
           | |- context [if ?c then _ else _] => destruct c
           | |- context [match ?o with Some _ => _ | None => _ end] => destruct o
           end;
      js_run; rewrite ?Hname; effects_run;
      first [ by left
            | right; eexists _, name; repeat split;
              rewrite defaultSource_lookup_ne by done; apply lookup_insert_eq ].
  - left.
    repeat match goal with
           | |- context [if ?c then _ else _] => destruct c
           | |- context [match ?o with Some _ => _ | None => _ end] => destruct o
           end;
      js_run; rewrite ?Hname; reflexivity.
Qed.

End SponsorshipNamer.

(** With the table modelled from the spec: a mapped pair, an unknown action
    and an unmapped kind. *)
Lemma sponsorship_name_by_action_witness :
  encodeSponsorshipEffectName effectKindsTable "created" "trustline"
  = Return (VStr "trustlineSponsorshipCreated")
  ∧ encodeSponsorshipEffectName effectKindsTable "restored" "trustline"
    = Throw (UnexpectedTxMetaChangeError (VStr "trustline") (VStr "restored"))
  ∧ encodeSponsorshipEffectName effectKindsTable "removed" "contractData" = Return VUndef.
Proof.
  split; [|split].
  - destruct (sponsorship_name_by_action effectKindsTable "created" "trustline")
      as (-> & _); [reflexivity|]. by_evaluation.
  - destruct (sponsorship_name_by_action effectKindsTable "restored" "trustline")
      as (_ & _ & _ & -> & _); done.
  - destruct (sponsorship_name_by_action effectKindsTable "removed" "contractData")
      as (_ & _ & _ & _ & Hmissing).
    apply (Hmissing "Removed").
    + do 2 apply list_elem_of_further. apply list_elem_of_here.
    + by_evaluation.
Defined.

(** C2 as stated fails: the pair ('created', 'contract') is outside the
    table, and the namer returns [undefined] for it without raising. *)
Lemma unmapped_sponsorship_pair_returns_undefined :
  effectKindsTable !! "contractSponsorshipCreated" = None
  ∧ encodeSponsorshipEffectName effectKindsTable "created" "contract" = Return VUndef
  ∧ ¬ (∃ e, encodeSponsorshipEffectName effectKindsTable "created" "contract" = Throw e).
Proof.
  split; [by_evaluation|].
  split; [by_evaluation|].
  intros [e He]. vm_compute in He. discriminate.
Qed.

(** ** Address normalization (C9) *)

Section Normalization.

Variable decodeMed25519PublicKey : string → Completion (list Z).

(** Every encoded ed25519 public key starts with 'G'. *)
Lemma encodeEd25519PublicKey_prefix data :
  firstChar (StrKey.encodeEd25519PublicKey data) = Some "G"%char.
Proof. reflexivity. Qed.

(** C9.  An address starting with 'G' is returned unchanged; normalizing
    the result of normalizing an address starting with 'M' gives that result
    again (and when the decoder rejects the address, both raise its error);
    an address starting with any other character, or empty, raises the
    TypeError. *)
Theorem normalizeAddress_idempotent address :
  (firstChar address = Some "G"%char →
     normalizeAddress decodeMed25519PublicKey address = Return address)
  ∧ (firstChar address = Some "M"%char →
       (let? normalized := normalizeAddress decodeMed25519PublicKey address in
        normalizeAddress decodeMed25519PublicKey normalized)
       = normalizeAddress decodeMed25519PublicKey address)
  ∧ (firstChar address ≠ Some "G"%char → firstChar address ≠ Some "M"%char →
       normalizeAddress decodeMed25519PublicKey address
       = Throw (TypeError "Expected ED25519 or Muxed address")).
Proof.
  unfold normalizeAddress. repeat split.
  - intros ->. by rewrite bool_decide_eq_true_2.
  - intros ->. rewrite bool_decide_eq_false_2 by done.
    rewrite bool_decide_eq_true_2 by done. simpl negb. cbv iota.
    destruct (decodeMed25519PublicKey address) as [rawBytes|e]; [|reflexivity].
    cbn [cbind]. rewrite encodeEd25519PublicKey_prefix. by rewrite bool_decide_eq_true_2.
  - intros HG HM. rewrite !bool_decide_eq_false_2 by done. reflexivity.
Qed.

End Normalization.

(** The all-zero account, its multiplexed form and a contract address. *)
Lemma normalizeAddress_idempotent_witness :
  normalizeAddress sampleDecoder sampleAccount = Return sampleAccount
  ∧ normalizeAddress sampleDecoder sampleMuxedAccount = Return sampleAccount
  ∧ (let? normalized := normalizeAddress sampleDecoder sampleMuxedAccount in
     normalizeAddress sampleDecoder normalized)
    = normalizeAddress sampleDecoder sampleMuxedAccount
  ∧ normalizeAddress sampleDecoder sampleContract
    = Throw (TypeError "Expected ED25519 or Muxed address").
Proof.
  split; [|split; [|split]].
  - destruct (normalizeAddress_idempotent sampleDecoder sampleAccount) as (HG & _).
    apply HG. reflexivity.
  - by_evaluation.
  - destruct (normalizeAddress_idempotent sampleDecoder sampleMuxedAccount) as (_ & HM & _).
    apply HM. reflexivity.
  - destruct (normalizeAddress_idempotent sampleDecoder sampleContract) as (_ & _ & Hother).
    apply Hother; discriminate.
Defined.

(** ** Token events (C7, C1) *)

Section TokenEvents.

Variable effectTypes : gmap string string.

(** C7.  A diagnostic event whose first topic decodes to 'clawback' always
    raises an error: "Non-standard event" when the topics do not have the
    shape address, address, optional string, and the not-implemented error
    otherwise.  The analyzer is left exactly as it was, so no debit, credit
    or clawback effect is pushed. *)
Theorem clawback_always_throws body type contractId name s :
  topics body !! 0%nat = Some name →
  native name = VStr "clawback" →
  Events.processDiagnosticEvent effectTypes body type contractId s
  = (Throw (GenericError
       (if matchEventTopicsShape (topics body) ["address"; "address"; "str?"]
        then "Check state modifications to confirm the clawback destination"
        else "Non-standard event")), s).
Proof.
  intros Hname Hclawback. unfold Events.processDiagnosticEvent.
  rewrite Hname. unfold xdrParseScVal at 1. js_run. rewrite Hclawback.
  cbn [strictEqStr String.eqb Ascii.eqb Bool.eqb]. cbv iota.
  by destruct (matchEventTopicsShape _ _).
Qed.

Lemma processEventBodyValue_payload body :
  processEventBodyValue (eventData body) = Return (payloadOf body).
Proof.
  unfold processEventBodyValue, payloadOf.
  by destruct (truthy (innerValue (eventData body))).
Qed.

Lemma isContractAddress_string address :
  isContractAddress (VStr address) = Return (contractAddressed address).
Proof. reflexivity. Qed.

(** What a 'transfer' event between two decoded addresses does. *)
Lemma transfer_event_outcome body type asset from to name fromTopic toTopic s :
  topics body !! 0%nat = Some name → native name = VStr "transfer" →
  topics body !! 1%nat = Some fromTopic → native fromTopic = VStr from →
  topics body !! 2%nat = Some toTopic → native toTopic = VStr to →
  let this_source := source (effectAnalyzer s) in
  let debited := defaultSource this_source
                   (transferEffect effectTypes "accountDebited" (VStr from) (VStr asset)
                      (payloadOf body)) in
  let credited := defaultSource this_source
                    (transferEffect effectTypes "accountCredited" (VStr to) (VStr asset)
                       (payloadOf body)) in
  let outcome := Events.processDiagnosticEvent effectTypes body type (VStr asset) s in
  outcome.1 = Return tt
  ∧ callStack outcome.2 = callStack s
  ∧ effectList (effectAnalyzer outcome.2)
    = effectList (effectAnalyzer s)
      ++ (if negb (contractAddressed asset) || contractAddressed from then [debited] else [])
      ++ (if negb (contractAddressed asset) || contractAddressed to then [credited] else []).
Proof.
  intros Hname Htransfer Hfrom Hfromv Hto Htov.
  unfold Events.processDiagnosticEvent.
  rewrite Hname, Hfrom, Hto, processEventBodyValue_payload. unfold xdrParseScVal.
  js_run. rewrite Htransfer, Hfromv, Htov.
  cbn [strictEqStr String.eqb Ascii.eqb Bool.eqb]. cbv iota.
  rewrite !isContractAddress_string.
  unfold Events.debit, Events.credit, transferEffect.
  destruct (contractAddressed asset), (contractAddressed from), (contractAddressed to);
    js_run; cbn [negb orb]; effects_run; repeat split; reflexivity.
Qed.


End TokenEvents.

(** A clawback event of the standard shape and one without topics. *)
Lemma clawback_always_throws_witness :
  Events.processDiagnosticEvent effectKindsTable sampleClawback EVENT_TYPES_CONTRACT
    (VStr sampleContract) (freshEvents None)
  = (Throw (GenericError "Check state modifications to confirm the clawback destination"),
     freshEvents None)
  ∧ Events.processDiagnosticEvent effectKindsTable bareClawback EVENT_TYPES_CONTRACT
      (VStr sampleContract) (freshEvents None)
    = (Throw (GenericError "Non-standard event"), freshEvents None).
Proof.
  split.
  - rewrite (clawback_always_throws effectKindsTable sampleClawback EVENT_TYPES_CONTRACT
               (VStr sampleContract) topicClawback (freshEvents None) eq_refl eq_refl).
    reflexivity.
  - rewrite (clawback_always_throws effectKindsTable bareClawback EVENT_TYPES_CONTRACT
               (VStr sampleContract) topicClawback (freshEvents None) eq_refl eq_refl).
    reflexivity.
Defined.



(** ** The call stack (C6) *)

Section CallStack.

Variable effectTypes : gmap string string.

Lemma invocationEffect_depth contractTopic functionTopic body depth :
  invocationEffect effectTypes contractTopic functionTopic body depth !! "depth"
  = match depth with
    | O => None
    | S _ => Some (VNum (Z.of_nat depth))
    end.
Proof.
  unfold invocationEffect. destruct depth; simpl negb; cbv iota.
  - reflexivity.
  - apply lookup_insert_eq.
Qed.

(** A 'fn_call' event pushes one frame and one invocation effect. *)
Lemma fn_call_pushes body type contractId name contractTopic functionTopic s :
  topics body !! 0%nat = Some name → native name = VStr "fn_call" →
  topics body !! 1%nat = Some contractTopic →
  topics body !! 2%nat = Some functionTopic →
  let outcome := Events.processDiagnosticEvent effectTypes body type contractId s in
  outcome.1 = Return tt
  ∧ callStack outcome.2 = allocated (effectAnalyzer s) :: callStack s
  ∧ effectList (effectAnalyzer outcome.2)
    = effectList (effectAnalyzer s)
      ++ [defaultSource (source (effectAnalyzer s))
            (invocationEffect effectTypes contractTopic functionTopic body
               (length (callStack s)))].
Proof.
  intros Hname Hcall Hcontract Hfunction.
  unfold Events.processDiagnosticEvent.
  rewrite Hname, Hcontract, Hfunction, processEventBodyValue_payload. unfold xdrParseScVal.
  js_run. rewrite Hcall.
  cbn [strictEqStr String.eqb Ascii.eqb Bool.eqb]. cbv iota.
  unfold setCallStack, invocationEffect.
  destruct (callStack s) as [|frame stack]; js_run; cbn [length Nat.eqb negb];
    effects_run; repeat split; reflexivity.
Qed.

(** A diagnostic 'fn_return' event pops the top frame. *)
Lemma fn_return_pops body contractId name s :
  topics body !! 0%nat = Some name → native name = VStr "fn_return" →
  let outcome := Events.processDiagnosticEvent effectTypes body EVENT_TYPES_DIAGNOSTIC
                   contractId s in
  callStack outcome.2 = tail (callStack s)
  ∧ (callStack s ≠ [] → outcome.1 = Return tt)
  ∧ length (effectList (effectAnalyzer outcome.2)) = length (effectList (effectAnalyzer s)).
Proof.
  intros Hname Hreturn.
  unfold Events.processDiagnosticEvent.
  rewrite Hname. unfold xdrParseScVal. js_run. rewrite Hreturn.
  cbn [strictEqStr String.eqb Ascii.eqb Bool.eqb]. cbv iota.
  change (EVENT_TYPES_DIAGNOSTIC =? EVENT_TYPES_DIAGNOSTIC) with true.
  cbn [negb]. cbv iota.
  unfold setCallStack, Events.patch.
  destruct (String.eqb (switchName (eventData body)) "scvVoid"),
           (callStack s) as [|frame stack];
    js_run; cbn [negb head tail]; effects_run;
    repeat split; try reflexivity; try done;
    by rewrite !length_fmap.
Qed.

Lemma shape_has_first_topic topics entry shape :
  endsWithQuestionMark entry = false →
  matchEventTopicsShape topics (entry :: shape) = true →
  is_Some (topics !! 1%nat).
Proof.
  intros Hrequired. unfold matchEventTopicsShape.
  destruct (_ <? _)%nat; [discriminate|].
  simpl. rewrite Hrequired. destruct (topics !! 1%nat); [eauto | discriminate].
Qed.

Lemma mint_keeps_stack body type contractId name s :
  topics body !! 0%nat = Some name → native name = VStr "mint" →
  matchEventTopicsShape (topics body) ["address"; "address"; "str?"] = true →
  let outcome := Events.processDiagnosticEvent effectTypes body type contractId s in
  outcome.1 = Return tt ∧ callStack outcome.2 = callStack s.
Proof.
  intros Hname Hmint Hshape.
  destruct (shape_has_first_topic (topics body) "address" _ eq_refl Hshape) as [to Hto].
  unfold Events.processDiagnosticEvent.
  rewrite Hname, Hto, Hshape, processEventBodyValue_payload. unfold xdrParseScVal.
  js_run. rewrite Hmint.
  cbn [strictEqStr String.eqb Ascii.eqb Bool.eqb negb]. cbv iota.
  unfold Events.credit. js_run. split; reflexivity.
Qed.

Lemma burn_keeps_stack body type contractId name s :
  topics body !! 0%nat = Some name → native name = VStr "burn" →
  matchEventTopicsShape (topics body) ["address"; "str?"] = true →
  let outcome := Events.processDiagnosticEvent effectTypes body type contractId s in
  outcome.1 = Return tt ∧ callStack outcome.2 = callStack s.
Proof.
  intros Hname Hburn Hshape.
  destruct (shape_has_first_topic (topics body) "address" _ eq_refl Hshape) as [from Hfrom].
  unfold Events.processDiagnosticEvent.
  rewrite Hname, Hfrom, Hshape, processEventBodyValue_payload. unfold xdrParseScVal.
  js_run. rewrite Hburn.
  cbn [strictEqStr String.eqb Ascii.eqb Bool.eqb negb]. cbv iota.
  unfold Events.debit. js_run. split; reflexivity.
Qed.

Lemma decodesToString_Some topic :
  decodesToString topic = true → ∃ t address, topic = Some t ∧ native t = VStr address.
Proof.
  destruct topic as [t|]; [|discriminate]. simpl.
  destruct (native t) eqn:Hnative; try discriminate. eauto.
Qed.

Lemma non_diagnostic_return_ignored body type contractId name s :
  topics body !! 0%nat = Some name → native name = VStr "fn_return" →
  type ≠ EVENT_TYPES_DIAGNOSTIC →
  Events.processDiagnosticEvent effectTypes body type contractId s = (Return tt, s).
Proof.
  intros Hname Hreturn Htype.
  unfold Events.processDiagnosticEvent.
  rewrite Hname. unfold xdrParseScVal. js_run. rewrite Hreturn.
  cbn [strictEqStr String.eqb Ascii.eqb Bool.eqb]. cbv iota.
  destruct (Z.eqb_spec type EVENT_TYPES_DIAGNOSTIC); [done | reflexivity].
Qed.

Lemma other_event_ignored body type contractId name s :
  topics body !! 0%nat = Some name →
  strictEqStr (native name) "fn_call" = false →
  strictEqStr (native name) "fn_return" = false →
  strictEqStr (native name) "transfer" = false →
  strictEqStr (native name) "mint" = false →
  strictEqStr (native name) "burn" = false →
  strictEqStr (native name) "clawback" = false →
  Events.processDiagnosticEvent effectTypes body type contractId s = (Return tt, s).
Proof.
  intros Hname H1 H2 H3 H4 H5 H6.
  unfold Events.processDiagnosticEvent.
  rewrite Hname. unfold xdrParseScVal. js_run.
  by rewrite H1, H2, H3, H4, H5, H6.
Qed.

(** One turn of the loop, by what the event does to the stack. *)
Lemma analyzeDiagnosticEvent_stack evt action s :
  stackAction evt = Some action →
  (action = Pop → callStack s ≠ []) →
  (Events.analyzeDiagnosticEvent effectTypes evt s).1 = Return tt
  ∧ length (callStack (Events.analyzeDiagnosticEvent effectTypes evt s).2)
    = match action with
      | Push => S (length (callStack s))
      | Pop => pred (length (callStack s))
      | Keep => length (callStack s)
      end.
Proof.
  unfold stackAction, Events.analyzeDiagnosticEvent.
  destruct (inSuccessfulContractCall evt); [|discriminate]. cbn [negb]. cbv iota.
  set (evBody := body (event evt)). set (type := eventType (event evt)).
  destruct (topics evBody !! 0%nat) as [name|] eqn:Hname; [|discriminate].
  intros Haction Hpop.
  destruct (strictEqStr (native name) "fn_call") eqn:Hcall.
  { apply strictEqStr_true in Hcall.
    destruct (topics evBody !! 1%nat) as [contractTopic|] eqn:H1; [|discriminate].
    destruct (topics evBody !! 2%nat) as [functionTopic|] eqn:H2; [|discriminate].
    injection Haction as <-.
    match goal with
    | |- context [Events.processDiagnosticEvent _ _ _ ?asset _] =>
        destruct (fn_call_pushes evBody type asset name contractTopic functionTopic s
                    Hname Hcall H1 H2) as (Hc & Hs & _)
    end.
    split; [exact Hc|]. by rewrite Hs. }
  destruct (strictEqStr (native name) "fn_return") eqn:Hreturn.
  { apply strictEqStr_true in Hreturn.
    destruct (Z.eqb_spec type EVENT_TYPES_DIAGNOSTIC) as [Hdiag|Hother];
      injection Haction as <-.
    - rewrite Hdiag.
      match goal with
      | |- context [Events.processDiagnosticEvent _ _ _ ?asset _] =>
          destruct (fn_return_pops evBody asset name s Hname Hreturn) as (Hs & Hc & _)
      end.
      split; [by apply Hc, Hpop|]. rewrite Hs. by destruct (callStack s).
    - by rewrite (non_diagnostic_return_ignored _ _ _ _ _ Hname Hreturn Hother). }
  destruct (strictEqStr (native name) "transfer") eqn:Htransfer.
  { apply strictEqStr_true in Htransfer.
    destruct (contractId (event evt)) as [asset|]; [|discriminate].
    destruct (decodesToString (topics evBody !! 1%nat)) eqn:Hfrom; [|discriminate].
    destruct (decodesToString (topics evBody !! 2%nat)) eqn:Hto; [|discriminate].
    injection Haction as <-.
    apply decodesToString_Some in Hfrom as (fromTopic & from & Hfrom & Hfromv).
    apply decodesToString_Some in Hto as (toTopic & to & Hto & Htov).
    destruct (transfer_event_outcome effectTypes evBody type asset from to name fromTopic
                toTopic s Hname Htransfer Hfrom Hfromv Hto Htov) as (Hc & Hs & _).
    split; [exact Hc|]. by rewrite Hs. }
  destruct (strictEqStr (native name) "mint") eqn:Hmint.
  { apply strictEqStr_true in Hmint.
    destruct (matchEventTopicsShape _ _) eqn:Hshape; [|discriminate].
    injection Haction as <-.
    match goal with
    | |- context [Events.processDiagnosticEvent _ _ _ ?asset _] =>
        destruct (mint_keeps_stack evBody type asset name s Hname Hmint Hshape) as (Hc & Hs)
    end.
    split; [exact Hc|]. by rewrite Hs. }
  destruct (strictEqStr (native name) "burn") eqn:Hburn.
  { apply strictEqStr_true in Hburn.
    destruct (matchEventTopicsShape _ _) eqn:Hshape; [|discriminate].
    injection Haction as <-.
    match goal with
    | |- context [Events.processDiagnosticEvent _ _ _ ?asset _] =>
        destruct (burn_keeps_stack evBody type asset name s Hname Hburn Hshape) as (Hc & Hs)
    end.
    split; [exact Hc|]. by rewrite Hs. }
  destruct (strictEqStr (native name) "clawback") eqn:Hclawback; [discriminate|].
  injection Haction as <-.
  by rewrite (other_event_ignored _ _ _ _ _ Hname Hcall Hreturn Htransfer Hmint Hburn Hclawback).
Qed.

(** The loop over a list of events follows [nesting]. *)
Lemma forOf_nesting evs s depth :
  nesting evs (length (callStack s)) = Some depth →
  (forOf evs (Events.analyzeDiagnosticEvent effectTypes) s).1 = Return tt
  ∧ length (callStack (forOf evs (Events.analyzeDiagnosticEvent effectTypes) s).2) = depth.
Proof.
  revert s. induction evs as [|evt evs IH]; intros s Hnesting; simpl in Hnesting.
  - injection Hnesting as <-. split; reflexivity.
  - destruct (stackAction evt) as [action|] eqn:Haction; [|discriminate].
    assert (Hpop : action = Pop → callStack s ≠ []).
    { intros ->. by destruct (callStack s). }
    destruct (analyzeDiagnosticEvent_stack evt action s Haction Hpop) as (Hc & Hs).
    simpl forOf. unfold bind.
    destruct (Events.analyzeDiagnosticEvent effectTypes evt s) as [c s1].
    simpl in Hc, Hs. subst c.
    apply IH. rewrite Hs.
    destruct action; [done | | done].
    by destruct (length (callStack s)).
Qed.

Lemma analyzeDiagnosticEvents_balanced evs s :
  diagnosticEvents (effectAnalyzer s) = Some evs →
  callStack s = [] →
  wellFormed evs →
  (Events.analyzeDiagnosticEvents effectTypes s).1 = Return tt
  ∧ callStack (Events.analyzeDiagnosticEvents effectTypes s).2 = [].
Proof.
  intros Hevs Hempty Hwf.
  unfold Events.analyzeDiagnosticEvents. js_run. rewrite Hevs.
  destruct (forOf_nesting evs s 0) as (Hc & Hs).
  { by rewrite Hempty. }
  split; [exact Hc|]. by apply nil_length_inv.
Qed.

(** C6.  A 'fn_call' event completes normally, pushes one frame and pushes
    one invocation effect at the end of the effect list; that effect has a
    [depth] property if and only if the call stack was not empty before the
    push, and its value is then the size of the stack before the push.  A
    diagnostic-class 'fn_return' event pops the top frame: on a non-empty
    stack it completes normally and leaves the stack one frame shorter.  So
    the analysis of a well-formed diagnostic event list, started on an empty
    call stack, completes normally with an empty call stack. *)
Theorem call_stack_discipline :
  (∀ body type contractId name contractTopic functionTopic s,
     topics body !! 0%nat = Some name → native name = VStr "fn_call" →
     topics body !! 1%nat = Some contractTopic →
     topics body !! 2%nat = Some functionTopic →
     let outcome := Events.processDiagnosticEvent effectTypes body type contractId s in
     let pushed := defaultSource (source (effectAnalyzer s))
                     (invocationEffect effectTypes contractTopic functionTopic body
                        (length (callStack s))) in
     outcome.1 = Return tt
     ∧ length (callStack outcome.2) = S (length (callStack s))
     ∧ effectList (effectAnalyzer outcome.2) = effectList (effectAnalyzer s) ++ [pushed]
     ∧ pushed !! "depth" = match callStack s with
                           | [] => None
                           | _ :: _ => Some (VNum (Z.of_nat (length (callStack s))))
                           end)
  ∧ (∀ body contractId name s,
       topics body !! 0%nat = Some name → native name = VStr "fn_return" →
       let outcome := Events.processDiagnosticEvent effectTypes body EVENT_TYPES_DIAGNOSTIC
                        contractId s in
       callStack outcome.2 = tail (callStack s)
       ∧ (callStack s ≠ [] →
            outcome.1 = Return tt
            ∧ S (length (callStack outcome.2)) = length (callStack s)))
  ∧ (∀ evs s,
       diagnosticEvents (effectAnalyzer s) = Some evs →
       callStack s = [] →
       wellFormed evs →
       (Events.analyzeDiagnosticEvents effectTypes s).1 = Return tt
       ∧ callStack (Events.analyzeDiagnosticEvents effectTypes s).2 = []).
Proof.
  split; [|split].
  - intros body type contractId name contractTopic functionTopic s Hname Hcall H1 H2.
    destruct (fn_call_pushes body type contractId name contractTopic functionTopic s
                Hname Hcall H1 H2) as (Hc & Hs & Hl).
    cbv zeta. split; [exact Hc|]. split; [by rewrite Hs|]. split; [exact Hl|].
    rewrite defaultSource_lookup_ne by done. rewrite invocationEffect_depth.
    by destruct (callStack s).
  - intros body contractId name s Hname Hreturn.
    destruct (fn_return_pops body contractId name s Hname Hreturn) as (Hs & Hc & _).
    cbv zeta. split; [exact Hs|]. intros Hne. split; [by apply Hc|].
    rewrite Hs. by destruct (callStack s).
  - intros evs s. apply analyzeDiagnosticEvents_balanced.
Qed.

End CallStack.

(** A top-level call and its return, then the nested sample list: the outer
    invocation has no depth and receives its result, the inner one has depth
    1, and the stack ends empty. *)
Lemma call_stack_discipline_witness :
  let topLevel := Events.processDiagnosticEvent effectKindsTable
                    (callOf addressSampleContract topicSwap) EVENT_TYPES_DIAGNOSTIC VNull
                    (freshEvents None) in
  let returned := Events.processDiagnosticEvent effectKindsTable
                    (returnOf topicSwap scvVoid) EVENT_TYPES_DIAGNOSTIC VNull topLevel.2 in
  (length (callStack topLevel.2) = 1%nat
   ∧ effectList (effectAnalyzer topLevel.2)
     = [ {[ "type" := VStr "contractInvoked"; "source" := VStr sampleAccount;
            "contract" := VStr sampleContract; "function" := VStr "swap";
            "args" := VUndef ]} ])
  ∧ (returned.1 = Return tt ∧ callStack returned.2 = [])
  ∧ wellFormed nestedCalls
  ∧ (Events.analyzeDiagnosticEvents effectKindsTable (freshEvents (Some nestedCalls))).1
    = Return tt
  ∧ callStack (Events.analyzeDiagnosticEvents effectKindsTable
                 (freshEvents (Some nestedCalls))).2 = []
  ∧ effectList (effectAnalyzer (Events.analyzeDiagnosticEvents effectKindsTable
                                  (freshEvents (Some nestedCalls))).2)
    = [ {[ "type" := VStr "contractInvoked"; "source" := VStr sampleAccount;
           "contract" := VStr sampleContract; "function" := VStr "swap";
           "args" := VUndef; "result" := VStr "AAAAAwAAAAc=" ]};
        {[ "type" := VStr "contractInvoked"; "source" := VStr sampleAccount;
           "contract" := VStr otherContract; "function" := VStr "transfer";
           "args" := VUndef; "depth" := VNum 1 ]};
        {[ "type" := VStr "accountCredited"; "source" := VStr otherContract;
           "asset" := VStr otherContract; "amount" := VStr "5" ]} ].
Proof.
  intros topLevel returned.
  assert (Hwf : wellFormed nestedCalls) by reflexivity.
  destruct (call_stack_discipline effectKindsTable) as (Hcall & Hreturn & Hloop).
  destruct (Hcall (callOf addressSampleContract topicSwap) EVENT_TYPES_DIAGNOSTIC VNull
              topicFnCall addressSampleContract topicSwap (freshEvents None)
              eq_refl eq_refl eq_refl eq_refl) as (_ & Hpushed & Heffects & _).
  destruct (Hreturn (returnOf topicSwap scvVoid) VNull topicFnReturn topLevel.2
              eq_refl eq_refl) as (Hpopped & Hnormal).
  destruct (Hloop nestedCalls (freshEvents (Some nestedCalls)) eq_refl eq_refl Hwf)
    as (Hc & Hs).
  split; [split; [exact Hpushed | etransitivity; [exact Heffects | by_evaluation]]|].
  split; [split; [apply Hnormal | etransitivity; [exact Hpopped | by_evaluation]]|].
  - subst topLevel. intros Hempty. apply (f_equal length) in Hempty.
    rewrite Hpushed in Hempty. discriminate.
  - split; [exact Hwf|]. split; [exact Hc|]. split; [exact Hs|]. by_evaluation.
Defined.

(* ================================================================== *)
(** * Further properties of the analyzers *)
(* ================================================================== *)

(** ** Amount strings *)

Example adjustPrecision_samples :
  adjustPrecision "0" = "0"
  ∧ adjustPrecision "10000000" = "1"
  ∧ adjustPrecision "12345678" = "1.2345678"
  ∧ adjustPrecision "-500" = "-0.00005"
  ∧ adjustPrecision "1230000000" = "123"
  ∧ trimZeros "1.500" = "1.5"
  ∧ trimZeros "12.000" = "12"
  ∧ trimZeros "12." = "12"
  ∧ trimZeros "1.50.70" = "1.5"
  ∧ stroopsOf "-0.00005" = -500.
Proof. repeat apply conj; by_evaluation. Qed.

Section StringFacts.

Lemma append_cons c (s t : string) : String c s +:+ t = String c (s +:+ t).
Proof. reflexivity. Qed.

Lemma append_empty_r (s : string) : s +:+ "" = s.
Proof. induction s as [|c s IH]; [reflexivity|]. by rewrite append_cons, IH. Qed.

Lemma append_assoc (s t u : string) : (s +:+ t) +:+ u = s +:+ t +:+ u.
Proof. induction s as [|c s IH]; [reflexivity|]. by rewrite !append_cons, IH. Qed.

Lemma length_append (s t : string) :
  String.length (s +:+ t) = (String.length s + String.length t)%nat.
Proof. induction s as [|c s IH]; [reflexivity|]. rewrite append_cons. simpl. by rewrite IH. Qed.

Lemma length_repeatChar n c : String.length (repeatChar n c) = n.
Proof. induction n as [|n IH]; simpl; [reflexivity | by rewrite IH]. Qed.

Lemma stringTake_drop n (s : string) : stringTake n s +:+ stringDrop n s = s.
Proof.
  revert s. induction n as [|n IH]; intros [|c s]; try reflexivity.
  simpl. by rewrite append_cons, IH.
Qed.

Lemma length_stringDrop n (s : string) :
  String.length (stringDrop n s) = (String.length s - n)%nat.
Proof.
  revert s. induction n as [|n IH]; intros [|c s]; try reflexivity.
  simpl. apply IH.
Qed.

Lemma length_stringTake n (s : string) :
  String.length (stringTake n s) = Nat.min n (String.length s).
Proof.
  revert s. induction n as [|n IH]; intros [|c s]; try reflexivity.
  simpl. by rewrite IH.
Qed.

Lemma length_padStart n c (s : string) :
  String.length (padStart n c s) = Nat.max n (String.length s).
Proof. unfold padStart. rewrite length_append, length_repeatChar. lia. Qed.

(** Stripping the trailing zeros and writing them again gives the string
    back. *)
Lemma stripZeros_repad (s : string) :
  stripZeros s +:+ repeatChar (String.length s - String.length (stripZeros s)) "0" = s.
Proof.
  induction s as [|c s IH]; [reflexivity|]. simpl.
  destruct (stripZeros s) as [|d t] eqn:Hstrip.
  - change (repeatChar (String.length s - 0) "0" = s) in IH.
    rewrite Nat.sub_0_r in IH.
    destruct (Ascii.eqb_spec c "0") as [->|Hc].
    + change (String "0" (repeatChar (String.length s) "0") = String "0" s).
      by rewrite IH.
    + change (String c (repeatChar (String.length s - 0) "0") = String c s).
      by rewrite Nat.sub_0_r, IH.
  - rewrite append_cons. f_equal. exact IH.
Qed.

Lemma length_stripZeros (s : string) :
  (String.length (stripZeros s) <= String.length s)%nat.
Proof.
  induction s as [|c s IH]; simpl; [lia|].
  destruct (stripZeros s); [destruct (Ascii.eqb c "0")|]; simpl in *; lia.
Qed.

Lemma stripZeros_idemp (s : string) : stripZeros (stripZeros s) = stripZeros s.
Proof.
  induction s as [|c s IH]; [reflexivity|]. simpl.
  destruct (stripZeros s) as [|d t] eqn:Hstrip.
  - destruct (Ascii.eqb c "0") eqn:Hc; [reflexivity|]. simpl. by rewrite Hc.
  - simpl. simpl in IH. by rewrite IH.
Qed.

Lemma stripZeros_zeros n : stripZeros (repeatChar n "0") = "".
Proof. induction n as [|n IH]; simpl; [reflexivity | by rewrite IH]. Qed.

Lemma stripZeros_append_zeros (s : string) n :
  stripZeros (s +:+ repeatChar n "0") = stripZeros s.
Proof.
  induction s as [|c s IH].
  - apply stripZeros_zeros.
  - rewrite append_cons. simpl. by rewrite IH.
Qed.

End StringFacts.

Section AmountStrings.

Lemma digitsValueFrom_spec acc (s : string) :
  digitsValueFrom acc s = acc * 10 ^ Z.of_nat (String.length s) + digitsValue s.
Proof.
  unfold digitsValue. revert acc. induction s as [|c s IH]; intros acc.
  - simpl. lia.
  - cbn [digitsValueFrom String.length]. rewrite (IH (10 * acc + digitOf c)), (IH (10 * 0 + digitOf c)).
    rewrite Nat2Z.inj_succ, Z.pow_succ_r by lia. lia.
Qed.

Lemma digitsValueFrom_append acc (a b : string) :
  digitsValueFrom acc (a +:+ b) = digitsValueFrom (digitsValueFrom acc a) b.
Proof.
  revert acc. induction a as [|c a IH]; intros acc; [reflexivity|].
  rewrite append_cons. cbn [digitsValueFrom]. apply IH.
Qed.

Lemma digitsValue_append (a b : string) :
  digitsValue (a +:+ b) = digitsValue a * 10 ^ Z.of_nat (String.length b) + digitsValue b.
Proof.
  unfold digitsValue at 1. rewrite digitsValueFrom_append.
  apply digitsValueFrom_spec.
Qed.

Lemma digitsValue_zeros n : digitsValue (repeatChar n "0") = 0.
Proof.
  unfold digitsValue. induction n as [|n IH]; [reflexivity|].
  cbn [repeatChar digitsValueFrom]. exact IH.
Qed.

Lemma allDigits_append (a b : string) :
  allDigits (a +:+ b) = allDigits a && allDigits b.
Proof.
  induction a as [|c a IH]; [reflexivity|].
  rewrite append_cons. simpl. rewrite IH. by rewrite andb_assoc.
Qed.

Lemma allDigits_splitDot (s : string) : allDigits s = true → splitDot s = (s, None).
Proof.
  induction s as [|c s IH]; [reflexivity|]. simpl.
  intros [Hc Hs]%andb_prop. rewrite (IH Hs).
  destruct (Ascii.eqb_spec c ".") as [->|]; [discriminate | reflexivity].
Qed.

Lemma splitDot_join (integer rest : string) :
  allDigits integer = true → splitDot (integer +:+ "." +:+ rest) = (integer, Some rest).
Proof.
  induction integer as [|c s IH]; intros Hdigits; [reflexivity|].
  cbn [allDigits] in Hdigits. apply andb_prop in Hdigits as [Hc Hs].
  rewrite append_cons. cbn [splitDot]. rewrite (IH Hs).
  destruct (Ascii.eqb_spec c ".") as [->|]; [discriminate | reflexivity].
Qed.

Lemma allDigits_unsigned c (s : string) :
  allDigits (String c s) = true → Ascii.eqb c "-" = false.
Proof.
  simpl. intros [Hc _]%andb_prop.
  destruct (Ascii.eqb_spec c "-") as [->|]; [discriminate | reflexivity].
Qed.

Lemma allDigits_parts n (s : string) :
  allDigits s = true → allDigits (stringTake n s) = true ∧ allDigits (stringDrop n s) = true.
Proof.
  intros Hs. rewrite <- (stringTake_drop n s), allDigits_append in Hs.
  by apply andb_prop in Hs.
Qed.

(** The integer part and the seven fraction digits [adjustPrecision] cuts a
    digit string into carry its value. *)
Lemma cut_value (value : string) :
  let integer := if (String.length value <=? 7)%nat then "0"
                 else stringTake (String.length value - 7) value in
  let fraction := padStart 7 "0" (stringDrop (String.length value - 7) value) in
  String.length fraction = 7%nat
  ∧ digitsValue integer * 10 ^ 7 + digitsValue fraction = digitsValue value.
Proof.
  intros integer fraction. subst integer fraction.
  destruct (Nat.leb_spec (String.length value) 7) as [Hshort|Hlong].
  - replace (String.length value - 7)%nat with 0%nat by lia.
    change (stringDrop 0 value) with value.
    split; [rewrite length_padStart; lia|].
    unfold padStart. rewrite digitsValue_append, digitsValue_zeros.
    change (digitsValue "0") with 0. lia.
  - assert (Hlen : String.length (stringDrop (String.length value - 7) value) = 7%nat).
    { rewrite length_stringDrop. lia. }
    unfold padStart. rewrite Hlen. change (repeatChar (7 - 7) "0" +:+ ?x) with x.
    split; [exact Hlen|].
    transitivity (digitsValue (stringTake (String.length value - 7) value
                               +:+ stringDrop (String.length value - 7) value)).
    + rewrite digitsValue_append, Hlen. reflexivity.
    + by rewrite stringTake_drop.
Qed.

Lemma adjustPrecision_unsigned (value : string) :
  allDigits value = true → value ≠ "" →
  stroopsOf (adjustPrecision value) = digitsValue value
  ∧ (∃ c rest, adjustPrecision value = String c rest ∧ Ascii.eqb c "-" = false).
Proof.
  intros Hdigits Hne. unfold adjustPrecision.
  destruct (String.eqb_spec value "0") as [->|Hnz].
  { split; [reflexivity | by exists "0"%char, ""]. }
  destruct value as [|c0 v0] eqn:Hvalue; [done|]. rewrite <- Hvalue in *.
  assert (Hsign : Ascii.eqb c0 "-" = false).
  { apply (allDigits_unsigned c0 v0). by rewrite <- Hvalue. }
  rewrite ?Hsign. cbv iota.
  destruct (cut_value value) as [Hlen Hcut].
  set (integer := if (String.length value <=? 7)%nat then "0"
                  else stringTake (String.length value - 7) value) in *.
  set (fraction := padStart 7 "0" (stringDrop (String.length value - 7) value)) in *.
  assert (Hint : allDigits integer = true ∧ ∃ c rest, integer = String c rest).
  { unfold integer. destruct (Nat.leb_spec (String.length value) 7) as [|Hlong].
    - split; [reflexivity | by exists "0"%char, ""].
    - split; [by apply allDigits_parts|].
      destruct (stringTake (String.length value - 7) value) as [|c rest] eqn:Htake; [|eauto].
      apply (f_equal String.length) in Htake. rewrite length_stringTake in Htake.
      simpl in Htake. lia. }
  destruct Hint as (Hint & ci & resti & Hinteger).
  assert (Hci : Ascii.eqb ci "-" = false).
  { apply (allDigits_unsigned ci resti). by rewrite <- Hinteger. }
  pose proof (stripZeros_repad fraction) as Hrepad. rewrite Hlen in Hrepad.
  destruct (Nat.eqb_spec (String.length (stripZeros fraction)) 0) as [Hempty|Hsome].
  - split; [|exists ci, resti; by rewrite Hinteger].
    unfold stroopsOf. rewrite Hinteger, Hci. rewrite <- Hinteger.
    rewrite (allDigits_splitDot integer Hint). cbn [default from_option id].
    change (String.length "") with 0%nat. change ("" +:+ ?x) with x.
    rewrite digitsValue_zeros, <- Hcut.
    destruct (stripZeros fraction); [|discriminate].
    change ("" +:+ ?x) with x in Hrepad. change (String.length "") with 0%nat in Hrepad.
    rewrite <- Hrepad, digitsValue_zeros. reflexivity.
  - split; [|exists ci, (resti +:+ "." +:+ stripZeros fraction);
             by rewrite Hinteger, append_cons].
    unfold stroopsOf.
    assert (Hfirst : integer +:+ "." +:+ stripZeros fraction
                     = String ci (resti +:+ "." +:+ stripZeros fraction))
      by (by rewrite Hinteger, append_cons).
    rewrite Hfirst, Hci. rewrite <- Hfirst.
    rewrite (splitDot_join integer _ Hint). cbn [default from_option id].
    rewrite Hrepad. exact Hcut.
Qed.

Lemma adjustPrecision_negative (value : string) :
  allDigits value = true → value ≠ "" →
  adjustPrecision ("-" +:+ value) = "-" +:+ adjustPrecision value.
Proof.
  intros Hdigits Hne. unfold adjustPrecision.
  destruct value as [|c0 v0]; [done|].
  pose proof (allDigits_unsigned c0 v0 Hdigits) as Hsign.
  change ("-" +:+ String c0 v0) with (String "-" (String c0 v0)).
  change (String.eqb (String "-" (String c0 v0)) "0") with false.
  cbn [Ascii.eqb Bool.eqb stringDrop]. rewrite Hsign. cbv iota.
  destruct (String.eqb_spec (String c0 v0) "0") as [Heq|_].
  - injection Heq as -> ->. reflexivity.
  - match goal with |- context [(?n =? 0)%nat] => destruct (n =? 0)%nat end; reflexivity.
Qed.

(** X1.  Reading back what [adjustPrecision] writes gives the stroops: for every
    non-empty string of decimal digits, with or without a minus sign in
    front, the human-decimal amount denotes the integer of the input divided
    by 10^7, exactly. *)
Theorem adjustPrecision_preserves_amount (value : string) :
  allDigits value = true → value ≠ "" →
  stroopsOf (adjustPrecision value) = digitsValue value
  ∧ stroopsOf (adjustPrecision ("-" +:+ value)) = - digitsValue value.
Proof.
  intros Hdigits Hne.
  destruct (adjustPrecision_unsigned value Hdigits Hne) as (Hvalue & c & rest & Hshape & Hc).
  split; [exact Hvalue|].
  rewrite (adjustPrecision_negative value Hdigits Hne).
  unfold stroopsOf in Hvalue |- *. rewrite Hshape, Hc in Hvalue.
  change ("-" +:+ adjustPrecision value) with (String "-" (adjustPrecision value)).
  cbn [Ascii.eqb Bool.eqb stringDrop]. cbv iota.
  rewrite Hshape. destruct (splitDot (String c rest)) as [integer fraction].
  by rewrite Hvalue.
Qed.

End AmountStrings.

(** Some stroop amounts and their human-decimal forms. *)
Lemma adjustPrecision_preserves_amount_witness :
  adjustPrecision "12345678" = "1.2345678"
  ∧ stroopsOf (adjustPrecision "12345678") = 12345678
  ∧ stroopsOf (adjustPrecision "-500") = -500.
Proof.
  destruct (adjustPrecision_preserves_amount "12345678" eq_refl) as [Hpos _]; [done|].
  destruct (adjustPrecision_preserves_amount "500" eq_refl) as [_ Hneg]; [done|].
  repeat apply conj; [reflexivity | exact Hpos | exact Hneg].
Defined.

Section TrimmedAmounts.

Lemma splitDot_first (s : string) : splitDot (splitDot s).1 = ((splitDot s).1, None).
Proof.
  induction s as [|c s IH]; [reflexivity|]. cbn [splitDot].
  destruct (Ascii.eqb c ".") eqn:Hc; [reflexivity|].
  destruct (splitDot s) as [first rest]. cbn [fst] in *. cbn [splitDot].
  by rewrite Hc, IH.
Qed.

Lemma splitDot_joined (first rest : string) :
  splitDot first = (first, None) → splitDot (first +:+ "." +:+ rest) = (first, Some rest).
Proof.
  induction first as [|c s IH]; intros Hfirst; [reflexivity|].
  rewrite append_cons. cbn [splitDot] in Hfirst |- *.
  destruct (Ascii.eqb c "."); [discriminate|].
  destruct (splitDot s) as [first' rest'] eqn:Hs.
  injection Hfirst as -> ->. by rewrite IH.
Qed.

Lemma splitDot_prefix (a b : string) :
  splitDot (a +:+ b) = (a +:+ b, None) → splitDot a = (a, None).
Proof.
  induction a as [|c a IH]; intros Hab; [reflexivity|].
  rewrite append_cons in Hab. cbn [splitDot] in Hab |- *.
  destruct (Ascii.eqb c "."); [discriminate|].
  destruct (splitDot (a +:+ b)) as [first rest] eqn:Hs.
  injection Hab as -> ->. by rewrite IH.
Qed.

Lemma splitDot_stripZeros (s : string) :
  splitDot s = (s, None) → splitDot (stripZeros s) = (stripZeros s, None).
Proof.
  intros Hs. apply (splitDot_prefix _
    (repeatChar (String.length s - String.length (stripZeros s)) "0")).
  by rewrite stripZeros_repad.
Qed.

Lemma length_zero_empty (s : string) : (String.length s =? 0)%nat = String.eqb s "".
Proof. by destruct s. Qed.

(** A trimmed amount is left as it is. *)
Lemma trimZeros_trimmed (integer fraction : string) :
  splitDot integer = (integer, None) → splitDot fraction = (fraction, None) →
  fraction ≠ "" → stripZeros fraction = fraction →
  trimZeros (integer +:+ "." +:+ fraction) = integer +:+ "." +:+ fraction.
Proof.
  intros Hint Hfrac Hne Hstripped. unfold trimZeros.
  rewrite (splitDot_joined _ _ Hint), Hfrac. cbn [fst].
  rewrite Hstripped, length_zero_empty.
  destruct (String.eqb_spec fraction ""); done.
Qed.

Lemma trimZeros_without_dot (value : string) :
  splitDot value = (value, None) → trimZeros value = value.
Proof. intros Hvalue. unfold trimZeros. by rewrite Hvalue. Qed.

(** X3.  Trimming twice is trimming once, for every string. *)
Theorem trimZeros_idempotent (value : string) :
  trimZeros (trimZeros value) = trimZeros value.
Proof.
  set (trimmed := trimZeros value). unfold trimZeros in trimmed. subst trimmed.
  pose proof (splitDot_first value) as Hint.
  destruct (splitDot value) as [integer [rest|]]; cbn [fst] in Hint;
    [|by apply trimZeros_without_dot].
  pose proof (splitDot_first rest) as Hfrac.
  set (fractional := (splitDot rest).1) in *.
  destruct (String.eqb fractional ""); [by apply trimZeros_without_dot|].
  rewrite length_zero_empty.
  destruct (String.eqb_spec (stripZeros fractional) "") as [|Hne];
    [by apply trimZeros_without_dot|].
  apply trimZeros_trimmed; try done.
  - by apply splitDot_stripZeros.
  - apply stripZeros_idemp.
Qed.

(** X4.  A string without a dot is returned unchanged, and the trailing zeros of
    a fraction never change the result. *)
Theorem trimZeros_drops_trailing_zeros (integer fraction : string) n :
  splitDot integer = (integer, None) → splitDot fraction = (fraction, None) →
  trimZeros integer = integer
  ∧ trimZeros (integer +:+ "." +:+ fraction +:+ repeatChar n "0")
    = trimZeros (integer +:+ "." +:+ fraction)
  ∧ trimZeros (integer +:+ "." +:+ repeatChar n "0") = integer.
Proof.
  intros Hint Hfrac.
  assert (Hzeros : ∀ k, splitDot (repeatChar k "0") = (repeatChar k "0", None)).
  { induction k as [|k IH]; [reflexivity|]. cbn [repeatChar splitDot Ascii.eqb Bool.eqb].
    by rewrite IH. }
  assert (Hpadded : ∀ f k, splitDot f = (f, None) →
            splitDot (f +:+ repeatChar k "0") = (f +:+ repeatChar k "0", None)).
  { induction f as [|c f IH]; intros k Hf; [apply Hzeros|].
    rewrite append_cons. cbn [splitDot] in Hf |- *.
    destruct (Ascii.eqb c "."); [discriminate|].
    destruct (splitDot f) as [first rest] eqn:Hs. injection Hf as -> ->.
    by rewrite IH. }
  assert (Hall : ∀ f, splitDot f = (f, None) →
            trimZeros (integer +:+ "." +:+ f)
            = if String.eqb (stripZeros f) "" then integer
              else integer +:+ "." +:+ stripZeros f).
  { intros f Hf. unfold trimZeros. rewrite (splitDot_joined _ _ Hint), Hf. cbn [fst].
    rewrite length_zero_empty.
    destruct (String.eqb_spec f "") as [->|]; [reflexivity|]. reflexivity. }
  split; [by apply trimZeros_without_dot|]. split.
  - rewrite (Hall _ (Hpadded fraction n Hfrac)), (Hall _ Hfrac).
    by rewrite stripZeros_append_zeros.
  - rewrite (Hall _ (Hzeros n)). by rewrite stripZeros_zeros.
Qed.

(** X2.  What [adjustPrecision] writes is already trimmed. *)
Theorem adjustPrecision_is_trimmed (value : string) :
  allDigits value = true → value ≠ "" →
  trimZeros (adjustPrecision value) = adjustPrecision value
  ∧ trimZeros (adjustPrecision ("-" +:+ value)) = adjustPrecision ("-" +:+ value).
Proof.
  intros Hdigits Hne.
  assert (Hshape : ∃ integer fraction,
            allDigits integer = true ∧ allDigits fraction = true
            ∧ adjustPrecision value
              = if String.eqb (stripZeros fraction) "" then integer
                else integer +:+ "." +:+ stripZeros fraction).
  { unfold adjustPrecision.
    destruct (String.eqb_spec value "0") as [->|_]; [by exists "0", ""|].
    destruct value as [|c0 v0]; [done|].
    rewrite (allDigits_unsigned c0 v0 Hdigits). cbv iota.
    exists (if (String.length (String c0 v0) <=? 7)%nat then "0"
            else stringTake (String.length (String c0 v0) - 7) (String c0 v0)),
           (padStart 7 "0" (stringDrop (String.length (String c0 v0) - 7) (String c0 v0))).
    split; [|split].
    - destruct (_ <=? 7)%nat; [reflexivity | by apply allDigits_parts].
    - unfold padStart. rewrite allDigits_append.
      apply andb_true_intro. split; [|by apply allDigits_parts].
      generalize (7 - String.length (stringDrop (String.length (String c0 v0) - 7)
                                       (String c0 v0)))%nat.
      intros k. induction k as [|k IH]; [reflexivity | exact IH].
    - by rewrite length_zero_empty. }
  destruct Hshape as (integer & fraction & Hint & Hfrac & Hshape).
  assert (Hpositive : ∀ sign : string,
            splitDot (sign +:+ integer) = (sign +:+ integer, None) →
            trimZeros (sign +:+ adjustPrecision value) = sign +:+ adjustPrecision value).
  { intros sign Hsign. rewrite Hshape.
    destruct (String.eqb_spec (stripZeros fraction) "") as [|Hsome].
    - by apply trimZeros_without_dot.
    - rewrite <- append_assoc. apply trimZeros_trimmed; try done.
      + by apply splitDot_stripZeros, allDigits_splitDot.
      + apply stripZeros_idemp. }
  split.
  - apply (Hpositive ""). by apply allDigits_splitDot.
  - rewrite (adjustPrecision_negative value Hdigits Hne). apply Hpositive.
    change ("-" +:+ integer) with (String "-" integer).
    cbn [splitDot Ascii.eqb Bool.eqb]. by rewrite (allDigits_splitDot integer Hint).
Qed.

Lemma includes_prefix (t b : string) : prefixb t (t +:+ b) = true.
Proof.
  induction t as [|c t IH]; [reflexivity|].
  rewrite append_cons. cbn [prefixb]. by rewrite Ascii.eqb_refl, IH.
Qed.

Lemma includes_infix (a t b : string) : includes (a +:+ t +:+ b) t = true.
Proof.
  induction a as [|c a IH].
  - change ("" +:+ ?x) with x. destruct (t +:+ b) eqn:Htb; cbn [includes];
      rewrite <- Htb, includes_prefix; reflexivity.
  - rewrite append_cons. cbn [includes]. rewrite IH. apply orb_true_r.
Qed.

(** X5.  Every identifier of the form code-issuer-type is an asset, and its
    issuer is an issuer of it.  The issuer test is a substring test: the
    empty account passes it for every asset. *)
Theorem asset_of_issuer code issuer kind :
  isAsset (code +:+ "-" +:+ issuer +:+ "-" +:+ kind) = true
  ∧ isIssuer issuer (code +:+ "-" +:+ issuer +:+ "-" +:+ kind) = true
  ∧ ∀ asset, isIssuer "" asset = true.
Proof.
  unfold isAsset, isIssuer. split; [apply includes_infix|]. split.
  - rewrite <- (append_assoc code "-"). apply includes_infix.
  - intros asset. by destruct asset.
Qed.

End TrimmedAmounts.

(** The amount 12.5 written with trailing zeros, and trimmed. *)
Lemma trimZeros_drops_trailing_zeros_witness :
  trimZeros "12" = "12"
  ∧ trimZeros "12.5000" = trimZeros "12.5"
  ∧ trimZeros "12.000" = "12".
Proof.
  destruct (trimZeros_drops_trailing_zeros "12" "5" 3 eq_refl eq_refl) as (H1 & H2 & H3).
  repeat apply conj; [exact H1 | exact H2 | exact H3].
Defined.

(** The amounts 1.2345678 and -0.00005 are trimmed as written. *)
Lemma adjustPrecision_is_trimmed_witness :
  trimZeros (adjustPrecision "12345678") = "1.2345678"
  ∧ trimZeros (adjustPrecision "-500") = "-0.00005".
Proof.
  destruct (adjustPrecision_is_trimmed "12345678" eq_refl) as [Hpos _]; [done|].
  destruct (adjustPrecision_is_trimmed "500" eq_refl) as [_ Hneg]; [done|].
  split; [exact Hpos | exact Hneg].
Defined.

(** ** What every method preserves *)

(** Methods built from [new] and [addEffect] preserve every relation
    between the analyzer before and after that these two preserve. *)
Section Stepwise.

Variable effectTypes : gmap string string.
Variable R : EffectsAnalyzer → EffectsAnalyzer → Prop.
Hypothesis R_refl : ∀ s, R s s.
Hypothesis R_trans : ∀ s1 s2 s3, R s1 s2 → R s2 s3 → R s1 s3.
Hypothesis R_new : ∀ o s, R s (new o s).2.
Hypothesis R_addEffect : ∀ effect position s, R s (addEffect effect position s).2.

Lemma stepwise_ret {A} (a : A) : stepwise R (ret a).
Proof. intros s. apply R_refl. Qed.

Lemma stepwise_throw {A} e : stepwise R (throw (A := A) e).
Proof. intros s. apply R_refl. Qed.

Lemma stepwise_gets {A} (f : EffectsAnalyzer → A) : stepwise R (gets f).
Proof. intros s. apply R_refl. Qed.

Lemma stepwise_lift {A} (c : Completion A) : stepwise R (lift c).
Proof. intros s. apply R_refl. Qed.

Lemma stepwise_undefinedRead {A} property : stepwise R (undefinedRead (A := A) property).
Proof. intros s. apply R_refl. Qed.

Lemma stepwise_bind {A B} (m : Js EffectsAnalyzer A) (k : A → Js EffectsAnalyzer B) :
  stepwise R m → (∀ a, stepwise R (k a)) → stepwise R (bind m k).
Proof.
  intros Hm Hk s. unfold bind. specialize (Hm s).
  destruct (m s) as [[a|e] s']; [|exact Hm].
  eapply R_trans; [exact Hm | apply Hk].
Qed.

Lemma stepwise_forOf {A} (xs : list A) (body : A → Js EffectsAnalyzer unit) :
  (∀ x, stepwise R (body x)) → stepwise R (forOf xs body).
Proof.
  intros Hbody. induction xs as [|x xs IH]; [apply stepwise_ret|].
  apply stepwise_bind; [apply Hbody | intros _; exact IH].
Qed.

Ltac step_by_step :=
  repeat first
    [ solve [auto 2]
    | apply stepwise_ret | apply stepwise_throw | apply stepwise_gets | apply stepwise_lift
    | apply stepwise_undefinedRead | exact (R_new _) | exact (R_addEffect _ _)
    | apply stepwise_forOf; intros ?
    | apply stepwise_bind; [|intros ?]
    | lazymatch goal with
      | |- stepwise R (if ?c then _ else _) => destruct c
      | |- stepwise R (match ?x with _ => _ end) => destruct x
      | |- stepwise R (let '_ := ?x in _) => destruct x
      end ].

Lemma stepwise_debit amount asset src balance :
  stepwise R (debit effectTypes amount asset src balance).
Proof. unfold debit. step_by_step. Qed.

Lemma stepwise_credit amount asset src balance :
  stepwise R (credit effectTypes amount asset src balance).
Proof. unfold credit. step_by_step. Qed.

Lemma stepwise_processBalanceChange account asset b a :
  stepwise R (processBalanceChange effectTypes account asset b a).
Proof.
  unfold processBalanceChange. destruct (_ <? _); [apply stepwise_debit | apply stepwise_credit].
Qed.

Lemma stepwise_instanceDataLoop owner storageBefore storageAfter :
  stepwise R (instanceDataLoop effectTypes owner storageBefore storageAfter).
Proof.
  revert storageAfter. induction storageBefore as [|[key val] storageBefore IH]; intros storageAfter.
  - apply stepwise_ret.
  - cbn [instanceDataLoop]. destruct (takeByKey key storageAfter) as [[newVal|] rest];
      [destruct (String.eqb val newVal)|]; step_by_step; apply IH.
Qed.

Lemma stepwise_processInstanceDataChanges b a :
  stepwise R (processInstanceDataChanges effectTypes b a).
Proof.
  unfold processInstanceDataChanges.
  apply stepwise_bind; [apply stepwise_instanceDataLoop|]. intros rest.
  apply stepwise_forOf. intros [key val]. step_by_step.
Qed.

Lemma stepwise_methods s :
  (∀ ch, R s (processTrustlineEffectsChanges effectTypes ch s).2)
  ∧ (∀ ch, R s (processLiquidityPoolChanges effectTypes ch s).2)
  ∧ (∀ ch, R s (processContractChanges effectTypes ch s).2)
  ∧ R s (processSponsorshipEffects effectTypes s).2
  ∧ R s (liquidityPoolDeposit effectTypes s).2
  ∧ R s (liquidityPoolWithdraw effectTypes s).2
  ∧ R s (bumpSequence effectTypes s).2
  ∧ (∀ asset amount lookup, R s (mint effectTypes asset amount lookup s).2)
  ∧ (∀ asset amount position, R s (burn effectTypes asset amount position s).2).
Proof.
  repeat match goal with |- _ ∧ _ => split end; intros.
  - revert s. change (stepwise R (processTrustlineEffectsChanges effectTypes ch)).
    unfold processTrustlineEffectsChanges.
    pose proof stepwise_processBalanceChange. step_by_step.
  - revert s. change (stepwise R (processLiquidityPoolChanges effectTypes ch)).
    unfold processLiquidityPoolChanges. step_by_step.
  - revert s. change (stepwise R (processContractChanges effectTypes ch)).
    unfold processContractChanges.
    pose proof stepwise_processInstanceDataChanges. step_by_step.
  - revert s. change (stepwise R (processSponsorshipEffects effectTypes)).
    unfold processSponsorshipEffects, sponsorshipEffectOf. step_by_step.
  - revert s. change (stepwise R (liquidityPoolDeposit effectTypes)).
    unfold liquidityPoolDeposit. step_by_step.
  - revert s. change (stepwise R (liquidityPoolWithdraw effectTypes)).
    unfold liquidityPoolWithdraw. step_by_step.
  - revert s. change (stepwise R (bumpSequence effectTypes)).
    unfold bumpSequence. step_by_step.
  - revert s. change (stepwise R (mint effectTypes asset amount lookup)).
    unfold mint. step_by_step.
  - revert s. change (stepwise R (burn effectTypes asset amount position)).
    unfold burn. step_by_step.
Qed.

End Stepwise.

Section Preserved.

Variable effectTypes : gmap string string.

Lemma extends_refl s : extends s s.
Proof. by repeat split. Qed.

Lemma extends_trans s1 s2 s3 : extends s1 s2 → extends s2 s3 → extends s1 s3.
Proof.
  intros (Hl1 & Hs1 & Ho1 & Hc1 & Hd1) (Hl2 & Hs2 & Ho2 & Hc2 & Hd2).
  repeat split; try congruence. by etransitivity.
Qed.

Lemma extends_new o s : extends s (new o s).2.
Proof. by repeat split. Qed.

Lemma extends_addEffect effect position s : extends s (addEffect effect position s).2.
Proof.
  unfold addEffect. js_run.
  destruct position as [position|]; repeat split; rewrite effectList_setEffects; unfold effectList.
  - unfold spliceIn. rewrite fmap_app, fmap_cons, fmap_take, fmap_drop.
    rewrite <- (take_drop (Z.to_nat (if position <? 0 then 0 else position)) (effects s).*2) at 1.
    apply sublist_app; [done|]. by apply sublist_cons.
  - rewrite fmap_app. by apply sublist_inserts_r.
Qed.

(** X6.  Whatever the change or the operation, and whether the method returns
    or throws, the effects already in the list stay there in their order,
    and the source, operation and changes of the analyzer are untouched. *)
Theorem analyzer_methods_only_add_effects s :
  (∀ ch, extends s (processTrustlineEffectsChanges effectTypes ch s).2)
  ∧ (∀ ch, extends s (processLiquidityPoolChanges effectTypes ch s).2)
  ∧ (∀ ch, extends s (processContractChanges effectTypes ch s).2)
  ∧ extends s (processSponsorshipEffects effectTypes s).2
  ∧ extends s (liquidityPoolDeposit effectTypes s).2
  ∧ extends s (liquidityPoolWithdraw effectTypes s).2
  ∧ extends s (bumpSequence effectTypes s).2
  ∧ (∀ asset amount lookup, extends s (mint effectTypes asset amount lookup s).2)
  ∧ (∀ asset amount position, extends s (burn effectTypes asset amount position s).2).
Proof.
  apply stepwise_methods.
  - apply extends_refl.
  - apply extends_trans.
  - apply extends_new.
  - apply extends_addEffect.
Qed.

Lemma hasSource_defaultSource this_source effect :
  this_source ≠ "" → hasSource (defaultSource this_source effect).
Proof.
  intros Hsource. unfold hasSource, defaultSource.
  destruct (truthy (prop effect "source")) eqn:Htruthy; cbn [negb]; [exact Htruthy|].
  unfold prop. rewrite lookup_insert_eq. cbn [default from_option id truthy].
  by destruct (String.eqb_spec this_source "").
Qed.

Lemma keepsSources_refl s : keepsSources s s.
Proof. by split. Qed.

Lemma keepsSources_trans s1 s2 s3 :
  keepsSources s1 s2 → keepsSources s2 s3 → keepsSources s1 s3.
Proof.
  intros (Hs1 & Hl1) (Hs2 & Hl2). split; [congruence|].
  intros Hsource Hall. apply Hl2; [congruence|]. by apply Hl1.
Qed.

Lemma keepsSources_new o s : keepsSources s (new o s).2.
Proof. by split. Qed.

Lemma keepsSources_addEffect effect position s :
  keepsSources s (addEffect effect position s).2.
Proof.
  unfold addEffect. js_run. split; [by destruct position|].
  intros Hsource Hall.
  destruct position as [position|]; rewrite effectList_setEffects; unfold effectList in *.
  - unfold spliceIn. rewrite fmap_app, fmap_cons, fmap_take, fmap_drop.
    apply Forall_app. split; [by apply Forall_take|].
    apply Forall_cons. split; [by apply hasSource_defaultSource | by apply Forall_drop].
  - rewrite fmap_app. apply Forall_app. split; [done|].
    apply Forall_cons. split; [by apply hasSource_defaultSource | constructor].
Qed.

(** X28.  Every effect is attributed: on an analyzer whose source is not empty, as
    its constructor demands, a list of effects that all carry a source still
    does after any change or operation has been processed, whether the
    method returned or threw. *)
Theorem every_effect_keeps_a_source s :
  source s ≠ "" →
  Forall hasSource (effectList s) →
  (∀ ch, Forall hasSource (effectList (processTrustlineEffectsChanges effectTypes ch s).2))
  ∧ (∀ ch, Forall hasSource (effectList (processLiquidityPoolChanges effectTypes ch s).2))
  ∧ (∀ ch, Forall hasSource (effectList (processContractChanges effectTypes ch s).2))
  ∧ Forall hasSource (effectList (processSponsorshipEffects effectTypes s).2)
  ∧ Forall hasSource (effectList (liquidityPoolDeposit effectTypes s).2)
  ∧ Forall hasSource (effectList (liquidityPoolWithdraw effectTypes s).2)
  ∧ Forall hasSource (effectList (bumpSequence effectTypes s).2)
  ∧ (∀ asset amount lookup,
       Forall hasSource (effectList (mint effectTypes asset amount lookup s).2))
  ∧ (∀ asset amount position,
       Forall hasSource (effectList (burn effectTypes asset amount position s).2)).
Proof.
  intros Hsource Hall.
  destruct (stepwise_methods effectTypes keepsSources keepsSources_refl keepsSources_trans
              keepsSources_new keepsSources_addEffect s)
    as (H1 & H2 & H3 & H4 & H5 & H6 & H7 & H8 & H9).
  repeat match goal with |- _ ∧ _ => split end; intros.
  - by apply H1.
  - by apply H2.
  - by apply H3.
  - by apply H4.
  - by apply H5.
  - by apply H6.
  - by apply H7.
  - by apply H8.
  - by apply H9.
Qed.

End Preserved.

(** The pool created into a list of three attributed effects. *)
Lemma every_effect_keeps_a_source_witness :
  Forall hasSource
    (effectList (processLiquidityPoolChanges effectKindsTable samplePoolCreated
                   analyzerWithPoolEffects).2).
Proof.
  destruct (every_effect_keeps_a_source effectKindsTable analyzerWithPoolEffects)
    as (_ & Hpool & _).
  - discriminate.
  - repeat (constructor; [unfold hasSource; by_evaluation|]). constructor.
  - apply Hpool.
Defined.

(** ** Balance changes and trustline updates *)

Section BalanceChanges.

Variable effectTypes : gmap string string.

Lemma processBalanceChange_effects account asset b a s :
  (processBalanceChange effectTypes account asset b a s).1 = Return tt
  ∧ effectList (processBalanceChange effectTypes account asset b a s).2
    = effectList s ++ (defaultSource (source s) <$> balanceMoved effectTypes account asset b a)
  ∧ source (processBalanceChange effectTypes account asset b a s).2 = source s.
Proof.
  unfold processBalanceChange, balanceMoved.
  destruct (Z.ltb_spec (a - b) 0) as [Hneg|Hnonneg].
  - destruct (Z.eqb_spec b a) as [|_]; [lia|].
    destruct (Z.ltb_spec a b) as [_|]; [|lia].
    replace (Z.abs (a - b)) with (- (a - b)) by lia.
    apply debit_nonzero. intros [= Hz]. apply decimal_zero in Hz. lia.
  - destruct (Z.eqb_spec b a) as [->|Hne].
    + rewrite Z.sub_diag. change (decimal 0) with "0". rewrite credit_zero.
      by rewrite app_nil_r.
    + destruct (Z.ltb_spec a b) as [|_]; [lia|].
      replace (Z.abs (a - b)) with (a - b) by lia.
      apply credit_nonzero. intros [= Hz]. apply decimal_zero in Hz. lia.
Qed.

(** X7.  A balance change always completes; it pushes nothing when the balance
    did not move, and otherwise exactly one effect: a debit when the balance
    fell, a credit when it rose, of the absolute difference, carrying the
    balance after the change. *)
Theorem balance_change_is_one_signed_effect account asset b a s :
  (processBalanceChange effectTypes account asset b a s).1 = Return tt
  ∧ effectList (processBalanceChange effectTypes account asset b a s).2
    = effectList s ++ (defaultSource (source s) <$> balanceMoved effectTypes account asset b a).
Proof.
  destruct (processBalanceChange_effects account asset b a s) as (Hc & Hl & _). done.
Qed.

(** X8.  An 'updated' trustline change pushes the balance effect when the
    balance moved, then a trustlineUpdated effect when limit or flags
    changed, and nothing else; an update that changed none of the three
    leaves no trace. *)
Theorem trustline_update_effects ch b a s :
  action ch = "updated" →
  before ch = Some b →
  after ch = Some a →
  (processTrustlineEffectsChanges effectTypes ch s).1 = Return tt
  ∧ effectList (processTrustlineEffectsChanges effectTypes ch s).2
    = effectList s
      ++ (defaultSource (source s)
            <$> balanceMoved effectTypes (Trustline.account a) (Trustline.asset a)
                  (Trustline.balance b) (Trustline.balance a))
      ++ (if strictEq (Trustline.limit b) (Trustline.limit a)
             && strictEq (Trustline.flags b) (Trustline.flags a)
          then []
          else [defaultSource (source s) (trustlineChangedEffect effectTypes "trustlineUpdated" a)]).
Proof.
  intros Hact Hbefore Hafter.
  unfold processTrustlineEffectsChanges, snapshotOf. rewrite Hact, Hbefore, Hafter.
  change (String.eqb "updated" "created") with false.
  change (String.eqb "updated" "updated") with true. cbv iota.
  unfold trustlineChangedEffect, trustlineEffect.
  set (unchanged := strictEq (Trustline.limit b) (Trustline.limit a)
                    && strictEq (Trustline.flags b) (Trustline.flags a)).
  destruct (Z.eqb_spec (Trustline.balance b) (Trustline.balance a)) as [Heq|Hne].
  - unfold balanceMoved. rewrite Heq, Z.eqb_refl. cbn [negb fmap list_fmap app].
    destruct unchanged; js_run; (split; [reflexivity|]).
    + by rewrite app_nil_r.
    + rewrite effectList_setEffects, fmap_app. cbn [effects source].
      by destruct (truthy (Trustline.sponsor a)).
  - cbn [negb]. js_run.
    match goal with
    | |- context [processBalanceChange _ ?acc ?ass ?x ?y ?s1] =>
        destruct (processBalanceChange_effects acc ass x y s1) as (Hc & Hl & Hs);
        destruct (processBalanceChange effectTypes acc ass x y s1) as [c s2]
    end.
    cbn [fst snd] in Hc, Hl, Hs. subst c.
    destruct unchanged; (split; [reflexivity|]).
    + rewrite Hl. by rewrite app_nil_r.
    + rewrite effectList_setEffects, fmap_app. fold (effectList s2).
      rewrite Hl, Hs. rewrite <- app_assoc. cbn [effects source].
      by destruct (truthy (Trustline.sponsor a)).
Qed.

(** X9.  The trustline classifier has no default case: a change whose action is
    none of 'created', 'updated' and 'removed' is not rejected, it pushes the
    trustline effect with the empty string as its type. *)
Theorem trustline_unknown_action_pushes_untyped_effect ch snapshot s :
  action ch ≠ "created" → action ch ≠ "updated" → action ch ≠ "removed" →
  snapshotOf ch = Some snapshot →
  (processTrustlineEffectsChanges effectTypes ch s).1 = Return tt
  ∧ effectList (processTrustlineEffectsChanges effectTypes ch s).2
    = effectList s ++ [defaultSource (source s) (trustlineEffect snapshot)]
  ∧ prop (trustlineEffect snapshot) "type" = VStr "".
Proof.
  intros Hcreated Hupdated Hremoved Hsnap.
  unfold processTrustlineEffectsChanges. rewrite Hsnap.
  destruct (String.eqb_spec (action ch) "created"); [done|].
  destruct (String.eqb_spec (action ch) "updated"); [done|].
  destruct (String.eqb_spec (action ch) "removed"); [done|].
  unfold trustlineEffect. js_run. split; [reflexivity|]. split.
  - rewrite effectList_setEffects, fmap_app. cbn [effects source].
    by destruct (truthy (Trustline.sponsor snapshot)).
  - by destruct (truthy (Trustline.sponsor snapshot)).
Qed.

(** X10.  The liquidity pool classifier treats every action other than 'created'
    and 'updated' as a removal: it completes and pushes one
    liquidityPoolRemoved effect for the pool, at the end of the list. *)
Theorem liquidityPool_other_actions_are_removals ch snapshot s :
  action ch ≠ "created" → action ch ≠ "updated" →
  snapshotOf ch = Some snapshot →
  (processLiquidityPoolChanges effectTypes ch s).1 = Return tt
  ∧ effectList (processLiquidityPoolChanges effectTypes ch s).2
    = effectList s ++ [defaultSource (source s) (liquidityPoolRemovedEffect effectTypes snapshot)].
Proof.
  intros Hcreated Hupdated Hsnap.
  unfold processLiquidityPoolChanges. rewrite Hsnap.
  destruct (String.eqb_spec (action ch) "created"); [done|].
  destruct (String.eqb_spec (action ch) "updated"); [done|].
  unfold liquidityPoolRemovedEffect. js_run. split; [reflexivity|].
  rewrite effectList_setEffects, fmap_app. cbn [effects source].
  by destruct (truthy (LiquidityPool.sponsor snapshot)).
Qed.

(** X11.  The contract classifier accepts 'created' and 'updated' only: any other
    action throws UnexpectedTxMetaChangeError for type 'contract' and that
    action, before the change is read and with the analyzer untouched. *)
Theorem contract_change_rejects_other_actions ch s :
  action ch ≠ "created" → action ch ≠ "updated" →
  processContractChanges effectTypes ch s
  = (Throw (UnexpectedTxMetaChangeError (VStr "contract") (VStr (action ch))), s).
Proof.
  intros Hcreated Hupdated. unfold processContractChanges.
  destruct (String.eqb_spec (action ch) "created"); [done|].
  destruct (String.eqb_spec (action ch) "updated"); [done|].
  reflexivity.
Qed.

End BalanceChanges.

(** A trustline whose balance fell from 70 to 40 while its limit changed;
    one whose balance, limit and flags all stayed. *)
Lemma trustline_update_effects_witness :
  effectList (processTrustlineEffectsChanges effectKindsTable
                (sampleTrustlineUpdated 70 40 "500") (freshAnalyzer sampleOperation [] None)).2
  = [ {[ "type" := VStr "accountDebited"; "source" := VStr otherAccount;
         "asset" := VStr sampleAsset; "amount" := VStr "30"; "balance" := VStr "40" ]};
      {[ "type" := VStr "trustlineUpdated"; "source" := VStr otherAccount;
         "asset" := VStr sampleAsset; "kind" := VStr "asset"; "flags" := VNum 1;
         "limit" := VStr "500" ]} ]
  ∧ effectList (processTrustlineEffectsChanges effectKindsTable
                  (sampleTrustlineUpdated 40 40 "1000") (freshAnalyzer sampleOperation [] None)).2
    = [].
Proof.
  split.
  - destruct (trustline_update_effects effectKindsTable (sampleTrustlineUpdated 70 40 "500")
                (sampleTrustline 70) _ (freshAnalyzer sampleOperation [] None)
                eq_refl eq_refl eq_refl) as [_ ->].
    by_evaluation.
  - destruct (trustline_update_effects effectKindsTable (sampleTrustlineUpdated 40 40 "1000")
                (sampleTrustline 40) _ (freshAnalyzer sampleOperation [] None)
                eq_refl eq_refl eq_refl) as [_ ->].
    by_evaluation.
Defined.

(** A trustline change with the action 'restored'. *)
Lemma trustline_unknown_action_pushes_untyped_effect_witness :
  effectList (processTrustlineEffectsChanges effectKindsTable
                {| action := "restored"; before := None; after := Some (sampleTrustline 40) |}
                (freshAnalyzer sampleOperation [] None)).2
  = [ {[ "type" := VStr ""; "source" := VStr otherAccount;
         "asset" := VStr sampleAsset; "kind" := VStr "asset"; "flags" := VNum 1 ]} ].
Proof.
  destruct (trustline_unknown_action_pushes_untyped_effect effectKindsTable
              {| action := "restored"; before := None; after := Some (sampleTrustline 40) |}
              (sampleTrustline 40) (freshAnalyzer sampleOperation [] None))
    as (_ & -> & _); [discriminate | discriminate | discriminate | reflexivity |].
  by_evaluation.
Defined.

(** A pool removed, and a pool change with the action 'restored'. *)
Lemma liquidityPool_other_actions_are_removals_witness :
  effectList (processLiquidityPoolChanges effectKindsTable
                {| action := "removed"; before := Some samplePoolSnapshot; after := None |}
                (freshAnalyzer sampleOperation [] None)).2
  = [ {[ "type" := VStr "liquidityPoolRemoved"; "source" := VStr sampleAccount;
         "pool" := VStr samplePool ]} ]
  ∧ effectList (processLiquidityPoolChanges effectKindsTable
                  {| action := "restored"; before := None; after := Some samplePoolSnapshot |}
                  (freshAnalyzer sampleOperation [] None)).2
    = [ {[ "type" := VStr "liquidityPoolRemoved"; "source" := VStr sampleAccount;
           "pool" := VStr samplePool ]} ].
Proof.
  split.
  - destruct (liquidityPool_other_actions_are_removals effectKindsTable
                {| action := "removed"; before := Some samplePoolSnapshot; after := None |}
                samplePoolSnapshot (freshAnalyzer sampleOperation [] None))
      as [_ ->]; [discriminate | discriminate | reflexivity |].
    by_evaluation.
  - destruct (liquidityPool_other_actions_are_removals effectKindsTable
                {| action := "restored"; before := None; after := Some samplePoolSnapshot |}
                samplePoolSnapshot (freshAnalyzer sampleOperation [] None))
      as [_ ->]; [discriminate | discriminate | reflexivity |].
    by_evaluation.
Defined.

(** A contract entry removed. *)
Lemma contract_change_rejects_other_actions_witness :
  processContractChanges effectKindsTable
    {| action := "removed"; before := Some (sampleContractSnapshot sampleContract); after := None |}
    (freshAnalyzer sampleOperation [] None)
  = (Throw (UnexpectedTxMetaChangeError (VStr "contract") (VStr "removed")),
     freshAnalyzer sampleOperation [] None).
Proof.
  apply (contract_change_rejects_other_actions effectKindsTable
           {| action := "removed"; before := Some (sampleContractSnapshot sampleContract);
              after := None |}); discriminate.
Defined.

(** ** Contract instance storage *)

Section InstanceStorage.

Variable effectTypes : gmap string string.

Lemma instanceDataLoop_same owner storage s :
  instanceDataLoop effectTypes owner storage storage s = (Return [], s).
Proof.
  induction storage as [|[key val] storage IH]; [reflexivity|].
  cbn [instanceDataLoop takeByKey]. by rewrite !String.eqb_refl.
Qed.

Lemma instanceDataLoop_to_empty owner storage s :
  ∃ s', instanceDataLoop effectTypes owner storage [] s = (Return [], s')
        ∧ effectList s'
          = effectList s ++ (defaultSource (source s) <$>
                               (instanceRemovedEffect effectTypes owner <$> storage))
        ∧ source s' = source s.
Proof.
  revert s. induction storage as [|[key val] storage IH]; intros s.
  - exists s. by rewrite app_nil_r.
  - cbn [instanceDataLoop takeByKey]. js_run.
    match goal with |- context [instanceDataLoop _ _ _ _ ?s1] =>
      destruct (IH s1) as (s' & -> & Hl & Hs) end.
    exists s'. split; [reflexivity|]. rewrite Hl, Hs. split; [|reflexivity].
    rewrite effectList_setEffects, fmap_app, <- app_assoc. reflexivity.
Qed.

Lemma instanceDataLoop_returns owner storageBefore storageAfter s :
  ∃ rest s', instanceDataLoop effectTypes owner storageBefore storageAfter s = (Return rest, s').
Proof.
  revert storageAfter s.
  induction storageBefore as [|[key val] storageBefore IH]; intros storageAfter s.
  - by exists storageAfter, s.
  - cbn [instanceDataLoop]. destruct (takeByKey key storageAfter) as [[newVal|] rest];
      [destruct (String.eqb val newVal)|]; js_run; apply IH.
Qed.

Lemma instance_entries_created owner storage s :
  ∃ s', forOf storage (λ '(key, val),
          bind (new {[ "type" := effectType effectTypes "contractDataCreated";
                       "owner" := VStr owner;
                       "key" := VStr key;
                       "value" := VStr val;
                       "durability" := VStr "instance" ]})
               (λ effect, addEffect effect None)) s = (Return tt, s')
        ∧ effectList s'
          = effectList s ++ (defaultSource (source s) <$>
                               (instanceCreatedEffect effectTypes owner <$> storage))
        ∧ source s' = source s.
Proof.
  revert s. induction storage as [|[key val] storage IH]; intros s.
  - exists s. by rewrite app_nil_r.
  - cbn [forOf].
    match goal with |- context [forOf storage ?body] =>
      set (loop := forOf storage body) in * end.
    js_run.
    match goal with |- context [loop ?s1] =>
      destruct (IH s1) as (s' & -> & Hl & Hs) end.
    exists s'. split; [reflexivity|]. rewrite Hl, Hs. split; [|reflexivity].
    rewrite effectList_setEffects, fmap_app, <- app_assoc. reflexivity.
Qed.

(** X12.  Comparing instance storage never throws.  Identical storage yields no
    effect; with nothing stored before, every entry is reported as created,
    and with nothing stored after, every entry as removed, in storage
    order. *)
Theorem instance_storage_differences b a s :
  let run := processInstanceDataChanges effectTypes b a s in
  let owner := ownerOf b a in
  run.1 = Return tt
  ∧ (Contract.storage b = Contract.storage a → effectList run.2 = effectList s)
  ∧ (hasEntries (Contract.storage b) = false →
       effectList run.2
       = effectList s ++ (defaultSource (source s) <$>
           (instanceCreatedEffect effectTypes owner <$> default [] (Contract.storage a))))
  ∧ (hasEntries (Contract.storage a) = false →
       effectList run.2
       = effectList s ++ (defaultSource (source s) <$>
           (instanceRemovedEffect effectTypes owner <$> default [] (Contract.storage b)))).
Proof.
  intros run owner. subst run owner.
  repeat match goal with |- _ ∧ _ => split end;
    unfold processInstanceDataChanges; unfold bind at 1.
  - destruct (instanceDataLoop_returns (ownerOf b a) (default [] (Contract.storage b))
                (default [] (Contract.storage a)) s) as (rest & s1 & ->).
    by destruct (instance_entries_created (ownerOf b a) rest s1) as (s' & -> & _).
  - intros ->. by rewrite instanceDataLoop_same.
  - intros Hnone.
    assert (default [] (Contract.storage b) = []) as ->
      by (by destruct (Contract.storage b) as [[|]|]).
    cbn [instanceDataLoop ret].
    destruct (instance_entries_created (ownerOf b a) (default [] (Contract.storage a)) s)
      as (s' & Hrun & Hl & _).
    rewrite Hrun. exact Hl.
  - intros Hnone.
    assert (default [] (Contract.storage a) = []) as ->
      by (by destruct (Contract.storage a) as [[|]|]).
    destruct (instanceDataLoop_to_empty (ownerOf b a) (default [] (Contract.storage b)) s)
      as (s' & Hrun & Hl & _).
    rewrite Hrun. exact Hl.
Qed.

(** X13.  An 'updated' contract change in which neither the code hash nor the
    instance storage differs completes without a trace in the effect list. *)
Theorem contract_update_without_differences ch b a s :
  action ch = "updated" →
  before ch = Some b →
  after ch = Some a →
  strictEq (Contract.hash b) (Contract.hash a) = true →
  Contract.storage b = Contract.storage a →
  (processContractChanges effectTypes ch s).1 = Return tt
  ∧ effectList (processContractChanges effectTypes ch s).2 = effectList s.
Proof.
  intros Hact Hbefore Hafter Hhash Hstorage.
  unfold processContractChanges. rewrite Hact, Hbefore, Hafter, Hhash.
  change (String.eqb "updated" "created") with false.
  change (String.eqb "updated" "updated") with true. cbn [negb andb].
  unfold processInstanceDataChanges. rewrite Hstorage.
  destruct (hasEntries (Contract.storage a)); cbn [orb]; js_run; [|done].
  by rewrite instanceDataLoop_same.
Qed.

End InstanceStorage.

(** A contract whose storage went from empty to two entries, and back. *)
Lemma instance_storage_differences_witness :
  effectList (processInstanceDataChanges effectKindsTable
                (contractWithStorage []) (contractWithStorage [("AAAA", "AQ=="); ("BBBB", "Ag==")])
                (freshAnalyzer sampleOperation [] None)).2
  = [ {[ "type" := VStr "contractDataCreated"; "source" := VStr sampleAccount;
         "owner" := VStr sampleContract; "key" := VStr "AAAA"; "value" := VStr "AQ==";
         "durability" := VStr "instance" ]};
      {[ "type" := VStr "contractDataCreated"; "source" := VStr sampleAccount;
         "owner" := VStr sampleContract; "key" := VStr "BBBB"; "value" := VStr "Ag==";
         "durability" := VStr "instance" ]} ]
  ∧ effectList (processInstanceDataChanges effectKindsTable
                  (contractWithStorage [("AAAA", "AQ=="); ("BBBB", "Ag==")]) (contractWithStorage [])
                  (freshAnalyzer sampleOperation [] None)).2
    = [ {[ "type" := VStr "contractDataRemoved"; "source" := VStr sampleAccount;
           "owner" := VStr sampleContract; "key" := VStr "AAAA"; "prevValue" := VStr "AQ==";
           "durability" := VStr "instance" ]};
        {[ "type" := VStr "contractDataRemoved"; "source" := VStr sampleAccount;
           "owner" := VStr sampleContract; "key" := VStr "BBBB"; "prevValue" := VStr "Ag==";
           "durability" := VStr "instance" ]} ]
  ∧ effectList (processInstanceDataChanges effectKindsTable
                  (contractWithStorage [("AAAA", "AQ==")]) (contractWithStorage [("AAAA", "AQ==")])
                  (freshAnalyzer sampleOperation [] None)).2
    = [].
Proof.
  split; [|split].
  - destruct (instance_storage_differences effectKindsTable (contractWithStorage [])
                (contractWithStorage [("AAAA", "AQ=="); ("BBBB", "Ag==")])
                (freshAnalyzer sampleOperation [] None)) as (_ & _ & Hcreated & _).
    etransitivity; [apply Hcreated; reflexivity | by_evaluation].
  - destruct (instance_storage_differences effectKindsTable
                (contractWithStorage [("AAAA", "AQ=="); ("BBBB", "Ag==")])
                (contractWithStorage [])
                (freshAnalyzer sampleOperation [] None)) as (_ & _ & _ & Hremoved).
    etransitivity; [apply Hremoved; reflexivity | by_evaluation].
  - destruct (instance_storage_differences effectKindsTable
                (contractWithStorage [("AAAA", "AQ==")]) (contractWithStorage [("AAAA", "AQ==")])
                (freshAnalyzer sampleOperation [] None)) as (_ & Hsame & _).
    etransitivity; [apply Hsame; reflexivity | by_evaluation].
Defined.

(** A contract rewritten with the same code and the same storage. *)
Lemma contract_update_without_differences_witness :
  effectList (processContractChanges effectKindsTable
                {| action := "updated";
                   before := Some (contractWithStorage [("AAAA", "AQ==")]);
                   after := Some (contractWithStorage [("AAAA", "AQ==")]) |}
                analyzerAfterInvocation).2
  = effectList analyzerAfterInvocation.
Proof.
  apply (contract_update_without_differences effectKindsTable _
           (contractWithStorage [("AAAA", "AQ==")]) (contractWithStorage [("AAAA", "AQ==")]));
    reflexivity.
Defined.

(** ** Insertion before the first matching effect *)

Section MatchedInsertion.

Variable effectTypes : gmap string string.

Lemma findIndexFrom_first_match {A} (p : A → Completion bool) (earlier : list A) x later i :
  Forall (λ x, p x = Return false) earlier →
  p x = Return true →
  findIndexFrom p i (earlier ++ x :: later) = Return (i + Z.of_nat (length earlier)).
Proof.
  intros Hall Hx. revert i. induction Hall as [|y earlier Hy _ IH]; intros i.
  - cbn [app findIndexFrom length]. rewrite Hx. cbn [cbind]. f_equal. lia.
  - cbn [app findIndexFrom length]. rewrite Hy. cbn [cbind]. rewrite IH. f_equal. lia.
Qed.

Lemma spliceIn_between (effect : ObjId * Obj) (earlier later : list Obj) s :
  effectList s = earlier ++ later →
  effectList (addEffect effect (Some (Z.of_nat (length earlier))) s).2
  = earlier ++ defaultSource (source s) effect.2 :: later.
Proof.
  intros Hlist. js_run. rewrite effectList_setEffects. unfold spliceIn.
  destruct (Z.ltb_spec (Z.of_nat (length earlier)) 0) as [|_]; [lia|].
  rewrite Nat2Z.id, fmap_app, fmap_cons, fmap_take, fmap_drop.
  fold (effectList s). rewrite Hlist.
  by rewrite take_app_length, drop_app_length.
Qed.

(** X14.  A created liquidity pool is announced immediately before the first
    effect that refers to the pool, and the effects around it keep their
    order. *)
Theorem liquidityPool_created_before_first_reference ch snapshot earlier e later s :
  action ch = "created" →
  after ch = Some snapshot →
  effectList s = earlier ++ e :: later →
  Forall (λ e, refersToPool (LiquidityPool.pool snapshot) e = false) earlier →
  refersToPool (LiquidityPool.pool snapshot) e = true →
  (processLiquidityPoolChanges effectTypes ch s).1 = Return tt
  ∧ effectList (processLiquidityPoolChanges effectTypes ch s).2
    = earlier ++ defaultSource (source s) (liquidityPoolCreatedEffect effectTypes snapshot)
              :: e :: later.
Proof.
  intros Hact Hafter Hlist Hnone Hfirst.
  assert (Hidx : ∀ effect : Obj,
             prop effect "pool" = VStr (LiquidityPool.pool snapshot) →
             findIndex (λ e, Return (strictEq (prop e "pool") (prop effect "pool")
                                     || strictEq (prop e "asset") (prop effect "pool")))
                       (effectList s) = Return (Z.of_nat (length earlier))).
  { intros effect ->. rewrite Hlist. unfold findIndex.
    rewrite findIndexFrom_first_match; [reflexivity| |].
    - eapply Forall_impl; [exact Hnone|]. intros x Hx. cbn beta in Hx.
      unfold refersToPool in Hx. by rewrite Hx.
    - unfold refersToPool in Hfirst. by rewrite Hfirst. }
  unfold processLiquidityPoolChanges, snapshotOf. rewrite Hact, Hafter.
  change (String.eqb "created" "created") with true. cbv iota.
  unfold liquidityPoolCreatedEffect.
  destruct (truthy (LiquidityPool.sponsor snapshot));
    cbv beta iota zeta delta [bind gets lift cbind new setProp fst snd];
    (rewrite Hidx by reflexivity); (split; [reflexivity|]);
    cbv beta iota;
    match goal with |- context [addEffect ?effect _ ?s1] =>
      apply (spliceIn_between effect earlier (e :: later) s1 Hlist) end.
Qed.


(** X16.  A deposit or withdrawal whose pool has no 'updated' liquidity pool
    change among the ledger changes fails with a TypeError, and no effect is
    pushed. *)
Theorem pool_operation_without_pool_change_throws s :
  Forall (λ change, ∀ ch, change = LiquidityPoolChange ch → action ch ≠ "updated") (changes s) →
  (∃ message, liquidityPoolDeposit effectTypes s = (Throw (TypeError message), s))
  ∧ (∃ message, liquidityPoolWithdraw effectTypes s = (Throw (TypeError message), s)).
Proof.
  intros Hnone.
  assert (Hfind : ∀ sel : LiquidityPool.t → Completion bool,
            ∀ pick : Change LiquidityPool.t → option LiquidityPool.t,
            ∀ message,
            findLiquidityPoolChange (λ ch,
              if String.eqb (action ch) "updated" then
                match pick ch with
                | Some snapshot => sel snapshot
                | None => Throw (TypeError message)
                end
              else Return false) (changes s) = Return None).
  { intros sel pick message. induction Hnone as [|change rest Hchange _ IH]; [reflexivity|].
    destruct change as [ch|ch|ch|kind ch]; cbn [findLiquidityPoolChange]; try exact IH.
    destruct (String.eqb_spec (action ch) "updated") as [Hupdated|_].
    - by destruct (Hchange ch eq_refl).
    - cbn [cbind]. exact IH. }
  split; eexists.
  - unfold liquidityPoolDeposit. js_run.
    rewrite (Hfind (λ a, Return (strictEqStr _ (LiquidityPool.pool a))) after). reflexivity.
  - unfold liquidityPoolWithdraw. js_run.
    rewrite (Hfind (λ b, Return (strictEqStr _ (LiquidityPool.pool b))) before). reflexivity.
Qed.


End MatchedInsertion.

(** The pool created after a credit of XLM, a deposit into the pool and a
    credit of its shares: the announcement lands before the deposit. *)
Lemma liquidityPool_created_before_first_reference_witness :
  (λ e, prop e "type") <$>
    effectList (processLiquidityPoolChanges effectKindsTable samplePoolCreated
                  analyzerWithPoolEffects).2
  = [VStr "accountCredited"; VStr "liquidityPoolCreated"; VStr "liquidityPoolDeposited";
     VStr "accountCredited"].
Proof.
  destruct (liquidityPool_created_before_first_reference effectKindsTable samplePoolCreated
              samplePoolSnapshot
              (take 1 (effectList analyzerWithPoolEffects))
              (default ∅ (effectList analyzerWithPoolEffects !! 1%nat))
              (drop 2 (effectList analyzerWithPoolEffects))
              analyzerWithPoolEffects) as [_ ->];
    [reflexivity | reflexivity | by_evaluation | | by_evaluation | by_evaluation].
  repeat (constructor; [by_evaluation|]). constructor.
Defined.


(** A deposit analyzed without any ledger change. *)
Lemma pool_operation_without_pool_change_throws_witness :
  ∃ message,
    liquidityPoolDeposit effectKindsTable (freshAnalyzer depositOperation [] None)
    = (Throw (TypeError message), freshAnalyzer depositOperation [] None).
Proof.
  destruct (pool_operation_without_pool_change_throws effectKindsTable
              (freshAnalyzer depositOperation [] None)) as [Hdeposit _].
  - constructor.
  - exact Hdeposit.
Defined.


(** ** Topic shapes and contract addresses *)

Section TopicShapes.

Lemma matchShapeFrom_tail name name' (rest : list ScVal) i shape :
  matchShapeFrom (name :: rest) i shape = matchShapeFrom (name' :: rest) i shape.
Proof.
  revert i. induction shape as [|entry shape IH]; intros i; [reflexivity|].
  cbn [matchShapeFrom lookup list_lookup]. rewrite !IH. reflexivity.
Qed.

(** X18.  The shape check never looks at the event name, and it rejects every
    topic list that is longer than the name and the shape together. *)
Theorem topics_shape_ignores_name_and_bounds_length name name' rest topics shape :
  matchEventTopicsShape (name :: rest) shape = matchEventTopicsShape (name' :: rest) shape
  ∧ ((length shape + 1 < length topics)%nat → matchEventTopicsShape topics shape = false).
Proof.
  split.
  - unfold matchEventTopicsShape. cbn [length].
    destruct (_ <? _)%nat; [reflexivity | apply matchShapeFrom_tail].
  - intros Hlong. unfold matchEventTopicsShape.
    by destruct (Nat.ltb_spec (length shape + 1) (length topics)); [|lia].
Qed.

(** X19.  The shape of 'mint' and 'clawback' events accepts exactly the topic
    lists made of a name, two addresses and at most one string. *)
Theorem standard_shape_accepts_exactly_standard_topics topics :
  matchEventTopicsShape topics ["address"; "address"; "str?"] = true ↔ standardTopics topics.
Proof.
  unfold matchEventTopicsShape, standardTopics, armIs. split.
  - destruct topics as [|name [|first [|second rest]]].
    1-3: cbn [length matchShapeFrom lookup list_lookup endsWithQuestionMark dropLast
              Ascii.eqb Bool.eqb negb Nat.ltb Nat.leb Nat.add];
         repeat match goal with
                | |- context [strictEqStr ?a ?b] => destruct (strictEqStr a b)
                end; discriminate.
    cbn [length matchShapeFrom lookup list_lookup endsWithQuestionMark dropLast
         Ascii.eqb Bool.eqb negb].
    destruct (Nat.ltb_spec (3 + 1) (S (S (S (length rest))))) as [|Hlen]; [discriminate|].
    destruct (strictEqStr (_arm first) "address") eqn:Hfirst; [|discriminate].
    destruct (strictEqStr (_arm second) "address") eqn:Hsecond; [|discriminate].
    apply strictEqStr_true in Hfirst, Hsecond. cbn [negb].
    destruct rest as [|memo rest]; cbn [lookup list_lookup].
    + intros _. exists name, first, second, []. eauto.
    + destruct rest as [|extra rest]; [|cbn [length] in Hlen; lia].
      destruct (strictEqStr (_arm memo) "str") eqn:Hmemo; [|discriminate].
      apply strictEqStr_true in Hmemo. intros _.
      exists name, first, second, [memo]. eauto 10.
  - intros (name & first & second & rest & -> & Hfirst & Hsecond & Hrest).
    destruct Hrest as [->|(memo & -> & Hmemo)];
      cbn [length matchShapeFrom lookup list_lookup endsWithQuestionMark dropLast
           Ascii.eqb Bool.eqb negb Nat.ltb Nat.leb Nat.add];
      rewrite ?Hfirst, ?Hsecond, ?Hmemo; reflexivity.
Qed.

Lemma base32From_length buffer count bytes :
  0 <= count < 5 →
  Z.of_nat (String.length (StrKey.base32From buffer count bytes))
  = (count + 8 * Z.of_nat (length bytes) + 4) / 5.
Proof.
  revert buffer count. induction bytes as [|b bytes IH]; intros buffer count Hcount.
  - cbn [StrKey.base32From length].
    assert (count = 0 ∨ count = 1 ∨ count = 2 ∨ count = 3 ∨ count = 4) as Hcases by lia.
    destruct Hcases as [->|[->|[->|[->| ->]]]]; reflexivity.
  - cbn [StrKey.base32From length]. cbv zeta.
    destruct (Z.leb_spec 10 (count + 8)) as [Hfull|Hpart]; cbn [String.length].
    + rewrite !Nat2Z.inj_succ, IH by lia.
      replace (count + 8 * Z.succ (Z.of_nat (length bytes)) + 4)
        with (count + 8 - 10 + 8 * Z.of_nat (length bytes) + 4 + 2 * 5) by lia.
      rewrite Z.div_add by lia. lia.
    + rewrite !Nat2Z.inj_succ, IH by lia.
      replace (count + 8 * Z.succ (Z.of_nat (length bytes)) + 4)
        with (count + 8 - 5 + 8 * Z.of_nat (length bytes) + 4 + 1 * 5) by lia.
      rewrite Z.div_add by lia. lia.
Qed.

Lemma encodeCheck_length versionByte data :
  length data = 32%nat → String.length (StrKey.encodeCheck versionByte data) = 56%nat.
Proof.
  intros Hdata. unfold StrKey.encodeCheck, StrKey.base32Encode.
  apply Nat2Z.inj. rewrite base32From_length by lia.
  rewrite length_app. cbn [length]. rewrite Hdata. reflexivity.
Qed.

(** X20.  The encoded id of every contract is a contract address for the events
    analyzer, and the encoded key of an account never is: the first is 56
    characters long and starts with 'C', the second starts with 'G'. *)
Theorem isContractAddress_separates_contracts_from_accounts data :
  length data = 32%nat →
  isContractAddress (VStr (encodeContract data)) = Return true
  ∧ isContractAddress (VStr (StrKey.encodeEd25519PublicKey data)) = Return false.
Proof.
  intros Hdata. unfold isContractAddress, encodeContract, StrKey.encodeEd25519PublicKey.
  rewrite !encodeCheck_length by done.
  destruct data as [|b data]; [discriminate|]. split; reflexivity.
Qed.

End TopicShapes.

(** Five topics against a shape of three entries. *)
Lemma topics_shape_ignores_name_and_bounds_length_witness :
  matchEventTopicsShape
    [topicTransfer; addressSampleAccount; addressOtherAccount; topicSwap; topicSwap]
    ["address"; "address"; "str?"] = false.
Proof.
  apply (topics_shape_ignores_name_and_bounds_length topicTransfer topicTransfer []).
  cbn [length]. lia.
Defined.

(** The contract of the all-zero id and the account of the all-zero key. *)
Lemma isContractAddress_separates_contracts_from_accounts_witness :
  isContractAddress (VStr sampleContract) = Return true
  ∧ isContractAddress (VStr sampleAccount) = Return false.
Proof.
  exact (isContractAddress_separates_contracts_from_accounts (replicate 32 0) eq_refl).
Defined.

(** ** Token supply events, call results and failed events *)

Section EventOutcomes.

Variable effectTypes : gmap string string.



Lemma patch_fresh (l : list (ObjId * Obj)) frame k v :
  Forall (λ e : ObjId * Obj, (e.1 < frame)%nat) l →
  map (λ e : ObjId * Obj, if Nat.eqb e.1 frame then (e.1, <[k := v]> e.2) else e) l = l.
Proof.
  induction 1 as [|e l He _ IH]; [reflexivity|]. cbn [map]. rewrite IH.
  destruct (Nat.eqb_spec e.1 frame); [lia | reflexivity].
Qed.

Lemma fn_call_pushes_object body type contractId name contractTopic functionTopic s :
  topics body !! 0%nat = Some name → native name = VStr "fn_call" →
  topics body !! 1%nat = Some contractTopic →
  topics body !! 2%nat = Some functionTopic →
  let outcome := Events.processDiagnosticEvent effectTypes body type contractId s in
  callStack outcome.2 = allocated (effectAnalyzer s) :: callStack s
  ∧ effects (effectAnalyzer outcome.2)
    = effects (effectAnalyzer s)
      ++ [(allocated (effectAnalyzer s),
           defaultSource (source (effectAnalyzer s))
             (invocationEffect effectTypes contractTopic functionTopic body
                (length (callStack s))))].
Proof.
  intros Hname Hcall Hcontract Hfunction.
  unfold Events.processDiagnosticEvent.
  rewrite Hname, Hcontract, Hfunction, processEventBodyValue_payload. unfold xdrParseScVal.
  js_run. rewrite Hcall.
  cbn [strictEqStr String.eqb Ascii.eqb Bool.eqb]. cbv iota.
  unfold setCallStack, invocationEffect.
  destruct (callStack s) as [|frame stack]; js_run; cbn [length Nat.eqb negb];
    split; reflexivity.
Qed.

Lemma fn_return_patches body contractId name frame stack s :
  topics body !! 0%nat = Some name → native name = VStr "fn_return" →
  callStack s = frame :: stack →
  let outcome := Events.processDiagnosticEvent effectTypes body EVENT_TYPES_DIAGNOSTIC
                   contractId s in
  outcome.1 = Return tt
  ∧ callStack outcome.2 = stack
  ∧ effects (effectAnalyzer outcome.2)
    = if String.eqb (switchName (eventData body)) "scvVoid" then effects (effectAnalyzer s)
      else map (λ e : ObjId * Obj,
                  if Nat.eqb e.1 frame
                  then (e.1, <["result" := VStr (toXDR (eventData body))]> e.2) else e)
               (effects (effectAnalyzer s)).
Proof.
  intros Hname Hreturn Hstack.
  unfold Events.processDiagnosticEvent.
  rewrite Hname. unfold xdrParseScVal. js_run. rewrite Hreturn.
  cbn [strictEqStr String.eqb Ascii.eqb Bool.eqb]. cbv iota.
  change (EVENT_TYPES_DIAGNOSTIC =? EVENT_TYPES_DIAGNOSTIC) with true.
  cbn [negb]. cbv iota.
  unfold setCallStack, Events.patch. rewrite Hstack.
  destruct (String.eqb (switchName (eventData body)) "scvVoid");
    js_run; cbn [negb head tail]; repeat split; reflexivity.
Qed.

(** X23.  The result of a call lands on the invocation effect of that call: after
    a 'fn_call' event and the diagnostic 'fn_return' event that follows it,
    the call stack is what it was, and the one effect added is the
    invocation effect, carrying the base64 XDR of the returned value as its
    [result] unless the call returned void. *)
Theorem fn_return_attaches_result_to_its_call call ret type callee returnee
    name contractTopic functionTopic returnName s :
  freshIdentities (effectAnalyzer s) →
  topics call !! 0%nat = Some name → native name = VStr "fn_call" →
  topics call !! 1%nat = Some contractTopic →
  topics call !! 2%nat = Some functionTopic →
  topics ret !! 0%nat = Some returnName → native returnName = VStr "fn_return" →
  let entered := (Events.processDiagnosticEvent effectTypes call type callee s).2 in
  let outcome := Events.processDiagnosticEvent effectTypes ret EVENT_TYPES_DIAGNOSTIC
                   returnee entered in
  let invoked := defaultSource (source (effectAnalyzer s))
                   (invocationEffect effectTypes contractTopic functionTopic call
                      (length (callStack s))) in
  outcome.1 = Return tt
  ∧ callStack outcome.2 = callStack s
  ∧ effectList (effectAnalyzer outcome.2)
    = effectList (effectAnalyzer s)
      ++ [if String.eqb (switchName (eventData ret)) "scvVoid" then invoked
          else <["result" := VStr (toXDR (eventData ret))]> invoked].
Proof.
  intros Hfresh Hname Hcall Hcontract Hfunction Hreturned Hreturn entered outcome invoked.
  destruct (fn_call_pushes_object call type callee name contractTopic functionTopic s
              Hname Hcall Hcontract Hfunction) as (Hstack & Heffects).
  fold entered invoked in Hstack, Heffects.
  destruct (fn_return_patches ret returnee returnName (allocated (effectAnalyzer s))
              (callStack s) entered Hreturned Hreturn Hstack) as (Hc & Hs & Hl).
  fold outcome in Hc, Hs, Hl.
  split; [exact Hc|]. split; [exact Hs|].
  unfold effectList. rewrite Hl, Heffects.
  destruct (String.eqb (switchName (eventData ret)) "scvVoid").
  - by rewrite fmap_app.
  - rewrite map_app, patch_fresh by exact Hfresh.
    cbn [map fst]. rewrite Nat.eqb_refl, fmap_app. reflexivity.
Qed.

(** X24.  A diagnostic 'fn_return' event met with an empty call stack has no call
    to report to: it fails with a TypeError when it carries a result, and
    passes silently when the result is void. *)
Theorem fn_return_without_open_call body contractId name s :
  topics body !! 0%nat = Some name → native name = VStr "fn_return" →
  callStack s = [] →
  let outcome := Events.processDiagnosticEvent effectTypes body EVENT_TYPES_DIAGNOSTIC
                   contractId s in
  if String.eqb (switchName (eventData body)) "scvVoid"
  then outcome = (Return tt, s)
  else ∃ message, outcome = (Throw (TypeError message), s).
Proof.
  intros Hname Hreturn Hempty outcome. subst outcome.
  unfold Events.processDiagnosticEvent.
  rewrite Hname. unfold xdrParseScVal. js_run. rewrite Hreturn.
  cbn [strictEqStr String.eqb Ascii.eqb Bool.eqb]. cbv iota.
  change (EVENT_TYPES_DIAGNOSTIC =? EVENT_TYPES_DIAGNOSTIC) with true.
  cbn [negb]. cbv iota. unfold setCallStack. js_run.
  destruct s as [ea stack]. cbn [callStack effectAnalyzer] in *. subst stack.
  destruct (String.eqb (switchName (eventData body)) "scvVoid"); cbn [negb head tail];
    [reflexivity | by eexists].
Qed.

Lemma forOf_app {S A} (xs ys : list A) (body : A → Js S unit) s s1 :
  forOf xs body s = (Return tt, s1) →
  forOf (xs ++ ys) body s = forOf ys body s1.
Proof.
  revert s. induction xs as [|x xs IH]; intros s Hrun.
  - by injection Hrun as ->.
  - cbn [app forOf] in *. unfold bind in *.
    destruct (body x s) as [[[]|e] s2]; [by apply IH | discriminate].
Qed.

(** X25.  A diagnostic event that is not part of a successful contract call stops
    the analysis with UnexpectedTxMetaChangeError: the events before it have
    been processed, the events after it are never looked at.  Without
    diagnostic events the pass does nothing. *)
Theorem failed_diagnostic_event_aborts s :
  (diagnosticEvents (effectAnalyzer s) = None →
     Events.analyzeDiagnosticEvents effectTypes s = (Return tt, s))
  ∧ (∀ earlier evt later s1,
       diagnosticEvents (effectAnalyzer s) = Some (earlier ++ evt :: later) →
       forOf earlier (Events.analyzeDiagnosticEvent effectTypes) s = (Return tt, s1) →
       inSuccessfulContractCall evt = false →
       Events.analyzeDiagnosticEvents effectTypes s
       = (Throw (UnexpectedTxMetaChangeError (VStr "diagnostic_event") (VStr "failed")), s1)).
Proof.
  split.
  - intros Hnone. unfold Events.analyzeDiagnosticEvents. js_run. by rewrite Hnone.
  - intros earlier evt later s1 Hevents Hearlier Hfailed.
    unfold Events.analyzeDiagnosticEvents. js_run. rewrite Hevents.
    rewrite (forOf_app _ _ _ _ _ Hearlier). cbn [forOf]. unfold bind.
    unfold Events.analyzeDiagnosticEvent. by rewrite Hfailed.
Qed.

(** X26.  A 'transfer' event that carries no contract id fails with a TypeError
    before any effect is pushed: the asset of the transfer is the contract
    id, and the address test reads its length. *)
Theorem transfer_without_contract_id_throws evt name fromTopic toTopic s :
  inSuccessfulContractCall evt = true →
  contractId (event evt) = None →
  topics (body (event evt)) !! 0%nat = Some name → native name = VStr "transfer" →
  topics (body (event evt)) !! 1%nat = Some fromTopic →
  topics (body (event evt)) !! 2%nat = Some toTopic →
  ∃ message, Events.analyzeDiagnosticEvent effectTypes evt s = (Throw (TypeError message), s).
Proof.
  intros Hok Hnone Hname Htransfer Hfrom Hto.
  unfold Events.analyzeDiagnosticEvent, Events.processDiagnosticEvent.
  rewrite Hok, Hnone, Hname, Hfrom, Hto, processEventBodyValue_payload. unfold xdrParseScVal.
  cbn [negb]. js_run. rewrite Htransfer.
  cbn [strictEqStr String.eqb Ascii.eqb Bool.eqb]. cbv iota.
  by eexists.
Qed.

End EventOutcomes.



(** A call of swap on [sampleContract] that returns 7. *)
Lemma fn_return_attaches_result_to_its_call_witness :
  effectList (effectAnalyzer
    (Events.processDiagnosticEvent effectKindsTable (returnOf topicSwap (scvU32 7 "AAAAAwAAAAc="))
       EVENT_TYPES_DIAGNOSTIC (VStr sampleContract)
       (Events.processDiagnosticEvent effectKindsTable (callOf addressSampleContract topicSwap)
          EVENT_TYPES_DIAGNOSTIC VNull (freshEvents None)).2).2)
  = [ {[ "type" := VStr "contractInvoked"; "source" := VStr sampleAccount;
         "contract" := VStr sampleContract; "function" := VStr "swap"; "args" := VUndef;
         "result" := VStr "AAAAAwAAAAc=" ]} ].
Proof.
  destruct (fn_return_attaches_result_to_its_call effectKindsTable
              (callOf addressSampleContract topicSwap)
              (returnOf topicSwap (scvU32 7 "AAAAAwAAAAc="))
              EVENT_TYPES_DIAGNOSTIC VNull (VStr sampleContract)
              topicFnCall addressSampleContract topicSwap topicFnReturn (freshEvents None)
              (List.Forall_nil _) eq_refl eq_refl eq_refl eq_refl eq_refl eq_refl)
    as (_ & _ & Hl).
  etransitivity; [exact Hl | by_evaluation].
Defined.

(** A return of 7 and a return of void, both without a call. *)
Lemma fn_return_without_open_call_witness :
  (∃ message,
     Events.processDiagnosticEvent effectKindsTable
       (returnOf topicSwap (scvU32 7 "AAAAAwAAAAc=")) EVENT_TYPES_DIAGNOSTIC
       (VStr sampleContract) (freshEvents None)
     = (Throw (TypeError message), freshEvents None))
  ∧ Events.processDiagnosticEvent effectKindsTable (returnOf topicSwap scvVoid)
      EVENT_TYPES_DIAGNOSTIC (VStr sampleContract) (freshEvents None)
    = (Return tt, freshEvents None).
Proof.
  split.
  - exact (fn_return_without_open_call effectKindsTable
             (returnOf topicSwap (scvU32 7 "AAAAAwAAAAc=")) (VStr sampleContract)
             topicFnReturn (freshEvents None) eq_refl eq_refl eq_refl).
  - exact (fn_return_without_open_call effectKindsTable (returnOf topicSwap scvVoid)
             (VStr sampleContract) topicFnReturn (freshEvents None) eq_refl eq_refl eq_refl).
Defined.

(** A call followed by a failed event and a return: the analysis stops
    with the call on the stack. *)
Lemma failed_diagnostic_event_aborts_witness :
  let events := [diagnostic None EVENT_TYPES_DIAGNOSTIC (callOf addressSampleContract topicSwap);
                 failedEvent sampleMint;
                 diagnostic (Some sampleContract) EVENT_TYPES_DIAGNOSTIC
                   (returnOf topicSwap scvVoid)] in
  let outcome := Events.analyzeDiagnosticEvents effectKindsTable (freshEvents (Some events)) in
  outcome.1 = Throw (UnexpectedTxMetaChangeError (VStr "diagnostic_event") (VStr "failed"))
  ∧ length (callStack outcome.2) = 1%nat
  ∧ length (effectList (effectAnalyzer outcome.2)) = 1%nat.
Proof.
  intros events outcome. subst outcome.
  destruct (failed_diagnostic_event_aborts effectKindsTable (freshEvents (Some events)))
    as [_ Habort].
  rewrite (Habort [diagnostic None EVENT_TYPES_DIAGNOSTIC (callOf addressSampleContract topicSwap)]
             (failedEvent sampleMint)
             [diagnostic (Some sampleContract) EVENT_TYPES_DIAGNOSTIC (returnOf topicSwap scvVoid)]
             _ eq_refl eq_refl eq_refl).
  repeat apply conj; by_evaluation.
Defined.

(** A transfer reported without a contract id. *)
Lemma transfer_without_contract_id_throws_witness :
  ∃ message,
    Events.analyzeDiagnosticEvent effectKindsTable
      (diagnostic None EVENT_TYPES_CONTRACT accountTransfer) (freshEvents None)
    = (Throw (TypeError message), freshEvents None).
Proof.
  exact (transfer_without_contract_id_throws effectKindsTable
           (diagnostic None EVENT_TYPES_CONTRACT accountTransfer)
           topicTransfer addressSampleAccount addressOtherAccount (freshEvents None)
           eq_refl eq_refl eq_refl eq_refl eq_refl eq_refl).
Defined.

(** ** Contract events *)

Section ContractEventEffects.

Variable effectTypes : gmap string string.






End ContractEventEffects.


(** ** Sequence bumps and multiplexed addresses *)

Section SequenceBump.

Variable effectTypes : gmap string string.


End SequenceBump.

Section MuxedAddresses.

Variable decodeMed25519PublicKey : string → Completion (list Z).

(** X30.  Normalizing a multiplexed address keeps the 32 bytes of the account key
    and forgets the id that follows them: the result is the 56-character
    'G' address of the key, whatever the id. *)
Theorem normalizeAddress_forgets_mux_id address key id :
  firstChar address = Some "M"%char →
  decodeMed25519PublicKey address = Return (key ++ id) →
  length key = 32%nat →
  normalizeAddress decodeMed25519PublicKey address
  = Return (StrKey.encodeEd25519PublicKey key)
  ∧ String.length (StrKey.encodeEd25519PublicKey key) = 56%nat
  ∧ firstChar (StrKey.encodeEd25519PublicKey key) = Some "G"%char.
Proof.
  intros Hprefix Hdecoded Hkey. unfold normalizeAddress.
  rewrite Hprefix, Hdecoded. rewrite bool_decide_eq_false_2 by done.
  rewrite bool_decide_eq_true_2 by done. cbn [negb cbind].
  rewrite take_app_length' by done.
  split; [reflexivity|]. split; [by apply encodeCheck_length | reflexivity].
Qed.

End MuxedAddresses.


(** The multiplexed form of the all-zero account, with id 1. *)
Lemma normalizeAddress_forgets_mux_id_witness :
  normalizeAddress sampleDecoder sampleMuxedAccount = Return sampleAccount.
Proof.
  destruct (normalizeAddress_forgets_mux_id sampleDecoder sampleMuxedAccount
              (replicate 32 0) [0; 0; 0; 0; 0; 0; 0; 1] eq_refl eq_refl eq_refl) as (Hn & _).
  etransitivity; [exact Hn | by_evaluation].
Defined.

(** The topics of a mint of the standard shape. *)
Lemma standard_shape_accepts_exactly_standard_topics_witness :
  standardTopics (topics sampleMint).
Proof.
  exact (proj1 (standard_shape_accepts_exactly_standard_topics (topics sampleMint)) eq_refl).
Defined.
